(** * discord-player-ytdlp: a shallow embedding of the extractor

    The development follows the two source modules of the repository:
    the utilities ([initializeYouTube], the URL classifiers,
    [getYouTubePlaylist], [getStreamingUrl], [formatDuration], ...) and
    the [YtDlpExtractor] class built on them ([handle], [stream],
    [getRelatedTracks], ...).

    JavaScript values are a small inductive type, thrown errors are
    carried by their message, and everything the program does to the
    outside (the file system, the external yt-dlp process, the
    youtubei.js session) is threaded through an explicit world. *)

From Stdlib Require Import ZArith Ascii String DecimalString Lia.
From stdpp Require Import base option list strings gmap.

Local Open Scope Z_scope.

(** ** JavaScript strings

    Strings are modelled as sequences of 8-bit characters: the
    identifiers, URLs and cookie strings the program manipulates are
    ASCII. *)

Module JsString.

Fixpoint startsWith (p s : string) : bool :=
  match p, s with
  | EmptyString, _ => true
  | String a p', String b s' => if Ascii.eqb a b then startsWith p' s' else false
  | String _ _, EmptyString => false
  end.

(** [s.includes(p)] *)
Fixpoint includes (p s : string) : bool :=
  startsWith p s ||
  match s with
  | EmptyString => false
  | String _ s' => includes p s'
  end.

(** [s.substring(n)] for [0 <= n] *)
Fixpoint substring_from (n : nat) (s : string) : string :=
  match n, s with
  | O, _ => s
  | S n', String _ s' => substring_from n' s'
  | S _, EmptyString => EmptyString
  end.

Fixpoint take (n : nat) (s : string) : string :=
  match n, s with
  | S n', String a s' => String a (take n' s')
  | _, _ => EmptyString
  end.

(** White space and line terminators of the ASCII range, as [trim]
    and the regular expression class [\s] see them. *)
Definition is_white (a : ascii) : bool :=
  match a with
  | "009" | "010" | "011" | "012" | "013" | " " => true
  | _ => false
  end%char.

Fixpoint trimStart (s : string) : string :=
  match s with
  | String a s' => if is_white a then trimStart s' else s
  | EmptyString => EmptyString
  end.

Definition trim (s : string) : string :=
  String.rev (trimStart (String.rev (trimStart s))).

(** The filler of [padStart]: the pad string repeated and cut to [n]
    characters ([cur] is what is left of the current repetition). *)
Fixpoint fill (n : nat) (pad cur : string) : string :=
  match n with
  | O => EmptyString
  | S n' =>
      match cur with
      | String a r => String a (fill n' pad r)
      | EmptyString =>
          match pad with
          | String a r => String a (fill n' pad r)
          | EmptyString => EmptyString
          end
      end
  end.

(** [s.padStart(target, pad)] *)
Definition padStart (target : nat) (pad s : string) : string :=
  if (target <=? String.length s)%nat then s
  else fill (target - String.length s) pad pad +:+ s.

(** [s.split(sep)] for a one-character separator *)
Fixpoint split_go (sep : ascii) (cur : string) (s : string) : list string :=
  match s with
  | EmptyString => [String.rev cur]
  | String a s' =>
      if Ascii.eqb a sep then String.rev cur :: split_go sep EmptyString s'
      else split_go sep (String a cur) s'
  end.
Definition split (sep : ascii) (s : string) : list string :=
  split_go sep EmptyString s.

(** [parts.join(sep)] *)
Fixpoint join (sep : string) (parts : list string) : string :=
  match parts with
  | [] => EmptyString
  | [p] => p
  | p :: rest => p +:+ sep +:+ join sep rest
  end.

Definition lower (a : ascii) : ascii :=
  let n := nat_of_ascii a in
  if ((65 <=? n) && (n <=? 90))%nat then ascii_of_nat (n + 32) else a.

Fixpoint toLowerCase (s : string) : string :=
  match s with
  | EmptyString => EmptyString
  | String a s' => String (lower a) (toLowerCase s')
  end.

(** [Number.prototype.toString] on an integer *)
Definition of_Z (z : Z) : string := NilZero.string_of_int (Z.to_int z).

End JsString.

(** ** JavaScript numbers

    The numbers of the program are doubles, and [formatDuration]
    divides, takes remainders, rounds down and prints them.  The
    arithmetic is written out on exact rationals, with the rounding to
    53 bits where the platform rounds. *)

Module F64.

(** A number is [NaN], an infinity, or the finite double [n / 2^k].
    The two zeros are one, [fin 0 0]: the program prints numbers and
    compares them with zero, and neither tells the zeros apart.  A
    double has one canonical form, [k = 0] or [n] odd. *)
Inductive t : Type :=
| nan
| inf (negative : bool)
| fin (n : Z) (k : N).

Definition pow2 (k : N) : Z := 2 ^ Z.of_N k.

(** The canonical form of [n / 2^k] *)
Fixpoint halve (fuel : nat) (n : Z) (k : N) : t :=
  match fuel with
  | O => fin n k
  | S fuel' =>
      if (0 <? k)%N && Z.even n then halve fuel' (n / 2) (N.pred k) else fin n k
  end.

Definition norm (n : Z) (k : N) : t :=
  if n =? 0 then fin 0 0 else halve (N.to_nat k) n k.

(** Equality of canonical forms *)
Definition eqb (x y : t) : bool :=
  match x, y with
  | nan, nan => true
  | inf a, inf b => Bool.eqb a b
  | fin n k, fin n' k' => (n =? n') && (k =? k')%N
  | _, _ => false
  end.

(** The integer nearest to [a / b], ties to the even one ([0 < b]) *)
Definition rne (a b : Z) : Z :=
  let q := a / b in
  match 2 * (a mod b) ?= b with
  | Lt => q
  | Gt => q + 1
  | Eq => if Z.even q then q else q + 1
  end.

(** The [l] with [2^l <= p / q < 2^(l+1)], for positive [p] and [q] *)
Definition floor_log2 (p q : Z) : Z :=
  let c := Z.log2 p - Z.log2 q in
  if (if 0 <=? c then q * 2 ^ c <=? p else q <=? p * 2 ^ (- c)) then c else c - 1.

(** The double nearest to the positive rational [p / q], ties to even:
    53 significant bits, the smallest exponent of a subnormal being
    -1074, and an infinity from [2^1024] on. *)
Definition round (p q : Z) : t :=
  let l := floor_log2 p q in
  let s := Z.max (l - 52) (-1074) in
  if 0 <=? s then
    let m := rne p (q * 2 ^ s) in
    if 2 ^ 1024 <=? m * 2 ^ s then inf false else fin (m * 2 ^ s) 0
  else norm (rne (p * 2 ^ (- s)) q) (Z.to_N (- s)).

Definition negate (x : t) : t :=
  match x with
  | nan => nan
  | inf b => inf (negb b)
  | fin n k => fin (- n) k
  end.

(** The double nearest to [n / d], for [0 < d] *)
Definition of_ratio (n d : Z) : t :=
  if n =? 0 then fin 0 0
  else if n <? 0 then negate (round (- n) d) else round n d.

(** [x / c] and [x % c] for a positive integer literal [c].  The
    quotient is rounded; the remainder takes the sign of [x] and is
    exact, as it always is for doubles. *)
Definition div (x : t) (c : Z) : t :=
  match x with
  | nan => nan
  | inf b => inf b
  | fin n k => of_ratio n (c * pow2 k)
  end.

Definition rem (x : t) (c : Z) : t :=
  match x with
  | nan | inf _ => nan
  | fin n k => norm (Z.rem n (c * pow2 k)) k
  end.

(** [Math.floor] *)
Definition floor (x : t) : t :=
  match x with
  | fin n k => fin (n / pow2 k) 0
  | _ => x
  end.

(** [x > 0] *)
Definition positive (x : t) : bool :=
  match x with
  | nan => false
  | inf b => negb b
  | fin n _ => 0 <? n
  end.

Definition is_nan (x : t) : bool :=
  match x with nan => true | _ => false end.

(** *** Number::toString

    A finite number prints as the shortest decimal that reads back as
    the same double, and the closest one if there are several.  [n0]
    places the decimal point: [10^(n0-1) <= p/q < 10^n0]. *)

Fixpoint first_place (fuel : nat) (j : Z) (p q : Z) : Z :=
  match fuel with
  | O => j
  | S fuel' => if q <=? p * 10 ^ j then j else first_place fuel' (j + 1) p q
  end.

Definition dec_exp (p q : Z) : Z :=
  if q <=? p then Z.of_nat (String.length (JsString.of_Z (p / q)))
  else 1 - first_place (Z.to_nat (Z.log2 q) + 2) 1 p q.

(** The double that the decimal [s * 10^e] reads as *)
Definition of_decimal (s e : Z) : t :=
  if 0 <=? e then round (s * 10 ^ e) 1 else round s (10 ^ (- e)).

(** With [kk] digits, the candidates are the two decimals next to
    [p / q]; the search stops at the first [kk] for which one of them
    reads back as [x], and 17 digits always do. *)
Fixpoint shortest (fuel : nat) (kk : Z) (x : t) (p q n0 : Z) : Z * Z :=
  let e := n0 - kk in
  let num := if 0 <=? e then p else p * 10 ^ (- e) in
  let den := if 0 <=? e then q * 10 ^ e else q in
  let lo := num / den in
  let r := num mod den in
  let lo_ok := eqb (of_decimal lo e) x in
  let hi_ok := negb (r =? 0) && eqb (of_decimal (lo + 1) e) x in
  let nearest :=
    match 2 * r ?= den with
    | Lt => lo
    | Gt => lo + 1
    | Eq => if Z.even lo then lo else lo + 1
    end in
  match fuel with
  | O => (nearest, kk)
  | S fuel' =>
      match lo_ok, hi_ok with
      | true, true => (nearest, kk)
      | true, false => (lo, kk)
      | false, true => (lo + 1, kk)
      | false, false => shortest fuel' (kk + 1) x p q n0
      end
  end.

Fixpoint strip_zeros (fuel : nat) (s : Z) : Z :=
  match fuel with
  | O => s
  | S fuel' => if (s mod 10 =? 0) && negb (s =? 0) then strip_zeros fuel' (s / 10) else s
  end.

Definition zeros (n : Z) : string := JsString.fill (Z.to_nat n) "0" "0".

(** The digits [ds] with the decimal point after the first [n] of
    them: plain notation up to 21 integer digits and down to six
    leading zeros, exponent notation otherwise. *)
Definition layout (ds : string) (n : Z) : string :=
  let k := Z.of_nat (String.length ds) in
  if (k <=? n) && (n <=? 21) then ds +:+ zeros (n - k)
  else if (0 <? n) && (n <=? 21)
  then JsString.take (Z.to_nat n) ds +:+ "." +:+ JsString.substring_from (Z.to_nat n) ds
  else if (-6 <? n) && (n <=? 0) then "0." +:+ zeros (- n) +:+ ds
  else
    let e := n - 1 in
    let mantissa :=
      if k =? 1 then ds
      else JsString.take 1 ds +:+ "." +:+ JsString.substring_from 1 ds in
    mantissa +:+ "e" +:+ (if 0 <=? e then "+" else "-") +:+ JsString.of_Z (Z.abs e).

(** An integer below [2^53] prints as its digits; every integer of
    that range is a double, so that no shorter decimal reads back as
    it. *)
Definition print_pos (a : Z) (k : N) : string :=
  if (k =? 0)%N && (a <? 2 ^ 53) then JsString.of_Z a
  else
    let p := a in
    let q := pow2 k in
    let n0 := dec_exp p q in
    let '(s, kk) := shortest 16 1 (norm a k) p q n0 in
    let n := if s =? 10 ^ kk then n0 + 1 else n0 in
    layout (JsString.of_Z (strip_zeros 20 s)) n.

Definition to_string (x : t) : string :=
  match x with
  | nan => "NaN"
  | inf false => "Infinity"
  | inf true => "-Infinity"
  | fin n k =>
      if n =? 0 then "0"
      else if n <? 0 then "-" +:+ print_pos (- n) k
      else print_pos n k
  end.

(** *** StringToNumber

    White space around the literal is dropped and an empty string is
    0.  A literal is a binary, octal or hexadecimal integer with its
    prefix and no sign, or an optional sign followed by [Infinity] or
    by decimal digits with an optional fraction and exponent.  Anything
    else is [NaN]. *)

Definition digit_of (radix : Z) (a : ascii) : option Z :=
  let n := Z.of_nat (nat_of_ascii a) in
  let d :=
    if (48 <=? n) && (n <=? 57) then n - 48
    else if (97 <=? n) && (n <=? 102) then n - 87
    else if (65 <=? n) && (n <=? 70) then n - 55
    else radix in
  if d <? radix then Some d else None.

Fixpoint digits (radix acc count : Z) (s : string) : Z * Z * string :=
  match s with
  | String a s' =>
      match digit_of radix a with
      | Some d => digits radix (radix * acc + d) (count + 1) s'
      | None => (acc, count, s)
      end
  | EmptyString => (acc, count, s)
  end.

Definition is_empty (s : string) : bool :=
  match s with EmptyString => true | _ => false end.

Definition signed (s : string) : bool * string :=
  match s with
  | String "-" r => (true, r)
  | String "+" r => (false, r)
  | _ => (false, s)
  end.

Definition exponent (s : string) : option Z :=
  match s with
  | EmptyString => Some 0
  | String c s' =>
      if Ascii.eqb c "e" || Ascii.eqb c "E" then
        let '(neg, u) := signed s' in
        let '(v, n, rest) := digits 10 0 0 u in
        if (0 <? n) && is_empty rest then Some (if neg then - v else v) else None
      else None
  end.

Definition decimal (s : string) : option t :=
  if String.eqb s "Infinity" then Some (inf false)
  else
    let '(i, ni, r1) := digits 10 0 0 s in
    let '(m, nf, r2) :=
      match r1 with
      | String "." r => digits 10 i 0 r
      | _ => (i, 0, r1)
      end in
    if ni + nf =? 0 then None
    else
      match exponent r2 with
      | Some e =>
          let e10 := e - nf in
          Some (if 0 <=? e10 then of_ratio (m * 10 ^ e10) 1 else of_ratio m (10 ^ (- e10)))
      | None => None
      end.

Definition radix_of (c : ascii) : Z :=
  if Ascii.eqb c "x" || Ascii.eqb c "X" then 16
  else if Ascii.eqb c "o" || Ascii.eqb c "O" then 8
  else if Ascii.eqb c "b" || Ascii.eqb c "B" then 2
  else 0.

Definition radix_literal (s : string) : option t :=
  match s with
  | String "0" (String c r) =>
      let radix := radix_of c in
      if radix =? 0 then None
      else
        let '(v, n, rest) := digits radix 0 0 r in
        if (0 <? n) && is_empty rest then Some (of_ratio v 1) else None
  | _ => None
  end.

Definition of_string (s : string) : t :=
  let u := JsString.trim s in
  if is_empty u then fin 0 0
  else
    match radix_literal u with
    | Some x => x
    | None =>
        let '(neg, v) := signed u in
        match decimal v with
        | Some x => if neg then negate x else x
        | None => nan
        end
    end.

End F64.

(** ** JavaScript values

    A number is an integer [Num z], a fraction [Frac n k] for
    [n / 2^k] with [n] odd, an infinity or [NaN]; [Num 0] stands for
    both zeros.  Objects are plain objects without methods of their
    own, and objects and arrays carry the identity that [===]
    compares. *)

#[warnings="-register-all"]
Inductive jsv : Type :=
| Undef
| Null
| Bool (b : bool)
| NaN
| Num (z : Z)
| Str (s : string)
| Obj (ref : nat) (props : list (string * jsv))
| Arr (ref : nat) (items : list jsv)
| Infinity (negative : bool)
| Frac (n : Z) (k : positive).

Module Js.

(** ToBoolean *)
Definition truthy (v : jsv) : bool :=
  match v with
  | Undef | Null | NaN => false
  | Bool b => b
  | Num z => negb (z =? 0)
  | Str s => negb (String.eqb s EmptyString)
  | Obj _ _ | Arr _ _ | Infinity _ => true
  | Frac n _ => negb (n =? 0)
  end.

(** [a || b] on values already evaluated *)
Definition or (a b : jsv) : jsv := if truthy a then a else b.

(** [a === b] *)
Definition strict_eq (a b : jsv) : bool :=
  match a, b with
  | Undef, Undef | Null, Null => true
  | Bool x, Bool y => Bool.eqb x y
  | Num x, Num y => x =? y
  | Str x, Str y => String.eqb x y
  | Obj r _, Obj r' _ | Arr r _, Arr r' _ => (r =? r')%nat
  | Infinity x, Infinity y => Bool.eqb x y
  | Frac n k, Frac n' k' => (n =? n') && (k =? k')%positive
  | _, _ => false
  end.

Definition is_string (v : jsv) : bool :=
  match v with Str _ => true | _ => false end.

Definition is_digit (a : ascii) : bool :=
  let n := nat_of_ascii a in ((48 <=? n) && (n <=? 57))%nat.

Fixpoint assoc (k : string) (ps : list (string * jsv)) : jsv :=
  match ps with
  | [] => Undef
  | (k', v) :: ps' => if String.eqb k k' then v else assoc k ps'
  end.

(** ToString, as a template literal applies it *)
Fixpoint to_string (v : jsv) : string :=
  match v with
  | Undef => "undefined"
  | Null => "null"
  | Bool true => "true"
  | Bool false => "false"
  | NaN => "NaN"
  | Num z => F64.to_string (F64.fin z 0)
  | Infinity b => F64.to_string (F64.inf b)
  | Frac n k => F64.to_string (F64.fin n (Npos k))
  | Str s => s
  | Obj _ _ => "[object Object]"
  | Arr _ items =>
      JsString.join ","
        (map (fun i => match i with Undef | Null => EmptyString | _ => to_string i end)
             items)
  end.

End Js.

(** ** Regular expressions

    The classifiers of the utilities are regular expressions.  A
    backtracking matcher gives them their JavaScript meaning: [run r s]
    lists, in the order in which the engine tries them, what is left of
    [s] after each way of matching [r] at its start. *)

Module Regex.

Inductive regex : Type :=
| Class (p : ascii -> bool)
| Lit (l : string)
| Seq (r1 r2 : regex)
| Alt (r1 r2 : regex)
| Opt (r : regex)
| Star (r : regex)
| Rep (n : nat) (r : regex).

Definition Plus (r : regex) : regex := Seq r (Star r).

Fixpoint strip (l s : string) : option string :=
  match l, s with
  | EmptyString, _ => Some s
  | String a l', String b s' => if Ascii.eqb a b then strip l' s' else None
  | String _ _, EmptyString => None
  end.

(** Greedy iteration.  An iteration that consumes nothing is not
    taken, so [String.length s] rounds are all there can be. *)
Fixpoint star (step : string -> list string) (fuel : nat) (s : string) : list string :=
  match fuel with
  | O => [s]
  | S fuel' =>
      flat_map
        (fun s' => if (String.length s' <? String.length s)%nat
                   then star step fuel' s' else [])
        (step s) ++ [s]
  end.

Fixpoint rep (step : string -> list string) (n : nat) (s : string) : list string :=
  match n with
  | O => [s]
  | S n' => flat_map (rep step n') (step s)
  end.

Fixpoint run (r : regex) (s : string) : list string :=
  match r with
  | Class p =>
      match s with
      | String a s' => if p a then [s'] else []
      | EmptyString => []
      end
  | Lit l => option_list (strip l s)
  | Seq r1 r2 => flat_map (run r2) (run r1 s)
  | Alt r1 r2 => run r1 s ++ run r2 s
  | Opt r1 => run r1 s ++ [s]
  | Star r1 => star (run r1) (String.length s) s
  | Rep n r1 => rep (run r1) n s
  end.

(** [r.test(s)] for a pattern anchored with [^] *)
Definition test_anchored (r : regex) (s : string) : bool :=
  match run r s with [] => false | _ :: _ => true end.

(** [r.test(s)]: some position of [s] matches *)
Fixpoint test (r : regex) (s : string) : bool :=
  test_anchored r s ||
  match s with
  | EmptyString => false
  | String _ s' => test r s'
  end.

(** Group 1 of a pattern [prefix(group)], for the first way of
    matching [prefix] after which [group] matches. *)
Fixpoint first_capture (group : regex) (rems : list string) : option string :=
  match rems with
  | [] => None
  | rem :: rems' =>
      match run group rem with
      | rest :: _ => Some (JsString.take (String.length rem - String.length rest) rem)
      | [] => first_capture group rems'
      end
  end.

(** [s.match(/prefix(group)/)[1]], or [None] when [match] gives [null] *)
Fixpoint capture (prefix group : regex) (s : string) : option string :=
  match first_capture group (run prefix s) with
  | Some c => Some c
  | None =>
      match s with
      | EmptyString => None
      | String _ s' => capture prefix group s'
      end
  end.

Definition one_of (cs : string) (a : ascii) : bool :=
  JsString.includes (String a EmptyString) cs.

Definition alnum (a : ascii) : bool :=
  let n := nat_of_ascii a in
  ((48 <=? n) && (n <=? 57) || (65 <=? n) && (n <=? 90) || (97 <=? n) && (n <=? 122))%nat.

(** [.]: anything but a line terminator *)
Definition dot (a : ascii) : bool :=
  negb (Ascii.eqb a "010" || Ascii.eqb a "013").

End Regex.

(** ** URL classifiers *)

Import Regex.

(** [/^(https?:\/\/)?(www\.)?(youtube\.com|youtu\.be|m\.youtube\.com)/i];
    the flag [i] is rendered by matching the lower-cased input against
    the pattern, whose letters are lower case. *)
Definition youtubeRegex : regex :=
  Seq (Opt (Seq (Lit "http") (Seq (Opt (Lit "s")) (Lit "://"))))
      (Seq (Opt (Lit "www."))
           (Alt (Lit "youtube.com") (Alt (Lit "youtu.be") (Lit "m.youtube.com")))).

Definition isYouTubeUrl (url : jsv) : bool :=
  test_anchored youtubeRegex (JsString.toLowerCase (Js.to_string url)).

(** [/[?&]list=([a-zA-Z0-9_-]+)/], split at its group *)
Definition playlistPrefix : regex := Seq (Class (one_of "?&")) (Lit "list=").
Definition playlistGroup : regex :=
  Plus (Class (fun a => alnum a || one_of "_-" a)).

Definition isYouTubePlaylistUrl (url : jsv) : bool :=
  isYouTubeUrl url && test (Seq playlistPrefix playlistGroup) (Js.to_string url).

(** The pattern of [extractYouTubeId],
    [/(?:youtube\.com\/(?:[^\/]+\/.+\/|(?:v|e(?:mbed)?)\/|.*[?&]v=)|youtu\.be\/)(G{11})/],
    where [G] is any character but the double quote, [&], [?], [/] and
    white space; split at its group. *)
Definition videoPrefix : regex :=
  Alt (Seq (Lit "youtube.com/")
           (Alt (Seq (Plus (Class (fun a => negb (one_of "/" a))))
                     (Seq (Lit "/") (Seq (Plus (Class dot)) (Lit "/"))))
           (Alt (Seq (Alt (Lit "v") (Seq (Lit "e") (Opt (Lit "mbed")))) (Lit "/"))
                (Seq (Star (Class dot)) (Seq (Class (one_of "?&")) (Lit "v="))))))
      (Lit "youtu.be/").
Definition videoGroup : regex :=
  Rep 11 (Class (fun a => negb (Ascii.eqb a (ascii_of_nat 34) || one_of "&?/" a || JsString.is_white a))).

(** ** Errors

    A thrown [Error] is carried by its message: the handlers of the
    program look at nothing else. *)

Inductive outcome (A : Type) : Type :=
| Ok (a : A)
| Throw (message : string).
Arguments Ok {A} a.
Arguments Throw {A} message.

Module Pure.
Definition bind {A B} (m : outcome A) (k : A -> outcome B) : outcome B :=
  match m with
  | Ok a => k a
  | Throw e => Throw e
  end.

(** [try { m } catch (error) { h(error.message) }] *)
Definition try_catch {A} (m : outcome A) (h : string -> outcome A) : outcome A :=
  match m with
  | Ok a => Ok a
  | Throw e => h e
  end.
End Pure.

Notation "'let?' x ':=' m 'in' k" := (Pure.bind m (fun x => k))
  (at level 10, x name, m at level 100, k at level 200).

(** ** Conversion to a number

    An object or an array is first made a primitive value.  A plain
    object has the methods of [Object.prototype] unless a property of
    its own hides them: [valueOf] gives the object back, [toString]
    gives the text below, and with a property [toString] of its own,
    which is no function, nothing is left to call and the conversion
    throws.  An array converts through [join]. *)

Module Coerce.

Definition has_own (k : string) (ps : list (string * jsv)) : bool :=
  existsb (fun p => String.eqb k p.1) ps.

Fixpoint to_text (v : jsv) : outcome string :=
  match v with
  | Obj _ ps =>
      if has_own "toString" ps then Throw "Cannot convert object to primitive value"
      else Ok "[object Object]"
  | Arr _ items =>
      (fix join (l : list jsv) : outcome string :=
         let element i :=
           match i with
           | Undef | Null => Ok EmptyString
           | _ => to_text i
           end in
         match l with
         | [] => Ok EmptyString
         | [i] => element i
         | i :: l' =>
             let? a := element i in
             let? b := join l' in
             Ok (a +:+ "," +:+ b)
         end) items
  | _ => Ok (Js.to_string v)
  end.

(** ToNumber *)
Definition to_number (v : jsv) : outcome F64.t :=
  match v with
  | Undef | NaN => Ok F64.nan
  | Null => Ok (F64.fin 0 0)
  | Bool b => Ok (F64.fin (if b then 1 else 0) 0)
  | Num z => Ok (F64.fin z 0)
  | Infinity b => Ok (F64.inf b)
  | Frac n k => Ok (F64.fin n (Npos k))
  | Str s => Ok (F64.of_string s)
  | Obj _ _ | Arr _ _ =>
      let? s := to_text v in
      Ok (F64.of_string s)
  end.

End Coerce.

(** ** Duration formatting

    [formatDuration] of the utilities.  [isNaN] and the arithmetic
    convert their argument to a number, which an object may refuse. *)

Definition pad2 (x : F64.t) : string := JsString.padStart 2 "0" (F64.to_string x).

Definition formatDuration (seconds : jsv) : outcome string :=
  if negb (Js.truthy seconds) then Ok "Unknown"
  else
    let? s := Coerce.to_number seconds in
    if F64.is_nan s then Ok "Unknown"
    else
      let hours := F64.floor (F64.div s 3600) in
      let minutes := F64.floor (F64.div (F64.rem s 3600) 60) in
      let secs := F64.floor (F64.rem s 60) in
      if F64.positive hours
      then Ok (F64.to_string hours +:+ ":" +:+ pad2 minutes +:+ ":" +:+ pad2 secs)
      else Ok (F64.to_string minutes +:+ ":" +:+ pad2 secs).

(** ** Property access *)

Module Member.

Definition nullish (v : jsv) : bool :=
  match v with Undef | Null => true | _ => false end.

Definition lookup (k : string) (v : jsv) : jsv :=
  match v with
  | Obj _ ps => Js.assoc k ps
  | Arr _ items => if String.eqb k "length" then Num (Z.of_nat (length items)) else Undef
  | Str s => if String.eqb k "length" then Num (Z.of_nat (String.length s)) else Undef
  | _ => Undef
  end.

(** [v.k]: a [TypeError] on [undefined] and [null] *)
Definition get (k : string) (v : jsv) : outcome jsv :=
  if nullish v
  then Throw ("Cannot read properties of " +:+ Js.to_string v +:+ " (reading '" +:+ k +:+ "')")
  else Ok (lookup k v).

(** [v?.k] *)
Definition opt (k : string) (v : jsv) : jsv :=
  if nullish v then Undef else lookup k v.

(** [v?.[0]] *)
Definition opt0 (v : jsv) : jsv :=
  match v with
  | Arr _ (x :: _) => x
  | Obj _ ps => Js.assoc "0" ps
  | Str (String a _) => Str (String a EmptyString)
  | _ => Undef
  end.

End Member.

(** ** The world outside the program *)

(** The options handed to [Innertube.create] *)
Record init_options : Type := {
  cookie : jsv;
  client_name : jsv;
  enable_session_cache : bool
}.

(** What the program asks of the outside, in the order it asks.  A
    youtubei.js session is named by the moment of its creation. *)
Inductive event : Type :=
| Exec (command : string)
| SignOut (session : nat)
| Create (o : init_options)
| Search (session : nat) (query : string)
| GetInfo (session : nat) (videoId : string)
| GetPlaylist (session : nat) (playlistId : string).

(** The files on disk, the two module variables of the utilities
    ([innertube], [lastCookies]) and the requests made so far. *)
Record World : Type := {
  files : gmap string string;
  innertube : option nat;
  lastCookies : jsv;
  trace : list event
}.

(** A promise of the metadata backend settles, *)
Inductive settled : Type :=
| Resolved (v : jsv)
| Rejected (message : string).

(** or, where it is raced against a timer, may still be pending when
    the timer fires. *)
Inductive raced : Type :=
| Settled (r : settled)
| Pending.

(** [execAsync]: the process exits with its two streams, or the promise
    is rejected (exit status, timeout, buffer overflow). *)
Inductive exec_result : Type :=
| Exited (stdout stderr : string)
| Failed (message : string).

(** A parsed [URL]; [protocol] is its scheme followed by a colon. *)
Record URL : Type := { scheme : string }.
Definition protocol (u : URL) : string := scheme u +:+ ":".

(** The platform and the two backends.  Each answer may depend on the
    moment of the request (the length of the trace when it is made), so
    that the same request can be answered differently each time. *)
Record Env : Type := {
  dirname : string;
  new_URL : string -> option URL;
  JSON_parse : string -> option jsv;
  execAsync : nat -> string -> exec_result;
  Innertube_create : nat -> init_options -> bool;
  yt_search : nat -> nat -> string -> raced;
  yt_getInfo : nat -> nat -> string -> settled;
  yt_getPlaylist : nat -> nat -> string -> raced
}.

(** Computations that may throw and that change the world *)
Definition M (A : Type) : Type := World -> outcome A * World.

Module Eff.
Definition ret {A} (a : A) : M A := fun w => (Ok a, w).
Definition throw {A} (message : string) : M A := fun w => (Throw message, w).
Definition bind {A B} (m : M A) (k : A -> M B) : M B :=
  fun w =>
    match m w with
    | (Ok a, w') => k a w'
    | (Throw e, w') => (Throw e, w')
    end.
Definition try_catch {A} (m : M A) (h : string -> M A) : M A :=
  fun w =>
    match m w with
    | (Ok a, w') => (Ok a, w')
    | (Throw e, w') => h e w'
    end.
Definition lift {A} (m : outcome A) : M A := fun w => (m, w).
Definition get : M World := fun w => (Ok w, w).

(** Record a request; the result is the moment at which it is made. *)
Definition emit (e : event) : M nat :=
  fun w =>
    (Ok (length (trace w)),
     {| files := files w; innertube := innertube w;
        lastCookies := lastCookies w; trace := trace w ++ [e] |}).
End Eff.

Notation "'let*' x ':=' m 'in' k" := (Eff.bind m (fun x => k))
  (at level 10, x name, m at level 100, k at level 200).
Notation "'do' m 'then' k" := (Eff.bind m (fun _ => k))
  (at level 10, m at level 100, k at level 200).

Definition set_session (s : option nat) : M unit :=
  fun w =>
    (Ok tt, {| files := files w; innertube := s;
               lastCookies := lastCookies w; trace := trace w |}).

Definition set_lastCookies (c : jsv) : M unit :=
  fun w =>
    (Ok tt, {| files := files w; innertube := innertube w;
               lastCookies := c; trace := trace w |}).

Definition existsSync (path : string) : M bool :=
  fun w => (Ok (bool_decide (is_Some (files w !! path))), w).

Definition writeFileSync (path data : string) : M unit :=
  fun w =>
    (Ok tt, {| files := <[path := data]> (files w); innertube := innertube w;
               lastCookies := lastCookies w; trace := trace w |}).

Definition unlinkSync (path : string) : M unit :=
  fun w =>
    (Ok tt, {| files := delete path (files w); innertube := innertube w;
               lastCookies := lastCookies w; trace := trace w |}).

(** ** Track and playlist values of the utilities

    A property the source leaves out of an object is [Undef] here. *)

Record TrackInfo : Type := {
  t_id : jsv;
  t_title : jsv;
  t_duration : jsv;
  t_thumbnail : jsv;
  t_url : jsv;
  t_author : jsv;
  t_views : jsv;
  t_description : jsv
}.

Record PlaylistInfo : Type := {
  p_id : string;
  p_title : jsv;
  p_description : jsv;
  p_thumbnail : jsv;
  p_author : jsv;
  p_url : string;
  p_tracks : list TrackInfo
}.

Definition watch_url (id : jsv) : jsv :=
  Str ("https://www.youtube.com/watch?v=" +:+ Js.to_string id).

Definition playlist_url (playlistId : string) : string :=
  "https://www.youtube.com/playlist?list=" +:+ playlistId.

(** [xs.map(f)] and [xs.filter(f)] for callbacks that may throw: the
    first throw ends the traversal. *)
Fixpoint map_x {A B} (f : A -> outcome B) (xs : list A) : outcome (list B) :=
  match xs with
  | [] => Ok []
  | x :: xs' => let? y := f x in let? ys := map_x f xs' in Ok (y :: ys)
  end.

Fixpoint filter_x {A} (f : A -> outcome bool) (xs : list A) : outcome (list A) :=
  match xs with
  | [] => Ok []
  | x :: xs' =>
      let? keep := f x in
      let? ys := filter_x f xs' in
      Ok (if keep then x :: ys else ys)
  end.

(** The receiver of [.filter], [.slice(..).map] *)
Definition as_array (what : string) (v : jsv) : outcome (list jsv) :=
  match v with
  | Arr _ items => Ok items
  | _ => Throw (what +:+ " is not a function")
  end.

(** The object built from a video of a search result or of a
    watch-next feed; the source writes it out three times. *)
Definition videoTrack (video : jsv) : outcome TrackInfo :=
  let? id := Member.get "id" video in
  let? title := Member.get "title" video in
  let? duration := Member.get "duration" video in
  let? thumbnails := Member.get "thumbnails" video in
  let? author := Member.get "author" video in
  let? view_count := Member.get "view_count" video in
  Ok {| t_id := id;
        t_title := Js.or (Member.opt "text" title) (Str "Unknown Title");
        t_duration := Js.or (Member.opt "text" duration) (Str "Unknown");
        t_thumbnail := Js.or (Member.opt "url" (Member.opt0 thumbnails)) Null;
        t_url := watch_url id;
        t_author := Js.or (Member.opt "name" author) (Str "Unknown Artist");
        t_views := Js.or (Member.opt "text" view_count) (Str "0");
        t_description := Undef |}.

(** [item => item.type === 'CompactVideo' && item.id && item.title] *)
Definition isCompactVideo (item : jsv) : outcome bool :=
  let? type := Member.get "type" item in
  let? id := Member.get "id" item in
  let? title := Member.get "title" item in
  Ok (Js.strict_eq type (Str "CompactVideo") && Js.truthy id && Js.truthy title).

(** The object built from the result of [yt.getInfo] *)
Definition infoTrack (videoId : string) (info : jsv) (views0 : jsv) : TrackInfo :=
  let basic_info := Member.lookup "basic_info" info in
  {| t_id := Str videoId;
     t_title := Js.or (Member.opt "title" basic_info) (Str "Unknown Title");
     t_duration := Js.or (Member.opt "text" (Member.opt "duration" basic_info)) (Str "Unknown");
     t_thumbnail :=
       Js.or (Member.opt "url" (Member.opt0 (Member.opt "thumbnail" basic_info))) Null;
     t_url := watch_url (Str videoId);
     t_author := Js.or (Member.opt "author" basic_info) (Str "Unknown Artist");
     t_views := Js.or (Member.opt "view_count" basic_info) views0;
     t_description := Undef |}.

(** One entry of an ordinary playlist: the body of the callback given
    to [batch.map], whose [try] turns a throw into [null]. *)
Definition entryTrack (video : jsv) : outcome (option TrackInfo) :=
  Pure.try_catch
    (let? id := Member.get "id" video in
     let? video_id := Member.get "video_id" video in
     let? title := Member.get "title" video in
     let? author := Member.get "author" video in
     let? channel := Member.get "channel" video in
     let? duration := Member.get "duration" video in
     let? thumbnails := Member.get "thumbnails" video in
     let? thumbnail := Member.get "thumbnail" video in
     let? view_count := Member.get "view_count" video in
     let? views := Member.get "views" video in
     let videoId := Js.or id video_id in
     if negb (Js.truthy videoId) then Ok None
     else
       Ok (Some
         {| t_id := videoId;
            t_title := Js.or (Js.or (Member.opt "text" title) title) (Str "Unknown Title");
            t_duration := Js.or (Js.or (Member.opt "text" duration) duration) (Str "Unknown");
            t_thumbnail :=
              Js.or (Js.or (Member.opt "url" (Member.opt0 thumbnails))
                           (Member.opt "url" thumbnail)) Null;
            t_url := watch_url videoId;
            t_author :=
              Js.or (Js.or (Member.opt "name" author) (Member.opt "name" channel))
                    (Str "Unknown Artist");
            t_views := Js.or (Js.or (Member.opt "text" view_count) views) (Str "0");
            t_description := Undef |}))
    (fun _ => Ok None).

(** [Promise.allSettled]: one result per promise, in the order of the
    promises. *)
Inductive settlement (A : Type) : Type :=
| Fulfilled (value : A)
| RejectedWith (reason : string).
Arguments Fulfilled {A} value.
Arguments RejectedWith {A} reason.

Definition allSettled {A} (promises : list (outcome A)) : list (settlement A) :=
  map (fun p => match p with Ok a => Fulfilled a | Throw e => RejectedWith e end) promises.

(** [result.status === 'fulfilled' && result.value !== null], then
    [result.value] *)
Definition validResult (r : settlement (option TrackInfo)) : option TrackInfo :=
  match r with
  | Fulfilled (Some t) => Some t
  | _ => None
  end.

Definition batchSize : nat := 10.

(** [videos.slice(i, i + batchSize)] *)
Definition slice {A} (i j : nat) (xs : list A) : list A := take (j - i) (drop i xs).

(** The loop [for (let i = 0; i < videos.length; i += batchSize)].
    Every round moves [i] forward, so [length videos] rounds are more
    than the loop can take (see [batches_fuel]). *)
Fixpoint batches (fuel : nat) (videos : list jsv) (i : nat) (tracks : list TrackInfo)
  : list TrackInfo :=
  match fuel with
  | O => tracks
  | S fuel' =>
      if (i <? length videos)%nat then
        let batch := slice i (i + batchSize) videos in
        let batchPromises := map entryTrack batch in
        let batchResults := allSettled batchPromises in
        let validResults := omap validResult batchResults in
        batches fuel' videos (i + batchSize) (tracks ++ validResults)
      else tracks
  end.

(** The playlist object without its tracks: the source builds it the
    same way at both of its [return]s. *)
Definition playlistHeader (playlistId : string) (playlist : jsv) (tracks : list TrackInfo)
  : PlaylistInfo :=
  let info := Member.lookup "info" playlist in
  {| p_id := playlistId;
     p_title :=
       Js.or (Js.or (Member.opt "title" info) (Member.opt "text" (Member.lookup "title" playlist)))
             (Str "Unknown Playlist");
     p_description :=
       Js.or (Js.or (Member.opt "description" info)
                    (Member.opt "text" (Member.lookup "description" playlist)))
             (Str EmptyString);
     p_thumbnail :=
       Js.or (Js.or (Member.opt "url" (Member.opt0 (Member.opt "thumbnails" info)))
                    (Member.opt "url" (Member.opt0 (Member.lookup "thumbnails" playlist))))
             Null;
     p_author :=
       Js.or (Js.or (Member.opt "name" (Member.opt "author" info))
                    (Member.opt "name" (Member.lookup "author" playlist)))
             (Str "Unknown");
     p_url := playlist_url playlistId;
     p_tracks := tracks |}.

Definition dq : string := String (ascii_of_nat 34) EmptyString.
Definition tab : string := String (ascii_of_nat 9) EmptyString.
Definition nl : string := String (ascii_of_nat 10) EmptyString.

(** The [options] argument of the backend utilities *)
Record yt_options : Type := { cookies : jsv; client : jsv }.

Section Utilities.

Context (E : Env).

(** *** [initializeYouTube] *)

Definition needsReinit (options : yt_options) (w : World) : bool :=
  negb (bool_decide (is_Some (innertube w)))
  || negb (Js.strict_eq (cookies options) (lastCookies w)).

(** The [initOptions] the function fills in *)
Definition initOptionsFor (options : yt_options) : init_options :=
  {| cookie := if Js.truthy (cookies options) then cookies options else Undef;
     client_name := if Js.truthy (client options) then client options else Undef;
     enable_session_cache := true |}.

Definition initializeYouTube (options : yt_options) : M (option nat) :=
  let currentCookies := cookies options in
  let* w := Eff.get in
  do (if needsReinit options w then
        let initOptions := initOptionsFor options in
        (* a failing sign-out is ignored *)
        do (match innertube w with
            | Some s => let* _ := Eff.emit (SignOut s) in Eff.ret tt
            | None => Eff.ret tt
            end)
        then
        let* moment := Eff.emit (Create initOptions) in
        if Innertube_create E moment initOptions
        then do set_session (Some moment) then set_lastCookies currentCookies
        else set_session None
      else Eff.ret tt)
  then
  let* w' := Eff.get in
  Eff.ret (innertube w').

(** [await Promise.race([promise, timeoutPromise])] *)
Definition race (r : raced) (timeoutMessage : string) : M jsv :=
  match r with
  | Settled (Resolved v) => Eff.ret v
  | Settled (Rejected e) => Eff.throw e
  | Pending => Eff.throw timeoutMessage
  end.

Definition await (r : settled) : M jsv :=
  match r with
  | Resolved v => Eff.ret v
  | Rejected e => Eff.throw e
  end.

(** *** [searchYouTube] *)

Definition searchYouTube (query : string) (limit : nat) (options : yt_options)
  : M (list TrackInfo) :=
  Eff.try_catch
    (let* yt := initializeYouTube options in
     match yt with
     | None => Eff.throw "YouTube service not available"
     | Some session =>
         let* moment := Eff.emit (Search session query) in
         let* searchResults :=
           race (yt_search E moment session query) "YouTube search timeout" in
         let* videos := Eff.lift (Member.get "videos" searchResults) in
         if negb (Js.truthy videos) || Js.strict_eq (Member.lookup "length" videos) (Num 0)
         then Eff.ret []
         else
           let* items := Eff.lift (as_array "searchResults.videos.slice(...).map" videos) in
           Eff.lift (map_x videoTrack (take limit items))
     end)
    (fun _ => Eff.ret []).

(** *** [getYouTubePlaylist] *)

(** The Mix branch, after the identifier has been checked *)
Definition mixPlaylist (playlistId seedVideoId : string) (session : nat) : M PlaylistInfo :=
  Eff.try_catch
    (let* moment := Eff.emit (GetInfo session seedVideoId) in
     let* seedVideo := await (yt_getInfo E moment session seedVideoId) in
     if negb (Js.truthy seedVideo) then Eff.throw "Seed video not found"
     else
       let seed := infoTrack seedVideoId seedVideo (Str "0") in
       let watch_next_feed := Member.lookup "watch_next_feed" seedVideo in
       let* relatedVideos :=
         if Js.truthy watch_next_feed then
           Eff.lift
             (let? feed := as_array "seedVideo.watch_next_feed.filter" watch_next_feed in
              let? playable := filter_x isCompactVideo feed in
              map_x videoTrack (take 19 playable))
         else Eff.ret [] in
       let basic_info := Member.lookup "basic_info" seedVideo in
       Eff.ret
         {| p_id := playlistId;
            p_title :=
              Str ("Mix - " +:+
                   Js.to_string (Js.or (Member.opt "title" basic_info) (Str "Unknown")));
            p_description := Str "YouTube Mix playlist (auto-generated)";
            p_thumbnail :=
              Js.or (Member.opt "url" (Member.opt0 (Member.opt "thumbnail" basic_info))) Null;
            p_author := Str "YouTube";
            p_url := playlist_url playlistId;
            p_tracks := seed :: relatedVideos |})
    (fun _ =>
       Eff.throw "Unable to access Mix playlist. This may be a private or unavailable Mix.").

(** The handler of the outer [try] of [getYouTubePlaylist] *)
Definition playlistError {A} (message : string) : M A :=
  if JsString.includes "unviewable" message || JsString.includes "private" message
  then Eff.throw
         "This playlist is private or requires authentication. Please check your YouTube cookies."
  else if JsString.includes "timeout" message
  then Eff.throw "Playlist request timed out. Please try again."
  else if JsString.includes "not found" message
  then Eff.throw "Playlist not found. Please check the playlist ID."
  else Eff.throw message.

Definition getYouTubePlaylist (playlistId : string) (options : yt_options) : M PlaylistInfo :=
  Eff.try_catch
    (if JsString.startsWith "RD" playlistId then
       let seedVideoId :=
         if (2 <? String.length playlistId)%nat
         then Some (JsString.substring_from 2 playlistId) else None in
       match seedVideoId with
       | None => Eff.throw "Invalid YouTube Mix playlist ID format"
       | Some seed =>
           if negb (String.length seed =? 11)%nat
           then Eff.throw "Invalid YouTube Mix playlist ID format"
           else
             let* yt := initializeYouTube options in
             match yt with
             | None => Eff.throw "YouTube service not available"
             | Some session => mixPlaylist playlistId seed session
             end
       end
     else
       let* yt := initializeYouTube options in
       match yt with
       | None => Eff.throw "YouTube service not available"
       | Some session =>
           let* moment := Eff.emit (GetPlaylist session playlistId) in
           let* playlist :=
             race (yt_getPlaylist E moment session playlistId) "Playlist request timeout" in
           if negb (Js.truthy playlist) then Eff.throw "Playlist not found or inaccessible"
           else
             let pvideos := Member.lookup "videos" playlist in
             let pitems := Member.lookup "items" playlist in
             if negb (Js.truthy pvideos) && negb (Js.truthy pitems)
             then Eff.throw
                    "Playlist is private or unavailable. Please check your authentication."
             else
               let videos := Js.or (Js.or pvideos pitems) (Arr 0 []) in
               let len := Member.lookup "length" videos in
               if Js.strict_eq len (Num 0)
               then Eff.ret (playlistHeader playlistId playlist [])
               else
                 match videos with
                 | Arr _ entries =>
                     Eff.ret (playlistHeader playlistId playlist
                                (batches (length entries) entries 0 []))
                 | _ =>
                     (* not an array: the loop is entered only if
                        [0 < videos.length]; then a string has [slice]
                        but its result has no [map], and an object has
                        no [slice] *)
                     match Coerce.to_number len with
                     | Ok n =>
                         if F64.positive n
                         then Eff.throw
                                match videos with
                                | Str _ => "videos.slice(...).map is not a function"
                                | _ => "videos.slice is not a function"
                                end
                         else Eff.ret (playlistHeader playlistId playlist [])
                     | Throw e => Eff.throw e
                     end
                 end
       end)
    playlistError.

(** *** [getYouTubeMetadata]: [null] where anything fails *)

Definition getYouTubeMetadata (videoId : string) (options : yt_options)
  : M (option TrackInfo) :=
  Eff.try_catch
    (let* yt := initializeYouTube options in
     match yt with
     | None => Eff.throw "YouTube service not available"
     | Some session =>
         let* moment := Eff.emit (GetInfo session videoId) in
         let* info := await (yt_getInfo E moment session videoId) in
         if negb (Js.truthy info) then Eff.throw "Video not found"
         else
           let t := infoTrack videoId info (Num 0) in
           let basic_info := Member.lookup "basic_info" info in
           Eff.ret (Some
             {| t_id := t_id t; t_title := t_title t; t_duration := t_duration t;
                t_thumbnail := t_thumbnail t; t_url := t_url t; t_author := t_author t;
                t_views := t_views t;
                t_description :=
                  Js.or (Member.opt "short_description" basic_info) (Str EmptyString) |})
     end)
    (fun _ => Eff.ret None).

(** *** [getRelatedTracks] of the utilities *)

Definition getRelatedTracks (videoId : string) (options : yt_options) (limit : nat)
  : M (list TrackInfo) :=
  Eff.try_catch
    (let* yt := initializeYouTube options in
     match yt with
     | None => Eff.throw "YouTube service not available"
     | Some session =>
         let* moment := Eff.emit (GetInfo session videoId) in
         let* info := await (yt_getInfo E moment session videoId) in
         let watch_next_feed := Member.opt "watch_next_feed" info in
         if negb (Js.truthy info) || negb (Js.truthy watch_next_feed) then Eff.ret []
         else
           Eff.lift
             (let? feed := as_array "info.watch_next_feed.filter" watch_next_feed in
              let? playable := filter_x isCompactVideo feed in
              map_x videoTrack (take limit playable))
     end)
    (fun _ => Eff.ret []).

(** *** [convertToNetscapeFormat] *)

Definition netscapeLine (cookie : string) : string :=
  if negb (negb (String.eqb cookie EmptyString) && JsString.includes "=" cookie)
  then EmptyString
  else
    match JsString.split "=" cookie with
    | [] => EmptyString
    | name :: valueParts =>
        let value := JsString.join "=" valueParts in
        if String.eqb name EmptyString || String.eqb value EmptyString then EmptyString
        else
          let secure := if JsString.includes "Secure" name then "TRUE" else "FALSE" in
          ".youtube.com" +:+ tab +:+ "TRUE" +:+ tab +:+ "/" +:+ tab +:+ secure +:+ tab
          +:+ "0" +:+ tab +:+ JsString.trim name +:+ tab +:+ JsString.trim value +:+ nl
    end.

(** What is not a string has no [split]: the [catch] gives the
    argument back. *)
Definition convertToNetscapeFormat (browserCookies : jsv) : jsv :=
  match browserCookies with
  | Str c =>
      let header :=
        "# Netscape HTTP Cookie File" +:+ nl
        +:+ "# This is a generated file! Do not edit." +:+ nl +:+ nl in
      let cookies := map JsString.trim (JsString.split ";" c) in
      Str (fold_left (fun acc cookie => acc +:+ netscapeLine cookie) cookies header)
  | _ => browserCookies
  end.

(** [fs.writeFileSync(path, data)]: only a string is written. *)
Definition writeData (path : string) (data : jsv) : M unit :=
  match data with
  | Str d => writeFileSync path d
  | _ => Eff.throw "The data argument must be of type string"
  end.

(** [path.join(__dirname, name)] *)
Definition inDirname (name : string) : string := dirname E +:+ "/" +:+ name.

(** The cleanup after [execAsync] *)
Definition cleanup (cookies : jsv) (tempCookiesFile : string) : M unit :=
  if Js.truthy cookies then
    Eff.try_catch
      (let* there := existsSync tempCookiesFile in
       if there then unlinkSync tempCookiesFile else Eff.ret tt)
      (fun _ => Eff.ret tt)
  else Eff.ret tt.

(** [await execAsync(command, ...)].  The process is taken to leave the
    files of the program as they are. *)
Definition run (command : string) : M (string * string) :=
  let* moment := Eff.emit (Exec command) in
  match execAsync E moment command with
  | Exited stdout stderr => Eff.ret (stdout, stderr)
  | Failed e => Eff.throw e
  end.

Definition commandLine (ytdlpPath : string) (args : list string) (url : string) : string :=
  dq +:+ ytdlpPath +:+ dq +:+ " " +:+ JsString.join " " args +:+ " " +:+ dq +:+ url +:+ dq.

Definition binaryNotFound {A} (ytdlpPath : string) : M A :=
  Eff.throw ("yt-dlp binary not found at: " +:+ ytdlpPath).

(** *** [getStreamingUrl] *)

Definition streamArgs (quality : string) : list string :=
  ["-f"; quality; "--get-url"; "--no-playlist"; "--no-warnings";
   "--no-check-certificates"; "--prefer-insecure"; "--skip-download";
   "--no-call-home"; "--no-cache-dir"; "--socket-timeout"; "10";
   "--retries"; "3"; "--fragment-retries"; "3"].

Definition usableCookieString (cookies : jsv) : bool :=
  match cookies with
  | Str c => negb (String.eqb c EmptyString) && negb (String.eqb (JsString.trim c) EmptyString)
  | _ => false
  end.

Definition getStreamingUrl (url : jsv) (ytdlpPath quality : string) (cookies : jsv)
  : M string :=
  Eff.try_catch
    (let* found := existsSync ytdlpPath in
     if negb found then binaryNotFound ytdlpPath
     else
       let optimizedArgs := streamArgs quality in
       let* optimizedArgs :=
         if usableCookieString cookies then
           let tempCookiesFile := inDirname "temp_cookies.txt" in
           Eff.try_catch
             (let netscapeCookies := convertToNetscapeFormat cookies in
              do writeData tempCookiesFile netscapeCookies then
              Eff.ret (optimizedArgs ++ ["--cookies"; tempCookiesFile]))
             (fun _ => Eff.ret optimizedArgs)
         else Eff.ret optimizedArgs in
       let command := commandLine ytdlpPath optimizedArgs (Js.to_string url) in
       let* out := run command in
       let stdout := out.1 in
       let stderr := out.2 in
       do cleanup cookies (inDirname "temp_cookies.txt") then
       if negb (String.eqb stderr EmptyString) && String.eqb stdout EmptyString
       then Eff.throw ("yt-dlp error: " +:+ stderr)
       else
         let streamUrl := JsString.trim stdout in
         if String.eqb streamUrl EmptyString || negb (JsString.startsWith "http" streamUrl)
         then Eff.throw "Invalid streaming URL returned"
         else Eff.ret streamUrl)
    (fun error => Eff.throw error).

(** *** [getYouTubeMetadataWithYtDlp] and [getBasicInfo] *)

Definition parse (stdout : string) : M jsv :=
  match JSON_parse E stdout with
  | Some v => Eff.ret v
  | None => Eff.throw "Unexpected token in JSON"
  end.

Definition displayDuration (duration : jsv) : outcome jsv :=
  if Js.truthy duration
  then let? text := formatDuration duration in Ok (Str text)
  else Ok (Str "Unknown").

Definition getYouTubeMetadataWithYtDlp (videoId ytdlpPath : string) (cookies : jsv)
  : M TrackInfo :=
  Eff.try_catch
    (let* found := existsSync ytdlpPath in
     if negb found then binaryNotFound ytdlpPath
     else
       let url := "https://www.youtube.com/watch?v=" +:+ videoId in
       let args :=
         ["-J"; "--no-playlist"; "--no-warnings"; "--no-check-certificates";
          "--socket-timeout"; "10"; "--retries"; "2"] in
       let* args :=
         if Js.truthy cookies then
           let tempCookiesFile := inDirname "temp_cookies_metadata.txt" in
           Eff.try_catch
             (let netscapeCookies := convertToNetscapeFormat cookies in
              do writeData tempCookiesFile netscapeCookies then
              Eff.ret (args ++ ["--cookies"; tempCookiesFile]))
             (fun _ => Eff.ret args)
         else Eff.ret args in
       let command := commandLine ytdlpPath args url in
       let* out := run command in
       let stdout := out.1 in
       let stderr := out.2 in
       do cleanup cookies (inDirname "temp_cookies_metadata.txt") then
       if negb (String.eqb stderr EmptyString) && String.eqb stdout EmptyString
       then Eff.throw ("yt-dlp metadata error: " +:+ stderr)
       else
         let* info := parse stdout in
         Eff.lift
           (let? title := Member.get "title" info in
            let? duration := displayDuration (Member.lookup "duration" info) in
            Ok {| t_id := Str videoId;
                  t_title :=
                    Js.or (Js.or title (Member.lookup "fulltitle" info)) (Str "Unknown Title");
                  t_duration := duration;
                  t_thumbnail := Js.or (Member.lookup "thumbnail" info) Null;
                  t_url := Str url;
                  t_author :=
                    Js.or (Js.or (Member.lookup "uploader" info) (Member.lookup "channel" info))
                          (Str "Unknown Artist");
                  t_views := Js.or (Member.lookup "view_count" info) (Num 0);
                  t_description :=
                    Js.or (Member.lookup "description" info) (Str EmptyString) |}))
    (fun error => Eff.throw error).

Definition getBasicInfo (url ytdlpPath : string) : M TrackInfo :=
  Eff.try_catch
    (let* found := existsSync ytdlpPath in
     if negb found then binaryNotFound ytdlpPath
     else
       let command :=
         dq +:+ ytdlpPath +:+ dq +:+ " -J --flat-playlist --no-warnings " +:+ dq +:+ url +:+ dq in
       let* out := run command in
       let stdout := out.1 in
       let stderr := out.2 in
       if negb (String.eqb stderr EmptyString) && String.eqb stdout EmptyString
       then Eff.throw ("yt-dlp info error: " +:+ stderr)
       else
         let* info := parse stdout in
         Eff.lift
           (let? id := Member.get "id" info in
            let? duration := displayDuration (Member.lookup "duration" info) in
            Ok {| t_id := Js.or id (Str "unknown");
                  t_title :=
                    Js.or (Js.or (Member.lookup "title" info) (Member.lookup "fulltitle" info))
                          (Str "Unknown Title");
                  t_duration := duration;
                  t_thumbnail := Js.or (Member.lookup "thumbnail" info) Null;
                  t_url := Js.or (Member.lookup "webpage_url" info) (Str url);
                  t_author :=
                    Js.or (Js.or (Member.lookup "uploader" info) (Member.lookup "channel" info))
                          (Str "Unknown Artist");
                  t_views := Undef;
                  t_description :=
                    Js.or (Member.lookup "description" info) (Str EmptyString) |}))
    (fun error => Eff.throw error).

(** *** [isValidUrl] and [validateUrl] *)

(** [new URL(s)] *)
Definition construct_URL (s : jsv) : outcome URL :=
  match new_URL E (Js.to_string s) with
  | Some u => Ok u
  | None => Throw "Invalid URL"
  end.

Definition isValidUrl (str : jsv) : bool :=
  match construct_URL str with
  | Ok _ => true
  | Throw _ => false
  end.

Definition unsupportedProtocols : list string := ["file:"; "ftp:"; "mailto:"].

Definition validateUrl (url : jsv) : outcome bool :=
  if negb (Js.truthy url) || negb (Js.is_string url) then Ok false
  else if negb (isValidUrl url) then Ok false
  else
    let? u := construct_URL url in
    if existsb (String.eqb (protocol u)) unsupportedProtocols then Ok false
    else Ok true.

(** *** [extractYouTubePlaylistId] and [extractYouTubeId]: [url.match]
    exists on strings only. *)

Definition matchOn (prefix group : regex) (url : jsv) : outcome (option string) :=
  match url with
  | Str s => Ok (capture prefix group s)
  | Undef | Null =>
      Throw ("Cannot read properties of " +:+ Js.to_string url +:+ " (reading 'match')")
  | _ => Throw "url.match is not a function"
  end.

Definition extractYouTubePlaylistId : jsv -> outcome (option string) :=
  matchOn playlistPrefix playlistGroup.

Definition extractYouTubeId : jsv -> outcome (option string) :=
  matchOn videoPrefix videoGroup.

(** *** [canExtract]: anything that goes wrong is [false] *)

Definition canExtract (url ytdlpPath : string) : M bool :=
  Eff.try_catch
    (let* found := existsSync ytdlpPath in
     if negb found then Eff.ret false
     else
       let command :=
         dq +:+ ytdlpPath +:+ dq +:+ " --simulate --quiet " +:+ dq +:+ url +:+ dq in
       let* _ := run command in
       Eff.ret true)
    (fun _ => Eff.ret false).

(** *** [createTrackObject] *)

Record TrackObject : Type := {
  o_title : jsv;
  o_author : jsv;
  o_duration : jsv;
  o_url : jsv;
  o_thumbnail : jsv;
  o_source : jsv;
  o_raw : jsv
}.

(** [source] is [Undef] where the caller leaves it out. *)
Definition createTrackObject (info source : jsv) : outcome TrackObject :=
  let source := match source with Undef => Str "yt-dlp" | _ => source end in
  let? title := Member.get "title" info in
  Ok {| o_title := Js.or title (Str "Unknown Title");
        o_author := Js.or (Member.lookup "author" info) (Str "Unknown Artist");
        o_duration := Js.or (Member.lookup "duration" info) (Str "Unknown");
        o_url := Member.lookup "url" info;
        o_thumbnail := Js.or (Member.lookup "thumbnail" info) Null;
        o_source := source;
        o_raw := info |}.

End Utilities.

(** ** The classes of discord-player the extractor builds *)

Module Track.
Record t : Type := {
  title : jsv;
  author : jsv;
  duration : jsv;
  url : jsv;
  thumbnail : jsv;
  source : string;
  raw : TrackInfo;
  (** what the extractor adds to [raw] next to the track data *)
  rawExtra : list (string * jsv);
  requestedBy : jsv;
  queryType : string;
  (** the identifier of the playlist the track belongs to *)
  playlist : option string
}.
End Track.

Module Playlist.
Record t : Type := {
  title : jsv;
  description : jsv;
  thumbnail : jsv;
  type : string;
  source : string;
  authorName : jsv;
  tracks : list Track.t;
  id : string;
  url : string;
  rawPlaylist : PlaylistInfo
}.
End Playlist.

(** [ExtractorInfo], the value of [createResponse(playlist, tracks)] *)
Record ExtractorInfo : Type := {
  playlist : option Playlist.t;
  tracks : list Track.t
}.

Definition createResponse (playlist : option Playlist.t) (tracks : list Track.t)
  : ExtractorInfo :=
  {| playlist := playlist; tracks := tracks |}.

(** The per-request context of the host *)
Record Context : Type := { requestedBy : jsv }.

(** ** [YtDlpExtractor] *)

Module YtDlpExtractor.

(** The fields the constructor sets *)
Record t : Type := {
  ytdlpPath : string;
  enableYouTubeSearch : bool;
  enableDirectUrls : bool;
  streamQuality : string;
  youtubeiOptions : yt_options
}.

Section Methods.

Context (E : Env) (this : t).

(** [new Track(this, {...})] with the fields every call site gives.
    The record holds the data handed to the constructor.  The
    constructor itself belongs to the player library, whose code is not
    among the sources: what it makes of the title, the thumbnail and
    the requester, and whether it accepts them at all, is left open,
    and the statements about the tracks of a response speak of the URL,
    the query type, the source, the playlist and the raw data only. *)
Definition newTrack (trackData : TrackInfo) (extra : list (string * jsv))
    (requestedBy : jsv) (queryType : string) (playlist : option string) : Track.t :=
  {| Track.title := t_title trackData;
     Track.author := t_author trackData;
     Track.duration := t_duration trackData;
     Track.url := t_url trackData;
     Track.thumbnail := t_thumbnail trackData;
     Track.source := "ytdlp-extractor";
     Track.raw := trackData;
     Track.rawExtra := extra;
     Track.requestedBy := requestedBy;
     Track.queryType := queryType;
     Track.playlist := playlist |}.

(** [this.youtubeiOptions?.cookies || null] *)
Definition cookiesOrNull : jsv := Js.or (cookies (youtubeiOptions this)) Null.

Definition handleYouTubePlaylist (url : string) (context : Context) : M ExtractorInfo :=
  Eff.try_catch
    (let* playlistId := Eff.lift (extractYouTubePlaylistId (Str url)) in
     match playlistId with
     | None => Eff.throw "Could not extract playlist ID"
     | Some playlistId =>
         let* playlistInfo := getYouTubePlaylist E playlistId (youtubeiOptions this) in
         if (length (p_tracks playlistInfo) =? 0)%nat
         then Eff.throw "Could not get playlist information or playlist is empty"
         else
           let tracks :=
             map (fun trackData =>
                    newTrack trackData [] (requestedBy context) "arbitrary" (Some playlistId))
                 (p_tracks playlistInfo) in
           let playlist :=
             {| Playlist.title := p_title playlistInfo;
                Playlist.description := p_description playlistInfo;
                Playlist.thumbnail := p_thumbnail playlistInfo;
                Playlist.type := "playlist";
                Playlist.source := "ytdlp-extractor";
                Playlist.authorName := p_author playlistInfo;
                Playlist.tracks := tracks;
                Playlist.id := playlistId;
                Playlist.url := p_url playlistInfo;
                Playlist.rawPlaylist := playlistInfo |} in
           Eff.ret (createResponse (Some playlist) tracks)
     end)
    (fun error => Eff.throw error).

Definition handleDirectUrl (url : string) (context : Context) : M ExtractorInfo :=
  Eff.try_catch
    (let* valid := Eff.lift (validateUrl E (Str url)) in
     if negb valid then Eff.throw "Invalid URL format"
     else if isYouTubeUrl (Str url) then
       if isYouTubePlaylistUrl (Str url) then handleYouTubePlaylist url context
       else
         let* videoId := Eff.lift (extractYouTubeId (Str url)) in
         match videoId with
         | None => Eff.throw "Could not extract YouTube video ID"
         | Some videoId =>
             let* trackInfo :=
               Eff.try_catch
                 (let* info :=
                    getYouTubeMetadataWithYtDlp E videoId (ytdlpPath this) cookiesOrNull in
                  Eff.ret (Some info))
                 (fun _ => getYouTubeMetadata E videoId (youtubeiOptions this)) in
             match trackInfo with
             | None => Eff.throw "Could not get YouTube metadata"
             | Some trackInfo =>
                 Eff.ret (createResponse None
                            [newTrack trackInfo [] (requestedBy context) "arbitrary" None])
             end
         end
     else
       let* trackInfo := getBasicInfo E url (ytdlpPath this) in
       Eff.ret (createResponse None
                  [newTrack trackInfo [] (requestedBy context) "arbitrary" None]))
    (fun error => Eff.throw error).

Definition handleSearchQuery (query : string) (context : Context) : M ExtractorInfo :=
  Eff.try_catch
    (if negb (enableYouTubeSearch this) then Eff.throw "YouTube search is disabled"
     else
       let* searchResults := searchYouTube E query 1 (youtubeiOptions this) in
       match searchResults with
       | [] => Eff.ret (createResponse None [])
       | result :: _ =>
           Eff.ret (createResponse None
                      [newTrack result
                         [("originalQuery", Str query); ("searchMethod", Str "youtubei")]
                         (requestedBy context) "youtubeSearch" None])
       end)
    (fun _ => Eff.ret (createResponse None [])).

Definition handle (query : string) (context : Context) : M ExtractorInfo :=
  Eff.try_catch
    (if isValidUrl E (Str query) then handleDirectUrl query context
     else handleSearchQuery query context)
    (fun _ => Eff.ret (createResponse None [])).

Definition stream (info : Track.t) : M string :=
  Eff.try_catch
    (let url := Js.or (Track.url info) (t_url (Track.raw info)) in
     if negb (Js.truthy url) then Eff.throw "No URL found in track info"
     else
       let* streamUrl :=
         getStreamingUrl E url (ytdlpPath this) (streamQuality this) cookiesOrNull in
       if String.eqb streamUrl EmptyString || negb (JsString.startsWith "http" streamUrl)
       then Eff.throw "Invalid streaming URL returned"
       else Eff.ret streamUrl)
    (fun error => Eff.throw error).

(** [historyUrls.has(u)]: the comparison of a [Set], which also
    finds [NaN] *)
Definition sameValueZero (a b : jsv) : bool :=
  match a, b with
  | NaN, NaN => true
  | _, _ => Js.strict_eq a b
  end.

Definition getRelatedTracks (track : Track.t) (history : list Track.t) : M ExtractorInfo :=
  Eff.try_catch
    (if negb (isYouTubeUrl (Track.url track)) then Eff.ret (createResponse None [])
     else
       let* videoId := Eff.lift (extractYouTubeId (Track.url track)) in
       match videoId with
       | None => Eff.ret (createResponse None [])
       | Some videoId =>
           let* relatedTracks := getRelatedTracks E videoId (youtubeiOptions this) 10 in
           let* relatedTracks :=
             if (length relatedTracks =? 0)%nat then
               if Js.truthy (Track.author track)
                  && negb (Js.strict_eq (Track.author track) (Str "Unknown Artist"))
               then
                 let searchQuery := Js.to_string (Track.author track) +:+ " music" in
                 searchYouTube E searchQuery 5 (youtubeiOptions this)
               else Eff.ret relatedTracks
             else Eff.ret relatedTracks in
           let historyUrls := map Track.url history in
           let filteredTracks :=
             List.filter
               (fun trackData =>
                  negb (existsb (sameValueZero (t_url trackData)) historyUrls)
                  && negb (Js.strict_eq (t_url trackData) (Track.url track)))
               relatedTracks in
           if (length filteredTracks =? 0)%nat then Eff.ret (createResponse None [])
           else
             let tracks :=
               map (fun trackData =>
                      newTrack trackData
                        [("relatedTo", Track.url track); ("autoplay", Bool true)]
                        (Track.requestedBy track) "autoplay" None)
                   (take 5 filteredTracks) in
             Eff.ret (createResponse None tracks)
       end)
    (fun _ => Eff.ret (createResponse None [])).

(** [static identifier], which the instance reads through the getter
    of its base class *)
Definition identifier : string := "ytdlp-extractor".

Definition activate : M unit :=
  let* found := existsSync (ytdlpPath this) in
  if negb found then Eff.throw ("yt-dlp binary not found at: " +:+ ytdlpPath this)
  else Eff.ret tt.

Definition validate (query : string) (type : jsv) : M bool :=
  Eff.try_catch
    (if isValidUrl E (Str query) then
       if negb (enableDirectUrls this) then Eff.ret false
       else if isYouTubeUrl (Str query) && enableYouTubeSearch this then Eff.ret true
       else canExtract E query (ytdlpPath this)
     else if enableYouTubeSearch this then Eff.ret true
     else Eff.ret false)
    (fun _ => Eff.ret false).

(** [bridge(track, sourceExtractor)]; the second argument is
    [sourceExtractor?.identifier].  The result is the [stream] of the
    object returned, its [type] being the constant ['arbitrary'], or
    [None] for [null]. *)
Definition bridge (track : Track.t) (sourceIdentifier : jsv) : M (option string) :=
  Eff.try_catch
    (if negb (Js.strict_eq sourceIdentifier (Str identifier)) then
       let* streamUrl := stream track in
       Eff.ret (Some streamUrl)
     else Eff.ret None)
    (fun _ => Eff.ret None).

Definition createBridgeQuery (track : Track.t) : string :=
  Js.to_string (Track.author track) +:+ " - " +:+ Js.to_string (Track.title track).

End Methods.

End YtDlpExtractor.

(** ** Definitions used to state the properties *)

(** A number below 100 written with exactly two decimal digits *)
Definition digit (d : Z) : ascii := ascii_of_nat (48 + Z.to_nat d).
Definition two_digits (n : Z) : string :=
  String (digit (n / 10)) (String (digit (n mod 10)) EmptyString).

(** An entry of a playlist resolves when the callback of the batch
    gives a track for it. *)
Definition resolved (video : jsv) : option TrackInfo :=
  match entryTrack video with
  | Ok (Some t) => Some t
  | _ => None
  end.

(** How often a session was created, and how often one was signed out *)
Definition creations (t : list event) : nat :=
  length (List.filter (fun e => match e with Create _ => true | _ => false end) t).

Definition signOuts (t : list event) : nat :=
  length (List.filter (fun e => match e with SignOut _ => true | _ => false end) t).

(** [n] calls of [initializeYouTube] in a row: the sessions they
    return and the world they leave *)
Fixpoint initializeTimes (E : Env) (options : yt_options) (n : nat) (w : World)
  : list (outcome (option nat)) * World :=
  match n with
  | O => ([], w)
  | S n' =>
      let (r, w1) := initializeYouTube E options w in
      let (rs, w2) := initializeTimes E options n' w1 in
      (r :: rs, w2)
  end.

(** ** Concrete platforms for the examples *)

Module Demo.

Definition scheme_char (a : ascii) : bool := alnum a || one_of "+-." a.

Fixpoint scan (acc : string) (s : string) : option URL :=
  match s with
  | EmptyString => None
  | String a s' =>
      if Ascii.eqb a ":" then Some {| scheme := JsString.toLowerCase (String.rev acc) |}
      else if scheme_char a then scan (String a acc) s'
      else None
  end.

(** A stand-in for the [URL] constructor of the platform: it reads
    the scheme as the URL standard does (a letter, then letters,
    digits, [+], [-] and [.], up to the colon, lower-cased) and takes
    whatever follows. *)
Definition parse_URL (s : string) : option URL :=
  match s with
  | String a _ => if alnum a && negb (Js.is_digit a) then scan EmptyString s else None
  | EmptyString => None
  end.

(** A platform on which every request to the outside fails; the
    examples replace the answers they are about. *)
Definition failing : Env :=
  {| dirname := "/app";
     new_URL := parse_URL;
     JSON_parse := fun _ => None;
     execAsync := fun _ _ => Failed "Command failed";
     Innertube_create := fun _ _ => false;
     yt_search := fun _ _ _ => Settled (Rejected "search failed");
     yt_getInfo := fun _ _ _ => Rejected "This video is unavailable";
     yt_getPlaylist := fun _ _ _ => Settled (Rejected "The playlist was not found") |}.

(** The same platform with a metadata backend that accepts every
    credential *)
Definition connected : Env :=
  {| dirname := dirname failing;
     new_URL := parse_URL;
     JSON_parse := JSON_parse failing;
     execAsync := execAsync failing;
     Innertube_create := fun _ _ => true;
     yt_search := yt_search failing;
     yt_getInfo := yt_getInfo failing;
     yt_getPlaylist := yt_getPlaylist failing |}.

Definition binary : string := "/usr/bin/yt-dlp".

(** The world when the module is loaded, with yt-dlp installed *)
Definition startup : World :=
  {| files := {[ binary := "ELF" ]};
     innertube := None;
     lastCookies := Null;
     trace := [] |}.

Definition extractor (c : jsv) : YtDlpExtractor.t :=
  {| YtDlpExtractor.ytdlpPath := binary;
     YtDlpExtractor.enableYouTubeSearch := true;
     YtDlpExtractor.enableDirectUrls := true;
     YtDlpExtractor.streamQuality := "bestaudio[ext=m4a]/bestaudio[ext=webm]/bestaudio";
     YtDlpExtractor.youtubeiOptions := {| cookies := c; client := Null |} |}.

Definition context : Context := {| requestedBy := Str "user" |}.

End Demo.

(** The commands sent to the external extractor *)
Definition execs (t : list event) : list string :=
  omap (fun e => match e with Exec c => Some c | _ => None end) t.

(** The command line of [getStreamingUrl] *)
Definition streamCommand (E : Env) (url : jsv) (ytdlpPath quality : string) (cookies : jsv)
  : string :=
  commandLine ytdlpPath
    (streamArgs quality ++
     if usableCookieString cookies then ["--cookies"; inDirname E "temp_cookies.txt"] else [])
    (Js.to_string url).

(** What one answer of the external extractor makes of a call of
    [getStreamingUrl] *)
Definition streamResult (r : exec_result) : outcome string :=
  match r with
  | Failed e => Throw e
  | Exited stdout stderr =>
      if negb (String.eqb stderr EmptyString) && String.eqb stdout EmptyString
      then Throw ("yt-dlp error: " +:+ stderr)
      else if String.eqb (JsString.trim stdout) EmptyString
              || negb (JsString.startsWith "http" (JsString.trim stdout))
      then Throw "Invalid streaming URL returned"
      else Ok (JsString.trim stdout)
  end.

(** The files a call of [getStreamingUrl] leaves *)
Definition filesAfterStream (E : Env) (cookies : jsv) (r : exec_result)
    (fs : gmap string string) : gmap string string :=
  let temp := inDirname E "temp_cookies.txt" in
  let written :=
    match cookies with
    | Str c => if usableCookieString cookies
               then <[temp := Js.to_string (convertToNetscapeFormat cookies)]> fs else fs
    | _ => fs
    end in
  match r with
  | Exited _ _ => if Js.truthy cookies then delete temp written else written
  | Failed _ => written
  end.

(** The platform of the examples whose metadata backend knows one
    playlist without entries, and a video with a feed of [n]
    recommendations *)
Module Backend.

Definition emptyPlaylist : jsv :=
  Obj 1 [("info", Obj 2 [("title", Str "Empty list")]); ("videos", Arr 3 [])].

Definition compactVideo (i : nat) : jsv :=
  Obj (100 + i)
    [("type", Str "CompactVideo");
     ("id", Str ("video" +:+ JsString.of_Z (Z.of_nat i)));
     ("title", Obj (200 + i) [("text", Str "Recommended")])].

Definition seedVideo (n : nat) : jsv :=
  Obj 4
    [("basic_info", Obj 5 [("title", Str "Seed"); ("author", Str "Artist")]);
     ("watch_next_feed", Arr 6 (map compactVideo (seq 0 n)))].

Definition env : Env :=
  {| dirname := dirname Demo.connected;
     new_URL := new_URL Demo.connected;
     JSON_parse := JSON_parse Demo.connected;
     execAsync := execAsync Demo.connected;
     Innertube_create := Innertube_create Demo.connected;
     yt_search := yt_search Demo.connected;
     yt_getInfo := fun _ _ _ => Resolved (seedVideo 25);
     yt_getPlaylist := fun _ _ _ => Settled (Resolved emptyPlaylist) |}.

End Backend.

(** The world after one more request *)
Definition add_event (e : event) (w : World) : World :=
  {| files := files w; innertube := innertube w; lastCookies := lastCookies w;
     trace := trace w ++ [e] |}.

(** The queries sent to the search of the metadata backend *)
Definition searches (t : list event) : list string :=
  omap (fun e => match e with Search _ q => Some q | _ => None end) t.

(** The condition of the search-based fallback of related tracks:
    the author is present and is not the sentinel. *)
Definition authorKnown (track : Track.t) : bool :=
  Js.truthy (Track.author track)
  && negb (Js.strict_eq (Track.author track) (Str "Unknown Artist")).

(** A computation keeps a relation between the world it starts in and
    the world it leaves. *)
Definition keeps (R : World -> World -> Prop) {A : Type} (m : M A) : Prop :=
  forall w : World, R w (m w).2.

Definition sameSearches (w w' : World) : Prop :=
  searches (trace w') = searches (trace w).

Definition sameWorld (w w' : World) : Prop := w' = w.

(** Tracks of the examples: a video of the recognized site by a named
    artist, and the same video without a known author *)
Module Seed.
Definition info (author : jsv) : TrackInfo :=
  {| t_id := Str "dQw4w9WgXcQ"; t_title := Str "Song"; t_duration := Str "3:33";
     t_thumbnail := Null; t_url := Str "https://www.youtube.com/watch?v=dQw4w9WgXcQ";
     t_author := author; t_views := Undef; t_description := Undef |}.
Definition track (author : jsv) : Track.t :=
  YtDlpExtractor.newTrack (info author) [] (Str "user") "arbitrary" None.
End Seed.

(** A platform whose external extractor prints a different streaming
    URL at every request *)
Module Streaming.
Definition env : Env :=
  {| dirname := dirname Demo.connected;
     new_URL := new_URL Demo.connected;
     JSON_parse := JSON_parse Demo.connected;
     execAsync :=
       fun moment _ =>
         Exited ("https://cdn.example/audio?n=" +:+ JsString.of_Z (Z.of_nat moment) +:+ nl)
                EmptyString;
     Innertube_create := Innertube_create Demo.connected;
     yt_search := yt_search Demo.connected;
     yt_getInfo := yt_getInfo Demo.connected;
     yt_getPlaylist := yt_getPlaylist Demo.connected |}.
End Streaming.

(** Ten playlist entries of which the fourth has no id *)
Module Batch.
Definition entry (i : nat) : jsv :=
  Obj i [("id", Str ("video" +:+ JsString.of_Z (Z.of_nat i))); ("title", Str "Title")].
Definition broken : jsv := Obj 3 [("title", Str "Deleted video")].
Definition before : list jsv := map entry [0; 1; 2]%nat.
Definition after : list jsv := map entry [4; 5; 6; 7; 8; 9]%nat.
Definition videos : list jsv := before ++ broken :: after.
End Batch.

(** Every character of a string satisfies a test *)
Fixpoint string_forall (p : ascii -> bool) (s : string) : bool :=
  match s with
  | EmptyString => true
  | String a s' => p a && string_forall p s'
  end.

(** The characters of a video identifier, as the pattern of
    [extractYouTubeId] takes them, and those of a playlist identifier *)
Definition videoIdChar (a : ascii) : bool :=
  negb (Ascii.eqb a (ascii_of_nat 34) || one_of "&?/" a || JsString.is_white a).

Definition playlistIdChar (a : ascii) : bool := alnum a || one_of "_-" a.

(** A track value carries its sentinels: title, author and duration
    are never falsy, and the thumbnail is a value or [null]. *)
Definition filled (title author duration thumbnail : jsv) : Prop :=
  Js.truthy title = true /\ Js.truthy author = true /\ Js.truthy duration = true /\
  (Js.truthy thumbnail = true \/ thumbnail = Null).

Definition wellFormed (t : TrackInfo) : Prop :=
  filled (t_title t) (t_author t) (t_duration t) (t_thumbnail t) /\
  t_url t = watch_url (t_id t).

(** The probe of [canExtract] and what its answer means *)
Definition probeCommand (url ytdlpPath : string) : string :=
  dq +:+ ytdlpPath +:+ dq +:+ " --simulate --quiet " +:+ dq +:+ url +:+ dq.

Definition exited (r : exec_result) : bool :=
  match r with Exited _ _ => true | Failed _ => false end.

(** A related track the extractor may return for a seed and a
    history *)
Definition fresh (track : Track.t) (history : list Track.t) (t : Track.t) : Prop :=
  existsb (YtDlpExtractor.sameValueZero (Track.url t)) (map Track.url history) = false /\
  Js.strict_eq (Track.url t) (Track.url track) = false /\
  Track.queryType t = "autoplay".

(** A platform whose search lists one video and one [null] *)
Module Listing.
Definition results : jsv := Obj 1 [("videos", Arr 2 [Backend.compactVideo 0; Null])].
Definition env : Env :=
  {| dirname := dirname Demo.connected;
     new_URL := new_URL Demo.connected;
     JSON_parse := JSON_parse Demo.connected;
     execAsync := execAsync Demo.connected;
     Innertube_create := Innertube_create Demo.connected;
     yt_search := fun _ _ _ => Settled (Resolved results);
     yt_getInfo := yt_getInfo Demo.connected;
     yt_getPlaylist := yt_getPlaylist Demo.connected |}.
End Listing.

(** A platform whose playlist requests never settle in time, and one
    that lists the entries of a playlist under [items] *)
Module Slow.
Definition env : Env :=
  {| dirname := dirname Demo.connected;
     new_URL := new_URL Demo.connected;
     JSON_parse := JSON_parse Demo.connected;
     execAsync := execAsync Demo.connected;
     Innertube_create := Innertube_create Demo.connected;
     yt_search := yt_search Demo.connected;
     yt_getInfo := yt_getInfo Demo.connected;
     yt_getPlaylist := fun _ _ _ => Pending |}.
End Slow.

Module Items.
Definition playlist : jsv :=
  Obj 1 [("title", Obj 2 [("text", Str "Listed under items")]);
         ("items", Arr 3 Batch.videos)].
Definition env : Env :=
  {| dirname := dirname Demo.connected;
     new_URL := new_URL Demo.connected;
     JSON_parse := JSON_parse Demo.connected;
     execAsync := execAsync Demo.connected;
     Innertube_create := Innertube_create Demo.connected;
     yt_search := yt_search Demo.connected;
     yt_getInfo := yt_getInfo Demo.connected;
     yt_getPlaylist := fun _ _ _ => Settled (Resolved playlist) |}.
End Items.

(** The two shapes of a playlist entry: nested objects with the id
    under [id], and flat values with the id under [video_id] *)
Definition nestedEntry (r : nat) (id title author duration : string) : jsv :=
  Obj r [("id", Str id);
         ("title", Obj (r + 1) [("text", Str title)]);
         ("author", Obj (r + 2) [("name", Str author)]);
         ("duration", Obj (r + 3) [("text", Str duration)])].

Definition flatEntry (r : nat) (id title author duration : string) : jsv :=
  Obj r [("video_id", Str id);
         ("title", Str title);
         ("channel", Obj (r + 1) [("name", Str author)]);
         ("duration", Str duration)].

(** A platform whose metadata backend accepts one credential only *)
Module Picky.
Definition env : Env :=
  {| dirname := dirname Demo.connected;
     new_URL := new_URL Demo.connected;
     JSON_parse := JSON_parse Demo.connected;
     execAsync := execAsync Demo.connected;
     Innertube_create := fun _ o => Js.strict_eq (cookie o) (Str "SID=good");
     yt_search := yt_search Demo.connected;
     yt_getInfo := yt_getInfo Demo.connected;
     yt_getPlaylist := yt_getPlaylist Demo.connected |}.
End Picky.

(** Patterns without iteration *)
Fixpoint iteration_free (r : regex) : bool :=
  match r with
  | Class _ | Lit _ => true
  | Seq r1 r2 | Alt r1 r2 => iteration_free r1 && iteration_free r2
  | Opt r1 => iteration_free r1
  | Star _ | Rep _ _ => false
  end.

(** The three ways in which the pattern of [extractYouTubeId] reaches
    the identifier after the host name [youtube.com/]: a path of two
    segments, [v/], [e/] or [embed/], and a query parameter [v] *)
Definition pathBranch : regex :=
  Seq (Plus (Class (fun a => negb (one_of "/" a))))
      (Seq (Lit "/") (Seq (Plus (Class dot)) (Lit "/"))).

Definition embedBranch : regex :=
  Seq (Alt (Lit "v") (Seq (Lit "e") (Opt (Lit "mbed")))) (Lit "/").

Definition queryBranch : regex :=
  Seq (Star (Class dot)) (Seq (Class (one_of "?&")) (Lit "v=")).

(** The number of [/] in a text *)
Fixpoint slashes (s : string) : nat :=
  match s with
  | EmptyString => O
  | String a s' => (if Ascii.eqb a "/" then 1 else 0) + slashes s'
  end.


(** The text that [convertToNetscapeFormat] begins with, the line it
    writes for one cookie, and a cookie header assembled from pairs of a
    name and a value.  A pair is plain when the name and the value are
    not empty, have no white space around them and no [;], and the name
    has no [=]. *)
Definition netscapeHeader : string :=
  "# Netscape HTTP Cookie File" +:+ nl
  +:+ "# This is a generated file! Do not edit." +:+ nl +:+ nl.

Definition cookieLine (name value : string) : string :=
  ".youtube.com" +:+ tab +:+ "TRUE" +:+ tab +:+ "/" +:+ tab
  +:+ (if JsString.includes "Secure" name then "TRUE" else "FALSE") +:+ tab
  +:+ "0" +:+ tab +:+ name +:+ tab +:+ value +:+ nl.

Fixpoint cookieLines (cs : list (string * string)) : string :=
  match cs with
  | [] => EmptyString
  | c :: cs' => cookieLine c.1 c.2 +:+ cookieLines cs'
  end.

Definition cookiePair (c : string * string) : string := c.1 +:+ "=" +:+ c.2.

Definition plainCookie (c : string * string) : bool :=
  negb (String.eqb c.1 EmptyString) && negb (String.eqb c.2 EmptyString)
  && String.eqb (JsString.trim c.1) c.1 && String.eqb (JsString.trim c.2) c.2
  && negb (JsString.includes "=" c.1)
  && negb (JsString.includes ";" c.1) && negb (JsString.includes ";" c.2).


(** A response of the extractor is coherent when its tracks name this
    extractor as their source, and either it has no playlist and at
    most one track, none of them in a playlist, or it has a playlist
    that owns exactly the tracks of the response, at least one, each of
    them marked with the identifier of that playlist. *)
Definition ownTrack (pl : option string) (t : Track.t) : Prop :=
  Track.source t = "ytdlp-extractor" /\ Track.playlist t = pl.

Definition coherent (r : ExtractorInfo) : Prop :=
  match playlist r with
  | None => (length (tracks r) <= 1)%nat /\ Forall (ownTrack None) (tracks r)
  | Some p =>
      Playlist.tracks p = tracks r /\ tracks r <> [] /\
      Forall (ownTrack (Some (Playlist.id p))) (tracks r)
  end.


(** The command of [getYouTubeMetadataWithYtDlp], and what a call
    that writes a cookie jar does to the world: one process is started,
    the jar is gone when the process exited and holds the converted
    cookies when it failed, and no other file is touched. *)
Definition metadataCommand (E : Env) (videoId ytdlpPath : string) (cookies : jsv) : string :=
  commandLine ytdlpPath
    (["-J"; "--no-playlist"; "--no-warnings"; "--no-check-certificates";
      "--socket-timeout"; "10"; "--retries"; "2"] ++
     match cookies with
     | Str c => if Js.truthy cookies
                then ["--cookies"; inDirname E "temp_cookies_metadata.txt"] else []
     | _ => []
     end)
    ("https://www.youtube.com/watch?v=" +:+ videoId).

Definition jarLifecycle (jar content command : string) (answer : exec_result)
    (w after : World) : Prop :=
  trace after = trace w ++ [Exec command] /\
  files after !! jar = (if exited answer then None else Some content) /\
  (forall path : string, path <> jar -> files after !! path = files w !! path).


(** * Properties *)

(** *** Rounding *)

Lemma floor_halve (fuel : nat) :
  forall (n : Z) (k : N), F64.floor (F64.halve fuel n k) = F64.fin (n / F64.pow2 k) 0.
Proof.
  induction fuel as [|fuel IH]; intros n k; cbn [F64.halve]; [reflexivity|].
  destruct ((0 <? k)%N && Z.even n) eqn:H; [|reflexivity].
  apply andb_true_iff in H as [Hk He]. apply N.ltb_lt in Hk.
  rewrite IH. f_equal. unfold F64.pow2.
  replace (Z.of_N k) with (Z.of_N (N.pred k) + 1) by lia.
  rewrite Z.pow_add_r, Z.pow_1_r by lia.
  rewrite Z.div_div by lia. f_equal. lia.
Qed.

Lemma floor_norm (n : Z) (k : N) :
  F64.floor (F64.norm n k) = F64.fin (n / F64.pow2 k) 0.
Proof.
  unfold F64.norm. destruct (Z.eqb_spec n 0) as [->|_]; [|apply floor_halve].
  cbn [F64.floor]. by rewrite !Zdiv_0_l.
Qed.

Lemma pow2_pos (k : N) : 0 < F64.pow2 k.
Proof. unfold F64.pow2. apply Z.pow_pos_nonneg; lia. Qed.

(** A canonical form is a form of the same number, with a numerator
    that is not larger. *)
Lemma halve_form (fuel : nat) :
  forall (n : Z) (k : N),
    0 <= n ->
    exists n' k', F64.halve fuel n k = F64.fin n' k' /\
                  0 <= n' <= n /\ n' * F64.pow2 k = n * F64.pow2 k'.
Proof.
  induction fuel as [|fuel IH]; intros n k Hn; cbn [F64.halve].
  { exists n, k. repeat split; lia. }
  destruct ((0 <? k)%N && Z.even n) eqn:H.
  - apply andb_true_iff in H as [Hk He]. apply N.ltb_lt in Hk.
    apply Z.even_spec in He as [h ->].
    rewrite Z.mul_comm, Z.div_mul by lia.
    destruct (IH h (N.pred k) ltac:(lia)) as (n' & k' & -> & Hb & Hv).
    exists n', k'. repeat split; try lia.
    unfold F64.pow2 in *.
    replace (Z.of_N k) with (Z.of_N (N.pred k) + 1) by lia.
    rewrite Z.pow_add_r, Z.pow_1_r by lia. nia.
  - exists n, k. repeat split; lia.
Qed.

Lemma norm_form (n : Z) (k : N) :
  0 <= n ->
  exists n' k', F64.norm n k = F64.fin n' k' /\
                0 <= n' <= n /\ n' * F64.pow2 k = n * F64.pow2 k'.
Proof.
  intros Hn. unfold F64.norm. destruct (Z.eqb_spec n 0) as [->|_].
  - exists 0, 0%N. repeat split; lia.
  - by apply halve_form.
Qed.

Lemma rne_bounds (a b : Z) :
  0 < b ->
  a / b <= F64.rne a b <= a / b + 1 /\ (F64.rne a b = a / b + 1 -> b <= 2 * (a mod b)).
Proof.
  intros Hb. unfold F64.rne.
  destruct (Z.compare_spec (2 * (a mod b)) b) as [H|H|H].
  - destruct (Z.even (a / b)); lia.
  - lia.
  - lia.
Qed.

Lemma floor_log2_near (p q : Z) :
  F64.floor_log2 p q = Z.log2 p - Z.log2 q \/
  F64.floor_log2 p q = Z.log2 p - Z.log2 q - 1.
Proof.
  unfold F64.floor_log2. destruct (0 <=? Z.log2 p - Z.log2 q);
    match goal with |- context [if ?b then _ else _] => destruct b end; auto.
Qed.

(** The quotient of a double below [2^53] by a positive integer is
    rounded, but never up to the next integer: rounding the quotient
    down gives the integer quotient. *)
Lemma floor_round (n c : Z) (k : N) :
  0 < n < 2 ^ 53 -> 0 < c ->
  F64.floor (F64.round n (c * F64.pow2 k)) = F64.fin (n / (c * F64.pow2 k)) 0.
Proof.
  intros Hn Hc.
  pose proof (pow2_pos k) as Hk.
  assert (Hq : 0 < c * F64.pow2 k) by lia.
  assert (Hlq : Z.log2 (c * F64.pow2 k) = Z.of_N k + Z.log2 c).
  { unfold F64.pow2. apply Z.log2_mul_pow2; lia. }
  assert (Hlp : 0 <= Z.log2 n <= 52).
  { split; [apply Z.log2_nonneg|]. apply Z.lt_succ_r. apply Z.log2_lt_pow2; lia. }
  pose proof (Z.log2_nonneg c) as Ha0.
  destruct (Z.log2_spec c Hc) as [_ Hcu].
  destruct (Z.log2_spec n ltac:(lia)) as [_ Hnu].
  destruct (Z.log2_spec (c * F64.pow2 k) Hq) as [Hql _].
  unfold F64.round. set (q := c * F64.pow2 k) in *.
  set (l := F64.floor_log2 n q).
  assert (Hl : l = Z.log2 n - Z.log2 q \/ l = Z.log2 n - Z.log2 q - 1)
    by apply floor_log2_near.
  destruct (Z.leb_spec 0 (Z.max (l - 52) (-1074))) as [Hs|Hs].
  - assert (Hk0 : k = 0%N) by lia. assert (Hc0 : Z.log2 c = 0) by lia.
    assert (Hmax : Z.max (l - 52) (-1074) = 0) by lia.
    rewrite Hmax. subst k. rewrite Hc0 in Hcu. change (2 ^ Z.succ 0) with 2 in Hcu.
    assert (c = 1) by lia. subst c. subst q.
    change (1 * F64.pow2 0) with 1. change (2 ^ 0) with 1. rewrite !Z.mul_1_r.
    unfold F64.rne. rewrite Z.div_1_r, Z.mod_1_r. change (2 * 0 ?= 1) with Lt.
    cbv beta iota zeta.
    assert (Hsmall : (2 ^ 1024 <=? n) = false).
    { apply Z.leb_gt. assert (2 ^ 53 < 2 ^ 1024) by (apply Z.pow_lt_mono_r; lia). lia. }
    rewrite Hsmall. cbn [F64.floor]. change (F64.pow2 0) with 1.
    rewrite ?Z.div_1_r. reflexivity.
  - rewrite floor_norm. f_equal.
    set (s := Z.max (l - 52) (-1074)) in *.
    unfold F64.pow2 at 1. rewrite Z2N.id by lia.
    set (T := 2 ^ (- s)).
    assert (HT : 0 < T) by (apply Z.pow_pos_nonneg; lia).
    set (A := n * T).
    pose proof (Z.div_mod n q ltac:(lia)) as HK.
    pose proof (Z.mod_pos_bound n q Hq) as HR.
    pose proof (Z.div_mod A q ltac:(lia)) as Ha.
    pose proof (Z.mod_pos_bound A q Hq) as Hr.
    destruct (rne_bounds A q Hq) as [Hm Hup].
    set (K := n / q) in *. set (R := n mod q) in *.
    set (a0 := A / q) in *. set (r := A mod q) in *.
    set (m := F64.rne A q) in *.
    assert (HA : A = q * (K * T) + R * T) by (subst A; nia).
    assert (Hlow : K * T <= a0) by nia.
    assert (Hhigh : a0 < (K + 1) * T) by nia.
    assert (HK0 : 0 <= K) by (subst K; apply Z.div_pos; lia).
    assert (Hupper : m < (K + 1) * T).
    { destruct (Z.eq_dec m (a0 + 1)) as [Hm1|Hm1]; [|lia].
      specialize (Hup Hm1).
      destruct (Z_lt_le_dec (l - 52) (-1074)) as [Hsub|Hsub].
      - assert (Hs' : s = -1074) by (subst s; lia).
        assert (HT' : T = 2 ^ 1074) by (subst T; rewrite Hs'; reflexivity).
        assert (Hlq' : Z.log2 n + 1022 <= Z.log2 q) by lia.
        assert (Hq' : 2 ^ (Z.log2 n + 1022) <= q).
        { etransitivity; [|exact Hql]. apply Z.pow_le_mono_r; lia. }
        assert (Hsplit : 2 ^ Z.succ (Z.log2 n) * 2 ^ 1074
                         = 2 ^ (Z.log2 n + 1022) * 2 ^ 53).
        { rewrite <- !Z.pow_add_r by lia. f_equal. lia. }
        assert (Hp : 0 < 2 ^ (Z.log2 n + 1022)) by (apply Z.pow_pos_nonneg; lia).
        assert (Ha53 : a0 < 2 ^ 53) by nia.
        assert (H53 : 2 ^ 53 < 2 ^ 1074) by (apply Z.pow_lt_mono_r; lia).
        nia.
      - assert (Hs' : - s = 52 - l) by (subst s; lia).
        assert (Hj : Z.of_N k + Z.log2 c <= - s) by lia.
        assert (HT' : 2 ^ (Z.of_N k + Z.log2 c) <= T).
        { subst T. apply Z.pow_le_mono_r; lia. }
        assert (Hq2 : q < 2 * 2 ^ (Z.of_N k + Z.log2 c)).
        { subst q. unfold F64.pow2. rewrite Z.pow_add_r by lia.
          rewrite Z.pow_succ_r in Hcu by lia.
          assert (0 < 2 ^ Z.of_N k) by (apply Z.pow_pos_nonneg; lia). nia. }
        destruct (Z_lt_le_dec (a0 + 1) ((K + 1) * T)) as [|Hge]; [lia|].
        exfalso. assert (Hlast : a0 = (K + 1) * T - 1) by lia.
        assert (Hrr : r = q - (q - R) * T) by nia.
        assert (1 <= q - R) by lia. nia. }
    symmetry. apply Z.div_unique with (r := m - K * T); lia.
Qed.

(** [Math.floor(x / c)] for a double [x] below [2^53], in any of its
    forms *)
Lemma floor_div (n c : Z) (k : N) :
  0 <= n < 2 ^ 53 -> 0 < c ->
  F64.floor (F64.div (F64.fin n k) c) = F64.fin (n / (c * F64.pow2 k)) 0.
Proof.
  intros Hn Hc. cbn [F64.div]. unfold F64.of_ratio.
  destruct (Z.eqb_spec n 0) as [->|Hn0].
  - cbn [F64.floor]. by rewrite !Zdiv_0_l.
  - destruct (Z.ltb_spec n 0); [lia|]. apply floor_round; lia.
Qed.

Lemma floor_div_norm (n c : Z) (k : N) :
  0 <= n < 2 ^ 53 -> 0 < c ->
  F64.floor (F64.div (F64.norm n k) c) = F64.fin (n / (c * F64.pow2 k)) 0.
Proof.
  intros Hn Hc. destruct (norm_form n k ltac:(lia)) as (n' & k' & -> & Hb & Hv).
  rewrite floor_div by lia. f_equal.
  pose proof (pow2_pos k). pose proof (pow2_pos k').
  rewrite <- (Z.div_mul_cancel_r n' (c * F64.pow2 k') (F64.pow2 k)) by lia.
  rewrite <- (Z.div_mul_cancel_r n (c * F64.pow2 k) (F64.pow2 k')) by lia.
  f_equal; lia.
Qed.

(** The seconds of a positive double below [2^53] *)
Lemma whole_seconds (n c : Z) (k : N) :
  0 <= n -> 0 < c ->
  Z.rem n (c * F64.pow2 k) / F64.pow2 k = (n / F64.pow2 k) mod c.
Proof.
  intros Hn Hc. pose proof (pow2_pos k) as Hk.
  rewrite Z.rem_mod_nonneg by lia.
  rewrite (Z.mul_comm c), Z.rem_mul_r by lia.
  rewrite Z.mul_comm, Z.div_add by lia.
  rewrite Z.div_small by (apply Z.mod_pos_bound; lia). reflexivity.
Qed.

Lemma print_whole (z : Z) : 0 <= z < 2 ^ 53 -> F64.to_string (F64.fin z 0) = JsString.of_Z z.
Proof.
  intros Hz. cbn [F64.to_string]. destruct (Z.eqb_spec z 0) as [->|Hz0]; [reflexivity|].
  destruct (Z.ltb_spec z 0); [lia|]. unfold F64.print_pos. cbn [N.eqb andb].
  destruct (Z.ltb_spec z (2 ^ 53)); [reflexivity|lia].
Qed.

(** ** Duration formatting *)

Lemma append_cons (a : ascii) (s t : string) : String a s +:+ t = String a (s +:+ t).
Proof. reflexivity. Qed.

Lemma includes_colon (a b : string) : JsString.includes ":" (a +:+ ":" +:+ b) = true.
Proof.
  induction a as [|c a IH].
  - reflexivity.
  - rewrite append_cons. cbn [JsString.includes]. rewrite IH. apply orb_true_r.
Qed.

Lemma colon_not_Unknown (a b : string) : a +:+ ":" +:+ b <> "Unknown".
Proof.
  intros H. pose proof (includes_colon a b) as Hc. rewrite H in Hc. discriminate Hc.
Qed.

Lemma pad2_two_digits (n : Z) : 0 <= n < 60 -> pad2 (F64.fin n 0) = two_digits n.
Proof.
  intros Hn.
  assert (Hk : exists k : nat, (k < 60)%nat /\ n = Z.of_nat k).
  { exists (Z.to_nat n). lia. }
  destruct Hk as (k & Hk & ->). clear Hn.
  do 60 (destruct k as [|k]; [vm_compute; reflexivity|]). lia.
Qed.

(** A value that converts to a number other than zero is truthy. *)
Lemma number_is_truthy (v : jsv) (n : Z) (k : N) :
  Coerce.to_number v = Ok (F64.fin n k) -> n <> 0 -> Js.truthy v = true.
Proof.
  destruct v as [| |[|]| |z|s| | | |m j]; cbn [Coerce.to_number Js.truthy];
    try discriminate; try reflexivity.
  - intros [= <- _] H. lia.
  - intros [= <- _] H. lia.
  - intros [= <- _] H. by apply Z.eqb_neq in H as ->.
  - intros H Hn. destruct s; [|reflexivity]. vm_compute in H.
    injection H as <- _. lia.
  - intros [= <- _] H. by apply Z.eqb_neq in H as ->.
Qed.

(** [formatDuration] on a positive double below [2^53]: the fields
    are those of its whole seconds. *)
Lemma formatDuration_whole (v : jsv) (n : Z) (k : N) :
  Coerce.to_number v = Ok (F64.fin n k) -> 0 < n < 2 ^ 53 ->
  let s := n / 2 ^ Z.of_N k in
  formatDuration v =
    Ok (if 0 <? s / 3600
        then JsString.of_Z (s / 3600) +:+ ":" +:+ two_digits (s mod 3600 / 60)
             +:+ ":" +:+ two_digits (s mod 60)
        else JsString.of_Z (s mod 3600 / 60) +:+ ":" +:+ two_digits (s mod 60)).
Proof.
  intros Hv Hn s. unfold formatDuration.
  rewrite (number_is_truthy v n k Hv) by lia. cbn [negb]. rewrite Hv.
  cbn [Pure.bind F64.is_nan F64.rem].
  pose proof (pow2_pos k) as Hk.
  assert (Hs : 0 <= s) by (apply Z.div_pos; [lia|apply Hk]).
  assert (Hs53 : s < 2 ^ 53).
  { apply Z.div_lt_upper_bound; [apply Hk|]. fold (F64.pow2 k). nia. }
  assert (Hr : forall c, 0 < c -> 0 <= Z.rem n (c * F64.pow2 k) < 2 ^ 53).
  { intros c Hc. rewrite Z.rem_mod_nonneg by lia.
    pose proof (Z.mod_pos_bound n (c * F64.pow2 k) ltac:(lia)).
    pose proof (Z.mod_le n (c * F64.pow2 k) ltac:(lia) ltac:(lia)). lia. }
  rewrite floor_div by lia.
  rewrite floor_div_norm by (try apply Hr; lia).
  rewrite floor_norm.
  assert (Hswap : forall a c, 0 < c -> a / (c * F64.pow2 k) = a / F64.pow2 k / c).
  { intros a c Hc. rewrite Z.div_div by lia. f_equal. lia. }
  rewrite !Hswap by lia. rewrite !whole_seconds by lia.
  fold s. change (n / F64.pow2 k) with s.
  pose proof (Z.mod_pos_bound s 3600 ltac:(lia)) as Hm.
  pose proof (Z.mod_pos_bound s 60 ltac:(lia)) as Hc.
  assert (Hm60 : 0 <= s mod 3600 / 60 < 60).
  { split; [apply Z.div_pos; lia|apply Z.div_lt_upper_bound; lia]. }
  assert (Hh : 0 <= s / 3600 < 2 ^ 53).
  { split; [apply Z.div_pos; lia|]. apply Z.div_lt_upper_bound; lia. }
  cbn [F64.positive]. rewrite !pad2_two_digits by lia.
  rewrite !print_whole by lia.
  destruct (0 <? s / 3600); reflexivity.
Qed.

(** C2, the counterexample: zero seconds are not rendered as a
    duration but as unknown. *)
Lemma formatDuration_zero_is_Unknown :
  formatDuration (Num 0) = Ok "Unknown" /\ formatDuration (Num 0) <> Ok "0:00".
Proof. split; [reflexivity | discriminate]. Qed.

(** C2, as the code has it.  For every value, [formatDuration] gives
    "Unknown" exactly when the value is falsy (a missing value,
    [false], zero, [NaN], the empty string) or does not convert to a
    number, and it throws exactly when the conversion of a truthy value
    throws.  For a value that converts to a number [s] with
    [0 < s < 2^53], with [h = floor(s/3600)],
    [m = floor((s mod 3600)/60)] and [c = floor(s mod 60)], it gives
    [h:MM:SS] when [h > 0] and [m:SS] when [h = 0], minutes and seconds
    in two digits where they are padded.  From [2^53] on the division
    and the printing round, and an infinity has no minutes. *)
Theorem formatDuration_spec (v : jsv) :
  (formatDuration v = Ok "Unknown" <->
   Js.truthy v = false \/ Coerce.to_number v = Ok F64.nan) /\
  (forall e, formatDuration v = Throw e <->
             Js.truthy v = true /\ Coerce.to_number v = Throw e) /\
  (forall (n : Z) (k : N),
     Coerce.to_number v = Ok (F64.fin n k) -> 0 < n < 2 ^ 53 ->
     let s := n / 2 ^ Z.of_N k in
     let h := s / 3600 in
     let m := (s mod 3600) / 60 in
     let c := s mod 60 in
     (0 < h ->
      formatDuration v =
        Ok (JsString.of_Z h +:+ ":" +:+ two_digits m +:+ ":" +:+ two_digits c)) /\
     (h = 0 -> formatDuration v = Ok (JsString.of_Z m +:+ ":" +:+ two_digits c))) /\
  formatDuration (Num 0) = Ok "Unknown" /\
  formatDuration (Num 59) = Ok "0:59" /\
  formatDuration (Num 3661) = Ok "1:01:01" /\
  formatDuration NaN = Ok "Unknown" /\
  formatDuration (Str "abc") = Ok "Unknown" /\
  formatDuration (Frac 425 1) = Ok "3:32" /\
  formatDuration (Str "0x10") = Ok "0:16" /\
  formatDuration (Str "1e3") = Ok "16:40" /\
  formatDuration (Num (10 ^ 21)) = Ok "277777777777777800:46:40" /\
  formatDuration (Infinity false) = Ok "Infinity:NaN:NaN".
Proof.
  split; [|split; [|split]].
  - unfold formatDuration. destruct (Js.truthy v); cbn [negb].
    + destruct (Coerce.to_number v) as [x|e]; cbn [Pure.bind].
      * destruct x as [|b|n k]; cbn [F64.is_nan].
        -- split; auto.
        -- split; [|intros [H|H]; discriminate H].
           destruct (F64.positive _); intros [= H]; apply colon_not_Unknown in H;
             contradiction.
        -- split; [|intros [H|H]; discriminate H].
           destruct (F64.positive _); intros [= H]; apply colon_not_Unknown in H;
             contradiction.
      * split; [discriminate|intros [H|H]; discriminate H].
    + split; auto.
  - intros e. unfold formatDuration. destruct (Js.truthy v); cbn [negb].
    + destruct (Coerce.to_number v) as [x|e']; cbn [Pure.bind].
      * split; [|intros [_ H]; discriminate H].
        destruct (F64.is_nan x); [discriminate|].
        destruct (F64.positive _); discriminate.
      * split; [intros [= ->]; auto|intros [_ [= ->]]; reflexivity].
    + split; [discriminate|intros [H _]; discriminate H].
  - intros n k Hv Hn s h m c. rewrite (formatDuration_whole v n k Hv Hn).
    fold s h m c. split.
    + intros Hh. destruct (Z.ltb_spec 0 h); [reflexivity|lia].
    + intros ->. reflexivity.
  - repeat split; vm_compute; reflexivity.
Qed.

(** ** Batch resolution of playlist entries *)

Lemma entryTrack_total (video : jsv) : exists o, entryTrack video = Ok o.
Proof.
  unfold entryTrack, Member.get.
  destruct (Member.nullish video); cbn; [eauto|].
  destruct (Js.truthy _); cbn; eauto.
Qed.

Lemma resolved_None (video : jsv) :
  resolved video = None <->
  Member.nullish video = true \/
  Js.truthy (Js.or (Member.lookup "id" video) (Member.lookup "video_id" video)) = false.
Proof.
  unfold resolved, entryTrack, Member.get.
  destruct (Member.nullish video); cbn.
  - split; auto.
  - destruct (Js.truthy _); cbn; split; intros H; try discriminate; auto.
    destruct H; discriminate.
Qed.

Lemma batch_results (batch : list jsv) :
  omap validResult (allSettled (map entryTrack batch)) = omap resolved batch.
Proof.
  induction batch as [|v batch IH]; [reflexivity|].
  unfold allSettled in *. rewrite !map_cons.
  change (omap resolved (v :: batch))
    with (match resolved v with
          | Some y => y :: omap resolved batch
          | None => omap resolved batch
          end).
  rewrite <- IH. unfold resolved.
  destruct (entryTrack v) as [[t|]|e]; reflexivity.
Qed.

Lemma batches_fuel (fuel : nat) :
  forall (videos : list jsv) (i : nat) (tracks : list TrackInfo),
    (length videos <= i + batchSize * fuel)%nat ->
    batches fuel videos i tracks = tracks ++ omap resolved (drop i videos).
Proof.
  unfold batchSize.
  induction fuel as [|fuel IH]; intros videos i tracks Hlen; cbn [batches].
  - rewrite drop_ge by lia. cbn. by rewrite app_nil_r.
  - destruct (Nat.ltb_spec i (length videos)) as [Hi|Hi].
    + rewrite batch_results. unfold batchSize, slice.
      replace (i + 10 - i)%nat with 10%nat by lia.
      rewrite IH by lia.
      rewrite <- app_assoc. f_equal.
      rewrite <- omap_app. f_equal.
      rewrite <- drop_drop. apply take_drop.
    + rewrite drop_ge by lia. cbn. by rewrite app_nil_r.
Qed.

(** C6: the batch loop of [getYouTubePlaylist], run over any entry
    list with the rounds the source gives it (or more), returns the
    tracks of the entries that resolve, in the order of the entries;
    an entry is dropped exactly when it is missing or has no id; and a
    group of ten whose fourth entry alone does not resolve gives the
    tracks of the other nine, in order. *)
Theorem batches_preserve_order (videos : list jsv) :
  batches (length videos) videos 0 [] = omap resolved videos /\
  (forall fuel : nat, (length videos <= fuel)%nat ->
     batches fuel videos 0 [] = batches (length videos) videos 0 []) /\
  (forall video : jsv,
     resolved video = None <->
     Member.nullish video = true \/
     Js.truthy (Js.or (Member.lookup "id" video) (Member.lookup "video_id" video)) = false) /\
  (forall (before after : list jsv) (fourth : jsv) (ts1 ts2 : list TrackInfo),
     videos = before ++ fourth :: after ->
     length before = 3%nat -> length after = 6%nat ->
     map resolved before = map Some ts1 ->
     map resolved after = map Some ts2 ->
     resolved fourth = None ->
     batches (length videos) videos 0 [] = ts1 ++ ts2 /\
     length (batches (length videos) videos 0 []) = 9%nat).
Proof.
  assert (Hall : forall fuel : nat, (length videos <= fuel)%nat ->
            batches fuel videos 0 [] = omap resolved videos).
  { intros fuel Hf. rewrite batches_fuel by (unfold batchSize; lia). reflexivity. }
  split; [apply Hall; lia|].
  split; [intros fuel Hf; rewrite !Hall by lia; reflexivity|].
  split; [apply resolved_None|].
  intros before after fourth ts1 ts2 -> Hb Ha H1 H2 H4.
  rewrite Hall by lia.
  assert (Hsome : forall (l : list jsv) (ts : list TrackInfo),
            map resolved l = map Some ts -> omap resolved l = ts).
  { induction l as [|v l IH]; intros [|t ts] Hm; try discriminate; [reflexivity|].
    cbn in Hm. injection Hm as Hv Hm. cbn. rewrite Hv. cbn. f_equal. auto. }
  rewrite omap_app. cbn. rewrite H4.
  rewrite (Hsome _ _ H1), (Hsome _ _ H2).
  split; [reflexivity|].
  rewrite length_app.
  rewrite <- (length_map Some ts1), <- H1, <- (length_map Some ts2), <- H2, !length_map.
  lia.
Qed.

(** ** The session of the metadata backend *)

Lemma needsReinit_iff (options : yt_options) (w : World) :
  needsReinit options w = true <->
  innertube w = None \/ Js.strict_eq (cookies options) (lastCookies w) = false.
Proof.
  unfold needsReinit. rewrite orb_true_iff, !negb_true_iff, bool_decide_eq_false.
  rewrite <- eq_None_not_Some. reflexivity.
Qed.

Lemma initializeYouTube_reuse (E : Env) (options : yt_options) (w : World) :
  needsReinit options w = false ->
  initializeYouTube E options w = (Ok (innertube w), w).
Proof.
  intros H. unfold initializeYouTube, Eff.bind, Eff.get, Eff.ret. rewrite H. reflexivity.
Qed.

(** What a re-initialisation does: sign out of the session there is,
    then create one. *)
Lemma initializeYouTube_reinit (E : Env) (options : yt_options) (w : World) :
  needsReinit options w = true ->
  let before :=
    trace w ++ match innertube w with Some s => [SignOut s] | None => [] end in
  initializeYouTube E options w =
    if Innertube_create E (length before) (initOptionsFor options)
    then (Ok (Some (length before)),
          {| files := files w; innertube := Some (length before);
             lastCookies := cookies options;
             trace := before ++ [Create (initOptionsFor options)] |})
    else (Ok None,
          {| files := files w; innertube := None; lastCookies := lastCookies w;
             trace := before ++ [Create (initOptionsFor options)] |}).
Proof.
  intros H. unfold initializeYouTube, Eff.bind, Eff.get, Eff.ret. rewrite H.
  destruct w as [f [s|] c t]; cbn;
    [|rewrite app_nil_r];
    destruct (Innertube_create E _ _); reflexivity.
Qed.

Lemma creations_app (t1 t2 : list event) :
  creations (t1 ++ t2) = (creations t1 + creations t2)%nat.
Proof. unfold creations. by rewrite List.filter_app, length_app. Qed.

Lemma initializeTimes_reuse (E : Env) (options : yt_options) (w : World) (n : nat) :
  needsReinit options w = false ->
  initializeTimes E options n w = (replicate n (Ok (innertube w)), w).
Proof.
  intros H. induction n as [|n IH]; [reflexivity|].
  cbn [initializeTimes]. rewrite initializeYouTube_reuse, IH by assumption. reflexivity.
Qed.

(** C5: [initializeYouTube] creates a session exactly when there is
    none or the credential is not the one of the last creation; a call
    with a changed credential signs out once and creates once, and the
    calls that follow with that credential, like any calls with the
    credential of a live session, change nothing and return the same
    session. *)
Theorem session_recreated_exactly_on_change (E : Env) (options : yt_options) (w : World) :
  (needsReinit options w = true <->
   innertube w = None \/ Js.strict_eq (cookies options) (lastCookies w) = false) /\
  creations (trace (initializeYouTube E options w).2) =
    (creations (trace w) + (if needsReinit options w then 1 else 0))%nat /\
  (forall s : nat,
     innertube w = Some s ->
     Js.strict_eq (cookies options) (lastCookies w) = false ->
     Js.strict_eq (cookies options) (cookies options) = true ->
     Innertube_create E (S (length (trace w))) (initOptionsFor options) = true ->
     let w1 := (initializeYouTube E options w).2 in
     trace w1 = trace w ++ [SignOut s; Create (initOptionsFor options)] /\
     innertube w1 = Some (S (length (trace w))) /\
     lastCookies w1 = cookies options /\
     forall n : nat,
       initializeTimes E options n w1 = (replicate n (Ok (innertube w1)), w1)) /\
  (forall (s n : nat),
     innertube w = Some s ->
     Js.strict_eq (cookies options) (lastCookies w) = true ->
     initializeTimes E options n w = (replicate n (Ok (Some s)), w)).
Proof.
  split; [apply needsReinit_iff|].
  split.
  { destruct (needsReinit options w) eqn:H.
    - rewrite (initializeYouTube_reinit E options w H).
      destruct (Innertube_create E _ _); cbn [snd trace];
        rewrite !creations_app; destruct (innertube w); cbn; lia.
    - rewrite (initializeYouTube_reuse E options w H). cbn. lia. }
  split.
  { intros s Hs Hne Hrefl Hcreate.
    assert (H : needsReinit options w = true) by (apply needsReinit_iff; auto).
    rewrite (initializeYouTube_reinit E options w H), Hs.
    rewrite length_app, Nat.add_comm. cbn [length Nat.add].
    rewrite Hcreate. cbn [snd trace innertube lastCookies].
    rewrite <- app_assoc.
    repeat split.
    intros n. rewrite initializeTimes_reuse; [reflexivity|].
    unfold needsReinit. cbn [innertube lastCookies]. rewrite Hrefl.
    rewrite bool_decide_eq_true_2 by eauto. reflexivity. }
  intros s n Hs Heq.
  rewrite initializeTimes_reuse, Hs; [reflexivity|].
  unfold needsReinit. rewrite Heq, Hs.
  rewrite bool_decide_eq_true_2 by eauto. reflexivity.
Qed.

(** ** Stream resolution *)

Lemma existsSync_found (path : string) (w : World) :
  is_Some (files w !! path) -> existsSync path w = (Ok true, w).
Proof. intros H. unfold existsSync. by rewrite bool_decide_eq_true_2. Qed.

Lemma unlink_if_exists (path : string) (w : World) :
  (let* there := existsSync path in
   if there then unlinkSync path else Eff.ret tt) w
  = (Ok tt, {| files := delete path (files w); innertube := innertube w;
               lastCookies := lastCookies w; trace := trace w |}).
Proof.
  unfold Eff.bind, existsSync, unlinkSync, Eff.ret.
  destruct (bool_decide_reflect (is_Some (files w !! path))) as [H|H]; [reflexivity|].
  apply eq_None_not_Some in H. rewrite delete_id by assumption.
  destruct w; reflexivity.
Qed.

Lemma cleanup_run (cookies : jsv) (path : string) (w : World) :
  cleanup cookies path w
  = (Ok tt, {| files := if Js.truthy cookies then delete path (files w) else files w;
               innertube := innertube w; lastCookies := lastCookies w; trace := trace w |}).
Proof.
  unfold cleanup. destruct (Js.truthy cookies).
  - unfold Eff.try_catch. rewrite unlink_if_exists. reflexivity.
  - destruct w; reflexivity.
Qed.

(** One call of [getStreamingUrl] with the binary in place: one
    request to the external extractor, whose answer decides the
    result. *)
Lemma getStreamingUrl_run (E : Env) (url : jsv) (ytdlpPath quality : string)
    (cookies : jsv) (w : World) :
  is_Some (files w !! ytdlpPath) ->
  let command := streamCommand E url ytdlpPath quality cookies in
  let answer := execAsync E (length (trace w)) command in
  getStreamingUrl E url ytdlpPath quality cookies w =
    (streamResult answer,
     {| files := filesAfterStream E cookies answer (files w);
        innertube := innertube w; lastCookies := lastCookies w;
        trace := trace w ++ [Exec command] |}).
Proof.
  intros Hbin command answer. subst answer command.
  unfold getStreamingUrl, Eff.try_catch at 1, Eff.bind at 1.
  rewrite existsSync_found by assumption. cbn [negb].
  unfold filesAfterStream, streamResult, streamCommand.
  destruct (usableCookieString cookies) eqn:Hc.
  - destruct cookies as [| | | | |c| | | |]; try discriminate Hc.
    cbn [convertToNetscapeFormat writeData Js.to_string Js.truthy].
    cbv beta iota zeta delta
      [Eff.bind Eff.try_catch writeFileSync Eff.ret run Eff.emit Eff.throw fst snd].
    cbn [trace files innertube lastCookies].
    destruct (execAsync E _ _) as [stdout stderr|e]; [|reflexivity].
    rewrite cleanup_run. cbn [trace files innertube lastCookies fst snd Js.truthy].
    assert (Hne : negb (String.eqb c EmptyString) = true).
    { cbn in Hc. apply andb_true_iff in Hc. tauto. }
    rewrite Hne.
    destruct (negb (String.eqb stderr EmptyString) && String.eqb stdout EmptyString);
      [reflexivity|].
    destruct (String.eqb (JsString.trim stdout) EmptyString
              || negb (JsString.startsWith "http" (JsString.trim stdout))); reflexivity.
  - rewrite app_nil_r.
    assert (Hw : match cookies with
                 | Str _ => files w
                 | _ => files w
                 end = files w) by (destruct cookies; reflexivity).
    rewrite Hw.
    cbv beta iota zeta delta
      [Eff.bind Eff.try_catch Eff.ret run Eff.emit Eff.throw fst snd].
    cbn [trace files innertube lastCookies].
    destruct (execAsync E _ _) as [stdout stderr|e]; [|destruct w; reflexivity].
    rewrite cleanup_run. cbn [trace files innertube lastCookies fst snd].
    destruct (negb (String.eqb stderr EmptyString) && String.eqb stdout EmptyString);
      [reflexivity|].
    destruct (String.eqb (JsString.trim stdout) EmptyString
              || negb (JsString.startsWith "http" (JsString.trim stdout))); reflexivity.
Qed.

Lemma filesAfterStream_other (E : Env) (cookies : jsv) (r : exec_result)
    (fs : gmap string string) (path : string) :
  path <> inDirname E "temp_cookies.txt" ->
  filesAfterStream E cookies r fs !! path = fs !! path.
Proof.
  intros Hp. unfold filesAfterStream.
  destruct r as [stdout stderr|e]; destruct cookies; cbn [Js.truthy];
    repeat match goal with
           | |- context [if ?b then _ else _] => destruct b
           end;
    rewrite ?lookup_delete_ne, ?lookup_insert_ne by congruence; reflexivity.
Qed.

Lemma streamResult_Ok (r : exec_result) (s : string) :
  streamResult r = Ok s ->
  String.eqb s EmptyString || negb (JsString.startsWith "http" s) = false.
Proof.
  destruct r as [stdout stderr|e]; unfold streamResult; [|discriminate].
  destruct (negb (String.eqb stderr EmptyString) && String.eqb stdout EmptyString);
    [discriminate|].
  destruct (String.eqb (JsString.trim stdout) EmptyString
            || negb (JsString.startsWith "http" (JsString.trim stdout))) eqn:H;
    [discriminate|].
  intros [= <-]. exact H.
Qed.

Lemma stream_run (E : Env) (this : YtDlpExtractor.t) (info : Track.t) (w : World) :
  let url := Js.or (Track.url info) (t_url (Track.raw info)) in
  let command :=
    streamCommand E url (YtDlpExtractor.ytdlpPath this) (YtDlpExtractor.streamQuality this)
      (YtDlpExtractor.cookiesOrNull this) in
  let answer := execAsync E (length (trace w)) command in
  Js.truthy url = true ->
  is_Some (files w !! YtDlpExtractor.ytdlpPath this) ->
  YtDlpExtractor.stream E this info w =
    (streamResult answer,
     {| files := filesAfterStream E (YtDlpExtractor.cookiesOrNull this) answer (files w);
        innertube := innertube w; lastCookies := lastCookies w;
        trace := trace w ++ [Exec command] |}).
Proof.
  intros url command answer Hurl Hbin. subst answer command url.
  unfold YtDlpExtractor.stream, Eff.try_catch, Eff.bind.
  rewrite Hurl. cbn [negb].
  rewrite getStreamingUrl_run by assumption.
  destruct (streamResult _) as [s|e] eqn:Hr; [|reflexivity].
  rewrite (streamResult_Ok _ _ Hr). reflexivity.
Qed.

Lemma execs_snoc (t : list event) (command : string) :
  execs (t ++ [Exec command]) = execs t ++ [command].
Proof. unfold execs. by rewrite omap_app. Qed.

(** C8: with the binary in place and a track that has a URL, two
    calls of [stream] in a row send two commands to the external
    extractor, both for the URL of the track, and the result of each
    call is what the answer to its own command gives: nothing of the
    first call reaches the second. *)
Theorem stream_never_cached (E : Env) (this : YtDlpExtractor.t) (info : Track.t) (w : World) :
  let url := Js.or (Track.url info) (t_url (Track.raw info)) in
  let command :=
    streamCommand E url (YtDlpExtractor.ytdlpPath this) (YtDlpExtractor.streamQuality this)
      (YtDlpExtractor.cookiesOrNull this) in
  Js.truthy url = true ->
  is_Some (files w !! YtDlpExtractor.ytdlpPath this) ->
  YtDlpExtractor.ytdlpPath this <> inDirname E "temp_cookies.txt" ->
  let first := YtDlpExtractor.stream E this info w in
  let second := YtDlpExtractor.stream E this info first.2 in
  execs (trace first.2) = execs (trace w) ++ [command] /\
  execs (trace second.2) = execs (trace w) ++ [command; command] /\
  first.1 = streamResult (execAsync E (length (trace w)) command) /\
  second.1 = streamResult (execAsync E (S (length (trace w))) command).
Proof.
  intros url command Hurl Hbin Hne first second.
  assert (H1 := stream_run E this info w Hurl Hbin).
  fold url in H1. fold command in H1. fold first in H1.
  assert (Hbin' : is_Some (files first.2 !! YtDlpExtractor.ytdlpPath this)).
  { rewrite H1. cbn [snd files]. by rewrite filesAfterStream_other. }
  assert (H2 := stream_run E this info first.2 Hurl Hbin').
  fold url in H2. fold command in H2. fold second in H2.
  rewrite H2. cbn [fst snd trace]. rewrite H1. cbn [fst snd trace].
  rewrite !execs_snoc, <- app_assoc, length_app, Nat.add_comm.
  repeat split.
Qed.

(** ** The cookie jar of the external extractor *)

(** When the process exits, whatever it printed, the jar written for a
    credential is gone after [getStreamingUrl]. *)
Lemma jar_deleted_on_exit (E : Env) (url : jsv) (ytdlpPath quality : string)
    (cookies : jsv) (w : World) (stdout stderr : string) :
  is_Some (files w !! ytdlpPath) ->
  Js.truthy cookies = true ->
  execAsync E (length (trace w)) (streamCommand E url ytdlpPath quality cookies)
    = Exited stdout stderr ->
  files (getStreamingUrl E url ytdlpPath quality cookies w).2
    !! inDirname E "temp_cookies.txt" = None.
Proof.
  intros Hbin Hc Hx. rewrite getStreamingUrl_run by assumption.
  cbn [snd files]. unfold filesAfterStream. rewrite Hx, Hc.
  apply lookup_delete_eq.
Qed.

(** When [execAsync] rejects, the jar stays. *)
Lemma jar_left_on_failure (E : Env) (url : jsv) (ytdlpPath quality : string)
    (cookies : jsv) (w : World) (e : string) :
  is_Some (files w !! ytdlpPath) ->
  usableCookieString cookies = true ->
  execAsync E (length (trace w)) (streamCommand E url ytdlpPath quality cookies) = Failed e ->
  files (getStreamingUrl E url ytdlpPath quality cookies w).2
    !! inDirname E "temp_cookies.txt"
  = Some (Js.to_string (convertToNetscapeFormat cookies)).
Proof.
  intros Hbin Hc Hx. rewrite getStreamingUrl_run by assumption.
  cbn [snd files]. unfold filesAfterStream. rewrite Hx, Hc.
  destruct cookies; try discriminate Hc. apply lookup_insert_eq.
Qed.

(** C3, at a failing input: yt-dlp is installed, a cookie string is
    given and the external process fails.  Both operations throw the
    error of the process and leave their cookie jar on disk. *)
Theorem cookie_jar_survives_failure :
  let streamed :=
    getStreamingUrl Demo.failing (Str "https://www.youtube.com/watch?v=dQw4w9WgXcQ")
      Demo.binary "bestaudio" (Str "SID=abc") Demo.startup in
  let fetched :=
    getYouTubeMetadataWithYtDlp Demo.failing "dQw4w9WgXcQ" Demo.binary (Str "SID=abc")
      Demo.startup in
  let jar :=
    "# Netscape HTTP Cookie File" +:+ nl +:+ "# This is a generated file! Do not edit."
    +:+ nl +:+ nl +:+ ".youtube.com" +:+ tab +:+ "TRUE" +:+ tab +:+ "/" +:+ tab +:+ "FALSE"
    +:+ tab +:+ "0" +:+ tab +:+ "SID" +:+ tab +:+ "abc" +:+ nl in
  streamed.1 = Throw "Command failed" /\
  files streamed.2 !! "/app/temp_cookies.txt" = Some jar /\
  fetched.1 = Throw "Command failed" /\
  files fetched.2 !! "/app/temp_cookies_metadata.txt" = Some jar.
Proof. vm_compute. repeat split. Qed.

(** ** Mix playlists *)

Lemma playlistError_invalid_mix (A : Type) (w : World) :
  @playlistError A "Invalid YouTube Mix playlist ID format" w
  = (Throw "Invalid YouTube Mix playlist ID format", w).
Proof. reflexivity. Qed.

(** A Mix identifier whose remainder is not 11 characters long is
    refused before anything is asked of the backend. *)
Lemma mix_invalid_id (E : Env) (playlistId : string) (options : yt_options) (w : World) :
  JsString.startsWith "RD" playlistId = true ->
  String.length (JsString.substring_from 2 playlistId) <> 11%nat ->
  getYouTubePlaylist E playlistId options w
  = (Throw "Invalid YouTube Mix playlist ID format", w).
Proof.
  intros Hrd Hlen. unfold getYouTubePlaylist. rewrite Hrd.
  unfold Eff.try_catch.
  destruct (2 <? String.length playlistId)%nat; [|reflexivity].
  destruct (Nat.eqb_spec (String.length (JsString.substring_from 2 playlistId)) 11)
    as [Heq|_]; [contradiction|].
  reflexivity.
Qed.

(** C7, at a failing input: the Mix of a seed video that the backend
    cannot fetch.  The Mix branch raises its own error, and the handler
    of [getYouTubePlaylist], finding the word private in it, replaces
    it by the error of a private playlist. *)
Theorem mix_seed_failure_reported_as_private :
  let options := {| cookies := Null; client := Null |} in
  let session_ready := (initializeYouTube Demo.connected options Demo.startup).2 in
  (mixPlaylist Demo.connected "RDdQw4w9WgXcQ" "dQw4w9WgXcQ" 0 session_ready).1
    = Throw "Unable to access Mix playlist. This may be a private or unavailable Mix." /\
  (getYouTubePlaylist Demo.connected "RDdQw4w9WgXcQ" options Demo.startup).1
    = Throw "This playlist is private or requires authentication. Please check your YouTube cookies.".
Proof. vm_compute. split; reflexivity. Qed.

Lemma filter_x_nonnull (feed playable : list jsv) :
  filter_x isCompactVideo feed = Ok playable ->
  Forall (fun v => Member.nullish v = false) playable.
Proof.
  revert playable. induction feed as [|v feed IH]; intros playable H.
  - injection H as <-. constructor.
  - cbn [filter_x] in H. unfold isCompactVideo at 1, Member.get in H.
    destruct (Member.nullish v) eqn:Hv; [discriminate H|].
    cbn [Pure.bind] in H.
    destruct (filter_x isCompactVideo feed) as [ys|e]; [|discriminate H].
    cbn [Pure.bind] in H. injection H as <-.
    specialize (IH ys eq_refl).
    destruct (_ && _); [constructor|]; assumption.
Qed.

Lemma map_x_videoTrack (videos : list jsv) :
  Forall (fun v => Member.nullish v = false) videos ->
  exists ts, map_x videoTrack videos = Ok ts /\ length ts = length videos.
Proof.
  induction 1 as [|v videos Hv _ (ts & Hts & Hlen)].
  - exists []. split; reflexivity.
  - cbn [map_x]. unfold videoTrack at 1, Member.get. rewrite Hv. cbn [Pure.bind].
    rewrite Hts. cbn [Pure.bind]. eexists. split; [reflexivity|]. cbn. by rewrite Hlen.
Qed.

(** The Mix of a seed video that resolves, with at least 19 playable
    recommendations: twenty tracks, the seed first, the synthesized
    title and the fixed author. *)
Lemma mix_has_twenty_tracks (E : Env) (seed : string) (options : yt_options)
    (w w1 : World) (session : nat) (seedVideo : jsv) (r : nat) (feed playable : list jsv) :
  String.length seed = 11%nat ->
  initializeYouTube E options w = (Ok (Some session), w1) ->
  yt_getInfo E (length (trace w1)) session seed = Resolved seedVideo ->
  Js.truthy seedVideo = true ->
  Member.lookup "watch_next_feed" seedVideo = Arr r feed ->
  filter_x isCompactVideo feed = Ok playable ->
  (19 <= length playable)%nat ->
  exists p,
    (getYouTubePlaylist E ("RD" +:+ seed) options w).1 = Ok p /\
    length (p_tracks p) = 20%nat /\
    head (p_tracks p) = Some (infoTrack seed seedVideo (Str "0")) /\
    p_author p = Str "YouTube" /\
    p_title p =
      Str ("Mix - " +:+
           Js.to_string
             (Js.or (Member.opt "title" (Member.lookup "basic_info" seedVideo))
                    (Str "Unknown"))).
Proof.
  intros Hlen Hinit Hinfo Htruthy Hfeed Hfilter Hmany.
  destruct (map_x_videoTrack (take 19 playable)) as (related & Hrel & Hrl).
  { apply Forall_take. by apply filter_x_nonnull with feed. }
  rewrite length_take in Hrl.
  unfold getYouTubePlaylist, Eff.try_catch at 1.
  change (JsString.startsWith "RD" ("RD" +:+ seed)) with true. cbv iota.
  change (String.length ("RD" +:+ seed)) with (S (S (String.length seed))).
  change (JsString.substring_from 2 ("RD" +:+ seed)) with seed.
  rewrite Hlen. cbn [Nat.ltb Nat.leb]. cbv beta iota.
  rewrite Hlen. cbn [Nat.eqb negb]. cbv iota.
  unfold Eff.bind at 1. rewrite Hinit.
  unfold mixPlaylist, Eff.try_catch, Eff.bind, Eff.emit, await, Eff.lift.
  cbn [trace]. rewrite Hinfo. unfold Eff.ret at 1. rewrite Htruthy. cbn [negb].
  rewrite Hfeed. cbn [Js.truthy as_array Pure.bind]. rewrite Hfilter.
  cbn [Pure.bind]. rewrite Hrel. unfold Eff.ret.
  eexists. split; [reflexivity|]. cbn [p_tracks p_author p_title length head].
  repeat split. lia.
Qed.

(** ** URL validation *)

Lemma append_colon_inj (s t : string) : s +:+ ":" = t +:+ ":" -> s = t.
Proof.
  revert t. induction s as [|a s IH]; intros [|b t] H.
  - reflexivity.
  - rewrite append_cons in H. injection H as _ H. destruct t; discriminate H.
  - rewrite append_cons in H. injection H as _ H. destruct s; discriminate H.
  - rewrite !append_cons in H. injection H as -> H. f_equal. auto.
Qed.

Lemma unsupported_scheme (u : URL) :
  existsb (String.eqb (protocol u)) unsupportedProtocols = true <->
  scheme u = "file" \/ scheme u = "ftp" \/ scheme u = "mailto".
Proof.
  unfold unsupportedProtocols, protocol. cbn [existsb].
  rewrite orb_false_r, !orb_true_iff, !String.eqb_eq.
  split.
  - intros [H|[H|H]]; [left|right; left|right; right];
      apply append_colon_inj; exact H.
  - intros [H | [H | H]]; rewrite H; auto.
Qed.

Lemma validateUrl_true (E : Env) (v : jsv) :
  validateUrl E v = Ok true <->
  exists (s : string) (u : URL),
    v = Str s /\ s <> EmptyString /\ new_URL E s = Some u /\
    ~ (scheme u = "file" \/ scheme u = "ftp" \/ scheme u = "mailto").
Proof.
  unfold validateUrl, isValidUrl, construct_URL.
  split.
  - destruct v as [| | | | |s| | | |]; cbn [Js.truthy Js.is_string negb orb andb];
      try discriminate;
      try (destruct b; discriminate);
      try (destruct (negb (_ =? 0)); discriminate).
    destruct (String.eqb_spec s EmptyString) as [|Hs]; [discriminate|].
    cbn [negb orb Js.to_string].
    destruct (new_URL E s) as [u|] eqn:Hu; [|discriminate].
    cbn [negb Pure.bind].
    destruct (existsb _ _) eqn:Hx; [discriminate|].
    intros _. exists s, u. repeat split; try assumption.
    intros H. apply unsupported_scheme in H. congruence.
  - intros (s & u & -> & Hs & Hu & Hok).
    cbn [Js.truthy Js.is_string Js.to_string].
    destruct (String.eqb_spec s EmptyString) as [|_]; [contradiction|].
    cbn [negb orb]. rewrite Hu. cbn [negb Pure.bind].
    destruct (existsb _ _) eqn:Hx; [|reflexivity].
    apply unsupported_scheme in Hx. contradiction.
Qed.

Lemma validateUrl_total (E : Env) (v : jsv) : exists b : bool, validateUrl E v = Ok b.
Proof.
  unfold validateUrl, isValidUrl, construct_URL.
  destruct (negb (Js.truthy v) || negb (Js.is_string v)); [eauto|].
  destruct (new_URL E (Js.to_string v)); cbn [negb Pure.bind]; [|eauto].
  destruct (existsb _ _); eauto.
Qed.

(** C9: [validateUrl] always returns a boolean, and returns [true]
    exactly for a non-empty string that the URL parser accepts and
    whose scheme is none of file, ftp and mailto.  The empty string is
    refused; so is [file:///etc/passwd] as soon as the parser reads its
    scheme as file, and [https://example.com] is accepted when the
    parser accepts it with the scheme https. *)
Theorem validateUrl_spec (E : Env) (v : jsv) :
  (exists b : bool, validateUrl E v = Ok b) /\
  (validateUrl E v = Ok true <->
   exists (s : string) (u : URL),
     v = Str s /\ s <> EmptyString /\ new_URL E s = Some u /\
     ~ (scheme u = "file" \/ scheme u = "ftp" \/ scheme u = "mailto")) /\
  validateUrl E (Str EmptyString) = Ok false /\
  ((forall u, new_URL E "file:///etc/passwd" = Some u -> scheme u = "file") ->
   validateUrl E (Str "file:///etc/passwd") = Ok false) /\
  (forall u, new_URL E "https://example.com" = Some u -> scheme u = "https" ->
   validateUrl E (Str "https://example.com") = Ok true).
Proof.
  split; [apply validateUrl_total|].
  split; [apply validateUrl_true|].
  split; [reflexivity|].
  split.
  - intros Hfile.
    destruct (validateUrl_total E (Str "file:///etc/passwd")) as [[|] Hb]; [|exact Hb].
    apply validateUrl_true in Hb as (s & u & [= <-] & _ & Hu & Hok).
    exfalso. apply Hok. left. by apply Hfile.
  - intros u Hu Hs. apply validateUrl_true.
    exists "https://example.com", u. repeat split; try assumption; try discriminate.
    rewrite Hs. intros [H|[H|H]]; discriminate H.
Qed.

(** The statement of C9 on the platform of the examples *)
Lemma validateUrl_spec_witness :
  validateUrl Demo.connected (Str "file:///etc/passwd") = Ok false /\
  validateUrl Demo.connected (Str "https://example.com") = Ok true /\
  validateUrl Demo.connected (Str EmptyString) = Ok false.
Proof.
  destruct (validateUrl_spec Demo.connected (Str "https://example.com"))
    as (_ & _ & Hempty & Hfile & Hhttps).
  split; [|split].
  - apply Hfile. intros u Hu. vm_compute in Hu. injection Hu as <-. reflexivity.
  - apply (Hhttps {| scheme := "https" |}); reflexivity.
  - exact Hempty.
Defined.

(** ** Playlists and the handling of a query *)

(** An ordinary playlist whose backend answer lists its entries under
    [videos]: the tracks are the entries that resolve, in order. *)
Lemma getYouTubePlaylist_entries (E : Env) (playlistId : string) (options : yt_options)
    (w w1 : World) (session : nat) (playlist : jsv) (r : nat) (entries : list jsv) :
  JsString.startsWith "RD" playlistId = false ->
  initializeYouTube E options w = (Ok (Some session), w1) ->
  yt_getPlaylist E (length (trace w1)) session playlistId = Settled (Resolved playlist) ->
  Member.lookup "videos" playlist = Arr r entries ->
  getYouTubePlaylist E playlistId options w =
    (Ok (playlistHeader playlistId playlist (omap resolved entries)),
     add_event (GetPlaylist session playlistId) w1).
Proof.
  intros Hrd Hinit Hget Hvideos.
  assert (Htruthy : Js.truthy playlist = true).
  { destruct playlist; try discriminate Hvideos; reflexivity. }
  unfold getYouTubePlaylist, Eff.try_catch. rewrite Hrd.
  unfold Eff.bind at 1. rewrite Hinit.
  unfold Eff.bind, Eff.emit, race. rewrite Hget. unfold Eff.ret at 1.
  rewrite Htruthy, Hvideos. cbn [negb Js.truthy andb Js.or Member.lookup].
  cbn [String.eqb Ascii.eqb Bool.eqb Js.strict_eq].
  destruct entries as [|v entries].
  - reflexivity.
  - change (Z.of_nat (length (v :: entries)) =? 0) with false. cbv iota.
    unfold Eff.ret. rewrite batches_fuel by (unfold batchSize; lia).
    reflexivity.
Qed.

(** C4, the counterexample: a playlist that the backend returns with
    no entries is a playlist value for [getYouTubePlaylist], but
    [handleYouTubePlaylist] throws on it and [handle] answers with
    nothing. *)
Lemma empty_playlist_is_an_error_for_the_handler :
  let url := "https://www.youtube.com/playlist?list=PL123" in
  let this := Demo.extractor Null in
  (exists p, (getYouTubePlaylist Backend.env "PL123" (YtDlpExtractor.youtubeiOptions this)
                Demo.startup).1 = Ok p /\ p_tracks p = []) /\
  (YtDlpExtractor.handleYouTubePlaylist Backend.env this url Demo.context Demo.startup).1
    = Throw "Could not get playlist information or playlist is empty" /\
  (YtDlpExtractor.handle Backend.env this url Demo.context Demo.startup).1
    = Ok (createResponse None []).
Proof.
  cbv zeta. split; [|split].
  - eexists. split; vm_compute; reflexivity.
  - vm_compute. reflexivity.
  - vm_compute. reflexivity.
Qed.

(** C4, as the code has it: when the backend returns the playlist and
    none of its entries resolves (there may be none at all),
    [getYouTubePlaylist] returns the playlist with an empty track list,
    and [handleYouTubePlaylist] refuses that value with its own
    error. *)
Theorem empty_playlist_valid_for_the_backend_only
    (E : Env) (this : YtDlpExtractor.t) (url : string) (context : Context)
    (w w1 : World) (session : nat) (playlistId : string) (playlist : jsv)
    (r : nat) (entries : list jsv) :
  extractYouTubePlaylistId (Str url) = Ok (Some playlistId) ->
  JsString.startsWith "RD" playlistId = false ->
  initializeYouTube E (YtDlpExtractor.youtubeiOptions this) w = (Ok (Some session), w1) ->
  yt_getPlaylist E (length (trace w1)) session playlistId = Settled (Resolved playlist) ->
  Member.lookup "videos" playlist = Arr r entries ->
  omap resolved entries = [] ->
  getYouTubePlaylist E playlistId (YtDlpExtractor.youtubeiOptions this) w =
    (Ok (playlistHeader playlistId playlist []),
     add_event (GetPlaylist session playlistId) w1) /\
  YtDlpExtractor.handleYouTubePlaylist E this url context w =
    (Throw "Could not get playlist information or playlist is empty",
     add_event (GetPlaylist session playlistId) w1).
Proof.
  intros Hid Hrd Hinit Hget Hvideos Hnone.
  pose proof (getYouTubePlaylist_entries E playlistId _ w w1 session playlist r entries
                Hrd Hinit Hget Hvideos) as Hp.
  rewrite Hnone in Hp. split; [exact Hp|].
  unfold YtDlpExtractor.handleYouTubePlaylist, Eff.try_catch, Eff.bind, Eff.lift.
  rewrite Hid, Hp. reflexivity.
Qed.

(** The statement of C4 on the playlist without entries of the
    examples *)
Lemma empty_playlist_valid_for_the_backend_only_witness :
  (getYouTubePlaylist Backend.env "PL123" {| cookies := Null; client := Null |}
     Demo.startup).1
    = Ok (playlistHeader "PL123" Backend.emptyPlaylist []) /\
  (YtDlpExtractor.handleYouTubePlaylist Backend.env (Demo.extractor Null)
     "https://www.youtube.com/playlist?list=PL123" Demo.context Demo.startup).1
    = Throw "Could not get playlist information or playlist is empty".
Proof.
  destruct (empty_playlist_valid_for_the_backend_only Backend.env (Demo.extractor Null)
              "https://www.youtube.com/playlist?list=PL123" Demo.context
              Demo.startup
              (initializeYouTube Backend.env {| cookies := Null; client := Null |}
                 Demo.startup).2
              0 "PL123" Backend.emptyPlaylist 3 [])
    as [H1 H2]; try reflexivity.
  split; [exact (f_equal fst H1)|exact (f_equal fst H2)].
Defined.

Lemma try_catch_ret_total {A} (m : M A) (a : A) (w : World) :
  exists r w', Eff.try_catch m (fun _ => Eff.ret a) w = (Ok r, w').
Proof.
  unfold Eff.try_catch, Eff.ret. destruct (m w) as [[r|e] w']; eauto.
Qed.

(** C1, the counterexample: the playlist of the URL is unknown to the
    backend and yt-dlp fails on a page of another site.  In both cases
    [handleDirectUrl] throws a descriptive error and [handle] returns
    the empty response. *)
Lemma handle_turns_failure_into_empty_result :
  let this := Demo.extractor Null in
  (YtDlpExtractor.handleDirectUrl Demo.connected this
     "https://www.youtube.com/playlist?list=PL123" Demo.context Demo.startup).1
    = Throw "Playlist not found. Please check the playlist ID." /\
  (YtDlpExtractor.handle Demo.connected this
     "https://www.youtube.com/playlist?list=PL123" Demo.context Demo.startup).1
    = Ok (createResponse None []) /\
  (YtDlpExtractor.handleDirectUrl Demo.connected this
     "https://vimeo.com/1" Demo.context Demo.startup).1
    = Throw "Command failed" /\
  (YtDlpExtractor.handle Demo.connected this
     "https://vimeo.com/1" Demo.context Demo.startup).1
    = Ok (createResponse None []).
Proof. vm_compute. repeat split. Qed.

(** C1, as the code has it: a failing playlist fetch and a failing
    extractor fetch for a URL of another site leave [handleDirectUrl]
    as the error they raised; [handle] catches whatever
    [handleDirectUrl] throws and returns the empty response, so that
    [handle] itself never throws. *)
Theorem handle_catches_what_handleDirectUrl_propagates
    (E : Env) (this : YtDlpExtractor.t) (query : string) (context : Context) (w : World) :
  (exists r w', YtDlpExtractor.handle E this query context w = (Ok r, w')) /\
  (forall e w',
     isValidUrl E (Str query) = true ->
     YtDlpExtractor.handleDirectUrl E this query context w = (Throw e, w') ->
     YtDlpExtractor.handle E this query context w = (Ok (createResponse None []), w')) /\
  (forall playlistId e w',
     validateUrl E (Str query) = Ok true ->
     isYouTubePlaylistUrl (Str query) = true ->
     extractYouTubePlaylistId (Str query) = Ok (Some playlistId) ->
     getYouTubePlaylist E playlistId (YtDlpExtractor.youtubeiOptions this) w = (Throw e, w') ->
     YtDlpExtractor.handleDirectUrl E this query context w = (Throw e, w')) /\
  (forall e w',
     validateUrl E (Str query) = Ok true ->
     isYouTubeUrl (Str query) = false ->
     getBasicInfo E query (YtDlpExtractor.ytdlpPath this) w = (Throw e, w') ->
     YtDlpExtractor.handleDirectUrl E this query context w = (Throw e, w')).
Proof.
  split; [apply try_catch_ret_total|].
  split; [|split].
  - intros e w' Hurl Hthrow. unfold YtDlpExtractor.handle, Eff.try_catch.
    rewrite Hurl, Hthrow. reflexivity.
  - intros playlistId e w' Hvalid Hpl Hid Hthrow.
    assert (Hyt : isYouTubeUrl (Str query) = true).
    { unfold isYouTubePlaylistUrl in Hpl. apply andb_true_iff in Hpl. tauto. }
    unfold YtDlpExtractor.handleDirectUrl, Eff.try_catch at 1, Eff.bind at 1, Eff.lift at 1.
    rewrite Hvalid. cbn [negb]. rewrite Hyt, Hpl.
    unfold YtDlpExtractor.handleYouTubePlaylist, Eff.try_catch, Eff.bind, Eff.lift.
    rewrite Hid, Hthrow. reflexivity.
  - intros e w' Hvalid Hyt Hthrow.
    unfold YtDlpExtractor.handleDirectUrl, Eff.try_catch at 1, Eff.bind at 1, Eff.lift at 1.
    rewrite Hvalid. cbn [negb]. rewrite Hyt.
    unfold Eff.bind. rewrite Hthrow. reflexivity.
Qed.

(** ** Related tracks *)

Section Keeps.

Context (R : World -> World -> Prop).
Hypothesis R_refl : forall w, R w w.
Hypothesis R_trans : forall w1 w2 w3, R w1 w2 -> R w2 w3 -> R w1 w3.

Lemma keeps_ret {A} (a : A) : keeps R (Eff.ret a).
Proof. intros w. apply R_refl. Qed.

Lemma keeps_throw {A} (e : string) : keeps R (@Eff.throw A e).
Proof. intros w. apply R_refl. Qed.

Lemma keeps_lift {A} (m : outcome A) : keeps R (Eff.lift m).
Proof. intros w. apply R_refl. Qed.

Lemma keeps_get : keeps R Eff.get.
Proof. intros w. apply R_refl. Qed.

Lemma keeps_bind {A B} (m : M A) (k : A -> M B) :
  keeps R m -> (forall a, keeps R (k a)) -> keeps R (Eff.bind m k).
Proof.
  intros Hm Hk w. unfold Eff.bind. specialize (Hm w).
  destruct (m w) as [[a|e] w1]; cbn [snd] in *; [|assumption].
  eapply R_trans; [eassumption|apply Hk].
Qed.

Lemma keeps_try_catch {A} (m : M A) (h : string -> M A) :
  keeps R m -> (forall e, keeps R (h e)) -> keeps R (Eff.try_catch m h).
Proof.
  intros Hm Hh w. unfold Eff.try_catch. specialize (Hm w).
  destruct (m w) as [[a|e] w1]; cbn [snd] in *; [assumption|].
  eapply R_trans; [eassumption|apply Hh].
Qed.

End Keeps.

Lemma sameSearches_refl (w : World) : sameSearches w w.
Proof. reflexivity. Qed.

Lemma sameSearches_trans (w1 w2 w3 : World) :
  sameSearches w1 w2 -> sameSearches w2 w3 -> sameSearches w1 w3.
Proof. unfold sameSearches. congruence. Qed.

Lemma searches_snoc (t : list event) (e : event) :
  searches (t ++ [e]) = searches t ++ match e with Search _ q => [q] | _ => [] end.
Proof. unfold searches. rewrite omap_app. destruct e; reflexivity. Qed.

Lemma quiet_emit (e : event) :
  match e with Search _ _ => False | _ => True end -> keeps sameSearches (Eff.emit e).
Proof.
  intros He w. unfold sameSearches, Eff.emit. cbn [snd trace].
  rewrite searches_snoc. destruct e; try contradiction; apply app_nil_r.
Qed.

Lemma quiet_set_session (s : option nat) : keeps sameSearches (set_session s).
Proof. intros w. reflexivity. Qed.

Lemma quiet_set_lastCookies (c : jsv) : keeps sameSearches (set_lastCookies c).
Proof. intros w. reflexivity. Qed.

Ltac quiet :=
  repeat first
    [ apply keeps_ret; [exact sameSearches_refl]
    | apply keeps_throw; [exact sameSearches_refl]
    | apply keeps_lift; [exact sameSearches_refl]
    | apply keeps_get; [exact sameSearches_refl]
    | apply quiet_set_session
    | apply quiet_set_lastCookies
    | apply quiet_emit; exact I
    | apply keeps_bind; [exact sameSearches_trans| |intros ?]
    | apply keeps_try_catch; [exact sameSearches_trans| |intros ?]
    | match goal with
      | |- keeps _ (match ?x with _ => _ end) => destruct x
      end ].

Lemma initializeYouTube_quiet (E : Env) (options : yt_options) :
  keeps sameSearches (initializeYouTube E options).
Proof. unfold initializeYouTube. cbv zeta. quiet. Qed.

Lemma await_quiet (r : settled) : keeps sameSearches (await r).
Proof. unfold await. quiet. Qed.

Lemma getRelatedTracks_quiet (E : Env) (videoId : string) (options : yt_options) (limit : nat) :
  keeps sameSearches (getRelatedTracks E videoId options limit).
Proof.
  unfold getRelatedTracks. cbv zeta.
  apply keeps_try_catch; [exact sameSearches_trans| |intros ?; quiet].
  apply keeps_bind; [exact sameSearches_trans| |intros [session|]].
  - apply initializeYouTube_quiet.
  - apply keeps_bind; [exact sameSearches_trans| |intros moment].
    + apply quiet_emit. exact I.
    + apply keeps_bind; [exact sameSearches_trans| |intros info].
      * apply await_quiet.
      * quiet.
  - quiet.
Qed.

Lemma getRelatedTracks_total (E : Env) (videoId : string) (options : yt_options)
    (limit : nat) (w : World) :
  exists l w', getRelatedTracks E videoId options limit w = (Ok l, w').
Proof. apply try_catch_ret_total. Qed.

Lemma sameWorld_refl (w : World) : sameWorld w w.
Proof. reflexivity. Qed.

Lemma sameWorld_trans (w1 w2 w3 : World) :
  sameWorld w1 w2 -> sameWorld w2 w3 -> sameWorld w1 w3.
Proof. unfold sameWorld. congruence. Qed.

Ltac stable :=
  repeat first
    [ apply keeps_ret; [exact sameWorld_refl]
    | apply keeps_throw; [exact sameWorld_refl]
    | apply keeps_lift; [exact sameWorld_refl]
    | apply keeps_bind; [exact sameWorld_trans| |intros ?]
    | apply keeps_try_catch; [exact sameWorld_trans| |intros ?]
    | match goal with
      | |- keeps _ (match ?x with _ => _ end) => destruct x
      end ].

Lemma race_stable (r : raced) (timeoutMessage : string) :
  keeps sameWorld (race r timeoutMessage).
Proof. unfold race. stable. Qed.

(** A request followed by steps that leave the world alone adds
    exactly that request to the trace. *)
Lemma emit_then_stable {A} (e : event) (k : nat -> M A) (w : World) :
  (forall moment, keeps sameWorld (k moment)) ->
  ((let* moment := Eff.emit e in k moment) w).2 = add_event e w.
Proof.
  intros Hk. unfold Eff.bind, Eff.emit.
  specialize (Hk (length (trace w)) (add_event e w)). unfold sameWorld in Hk.
  fold (add_event e w).
  destruct (k _ _) as [[a|err] w']; exact Hk.
Qed.

Lemma searchYouTube_total (E : Env) (query : string) (limit : nat) (options : yt_options)
    (w : World) :
  exists l w', searchYouTube E query limit options w = (Ok l, w').
Proof. apply try_catch_ret_total. Qed.

(** [searchYouTube] sends its query once if a session is to be had,
    and nothing otherwise. *)
Lemma searchYouTube_searches (E : Env) (query : string) (limit : nat)
    (options : yt_options) (w : World) :
  searches (trace (searchYouTube E query limit options w).2) =
    searches (trace w) ++
    match (initializeYouTube E options w).1 with
    | Ok (Some _) => [query]
    | _ => []
    end.
Proof.
  pose proof (initializeYouTube_quiet E options w) as Hq. unfold sameSearches in Hq.
  unfold searchYouTube, Eff.try_catch, Eff.bind at 1.
  destruct (initializeYouTube E options w) as [[[session|]|e] w1]; cbn [fst snd] in *.
  - match goal with
    | |- context [Eff.bind (Eff.emit ?e) ?k w1] =>
        pose proof (emit_then_stable e k w1) as Hb
    end.
    destruct (Eff.bind _ _ w1) as [[l|e] w2]; cbn [snd] in *; unfold Eff.ret; cbn [snd];
      (rewrite Hb;
       [unfold add_event; cbn [trace]; rewrite searches_snoc, Hq; reflexivity|]);
      intros moment; cbv zeta;
      (apply keeps_bind; [exact sameWorld_trans|apply race_stable|intros ?]); stable.
  - cbn. rewrite Hq. by rewrite app_nil_r.
  - cbn. rewrite Hq. by rewrite app_nil_r.
Qed.

(** C10: [getRelatedTracks] of the extractor sends a search to the
    backend only for a track whose author is present and is not
    "Unknown Artist"; for a track without a known author whose
    recommendations are empty it sends none and returns the empty
    response; and for a track with a known author, empty
    recommendations and a session at hand, the search it sends is
    "{author} music". *)
Theorem related_fallback_needs_known_author
    (E : Env) (this : YtDlpExtractor.t) (track : Track.t) (history : list Track.t)
    (w : World) :
  let options := YtDlpExtractor.youtubeiOptions this in
  let result := YtDlpExtractor.getRelatedTracks E this track history w in
  (searches (trace result.2) <> searches (trace w) -> authorKnown track = true) /\
  (authorKnown track = false ->
   searches (trace result.2) = searches (trace w) /\
   forall videoId,
     extractYouTubeId (Track.url track) = Ok (Some videoId) ->
     (getRelatedTracks E videoId options 10 w).1 = Ok [] ->
     result.1 = Ok (createResponse None [])) /\
  (authorKnown track = true ->
   forall videoId w1 session,
     isYouTubeUrl (Track.url track) = true ->
     extractYouTubeId (Track.url track) = Ok (Some videoId) ->
     getRelatedTracks E videoId options 10 w = (Ok [], w1) ->
     (initializeYouTube E options w1).1 = Ok (Some session) ->
     searches (trace result.2) =
       searches (trace w) ++ [Js.to_string (Track.author track) +:+ " music"]).
Proof.
  intros options result.
  assert (Hquiet : authorKnown track = false ->
            searches (trace result.2) = searches (trace w) /\
            forall videoId,
              extractYouTubeId (Track.url track) = Ok (Some videoId) ->
              (getRelatedTracks E videoId options 10 w).1 = Ok [] ->
              result.1 = Ok (createResponse None [])).
  { intros Hknown.
    assert (Hcases :
              exists r w',
                result = (r, w') /\
                ((r = Ok (createResponse None []) /\ w' = w) \/
                 exists videoId l,
                   extractYouTubeId (Track.url track) = Ok (Some videoId) /\
                   getRelatedTracks E videoId options 10 w = (Ok l, w') /\
                   (l = [] -> r = Ok (createResponse None [])))).
    { subst result.
      unfold YtDlpExtractor.getRelatedTracks, Eff.try_catch.
      destruct (isYouTubeUrl (Track.url track)); cbn [negb];
        [|eexists _, _; split; [reflexivity|left; split; reflexivity]].
      unfold Eff.bind at 1, Eff.lift at 1.
      destruct (extractYouTubeId (Track.url track)) as [[videoId|]|e];
        [|eexists _, _; split; [reflexivity|left; split; reflexivity]
         |eexists _, _; split; [reflexivity|left; split; reflexivity]].
      unfold Eff.bind at 1. fold options.
      destruct (getRelatedTracks_total E videoId options 10 w) as (l & w1 & Hl).
      rewrite Hl.
      unfold authorKnown in Hknown. rewrite Hknown.
      destruct l as [|t l]; cbn [length Nat.eqb].
      - unfold Eff.bind, Eff.ret. cbn [List.filter length Nat.eqb fst snd].
        eexists _, _. split; [reflexivity|]. right. exists videoId, [].
        split; [reflexivity|split; [exact Hl|intros _; reflexivity]].
      - unfold Eff.bind, Eff.ret at 1.
        destruct (length _ =? 0)%nat;
          (eexists _, _; split; [reflexivity|]; right; exists videoId, (t :: l);
           split; [reflexivity|split; [exact Hl|discriminate]]). }
    destruct Hcases as (r & w' & Hres & [[-> ->]|(videoId & l & Hid & Hl & Hempty)]);
      rewrite Hres; cbn [fst snd].
    - split; [reflexivity|intros; reflexivity].
    - pose proof (getRelatedTracks_quiet E videoId options 10 w) as Hq.
      unfold sameSearches in Hq. rewrite Hl in Hq. cbn [snd] in Hq.
      split; [exact Hq|].
      intros videoId' Hid' Hnone. rewrite Hid in Hid'. injection Hid' as <-.
      rewrite Hl in Hnone. injection Hnone as ->. apply Hempty. reflexivity. }
  split; [|split; [exact Hquiet|]].
  - intros Hdiff. destruct (authorKnown track) eqn:Hknown; [reflexivity|].
    exfalso. apply Hdiff. apply Hquiet. reflexivity.
  - intros Hknown videoId w1 session Hyt Hid Hl Hinit. subst result.
    pose proof (getRelatedTracks_quiet E videoId options 10 w) as Hq.
    unfold sameSearches in Hq. rewrite Hl in Hq. cbn [snd] in Hq.
    pose proof (searchYouTube_searches E
                  (Js.to_string (Track.author track) +:+ " music") 5 options w1) as Hs.
    rewrite Hinit, Hq in Hs.
    unfold YtDlpExtractor.getRelatedTracks, Eff.try_catch.
    rewrite Hyt. cbn [negb].
    unfold Eff.bind at 1, Eff.lift at 1. rewrite Hid.
    unfold Eff.bind at 1. fold options. rewrite Hl. cbn [length Nat.eqb].
    unfold authorKnown in Hknown. rewrite Hknown.
    unfold Eff.bind. fold options.
    destruct (searchYouTube_total E (Js.to_string (Track.author track) +:+ " music")
                5 options w1) as (l2 & w2 & Hl2).
    rewrite Hl2 in Hs |- *. cbn [snd] in Hs.
    destruct (length _ =? 0)%nat; exact Hs.
Qed.

(** The statement of C10 on the examples: with a live backend that
    has no recommendations, the track of a named artist makes the
    extractor search for the artist, and the track without a known
    author gives the empty response and no search. *)
Lemma related_fallback_needs_known_author_witness :
  authorKnown (Seed.track (Str "Rick Astley")) = true /\
  searches (trace (YtDlpExtractor.getRelatedTracks Demo.connected (Demo.extractor Null)
                     (Seed.track (Str "Unknown Artist")) [] Demo.startup).2) = [] /\
  (YtDlpExtractor.getRelatedTracks Demo.connected (Demo.extractor Null)
     (Seed.track (Str "Unknown Artist")) [] Demo.startup).1 = Ok (createResponse None []) /\
  searches (trace (YtDlpExtractor.getRelatedTracks Demo.connected (Demo.extractor Null)
                     (Seed.track (Str "Rick Astley")) [] Demo.startup).2)
    = ["Rick Astley music"].
Proof.
  destruct (related_fallback_needs_known_author Demo.connected (Demo.extractor Null)
              (Seed.track (Str "Rick Astley")) [] Demo.startup) as (Honly & _ & Hsent).
  destruct (related_fallback_needs_known_author Demo.connected (Demo.extractor Null)
              (Seed.track (Str "Unknown Artist")) [] Demo.startup) as (_ & Hnone & _).
  destruct (Hnone eq_refl) as [Hsame Hempty].
  split; [apply Honly; vm_compute; discriminate|].
  split; [exact Hsame|].
  split; [apply (Hempty "dQw4w9WgXcQ"); vm_compute; reflexivity|].
  apply (Hsent eq_refl "dQw4w9WgXcQ"
           (getRelatedTracks Demo.connected "dQw4w9WgXcQ"
              {| cookies := Null; client := Null |} 10 Demo.startup).2 0%nat);
    vm_compute; reflexivity.
Defined.

(** * The statements on the examples *)

(** C2 at 3661 seconds and at 59 seconds *)
Lemma formatDuration_spec_witness :
  formatDuration (Str " 3661 ") = Ok "1:01:01" /\ formatDuration (Frac 119 1) = Ok "0:59".
Proof.
  destruct (formatDuration_spec (Str " 3661 ")) as (_ & _ & Hh & _).
  destruct (formatDuration_spec (Frac 119 1)) as (_ & _ & Hm & _).
  split.
  - apply (Hh 3661 0%N); [reflexivity|lia|reflexivity].
  - apply (Hm 119 1%N); [reflexivity|lia|reflexivity].
Defined.

(** C6 on ten entries of which the fourth has no id *)
Lemma batches_preserve_order_witness :
  batches 10 Batch.videos 0 [] = omap resolved (Batch.before ++ Batch.after) /\
  length (batches 10 Batch.videos 0 []) = 9%nat.
Proof.
  destruct (batches_preserve_order Batch.videos) as (_ & _ & _ & Hfourth).
  destruct (Hfourth Batch.before Batch.after Batch.broken
              (omap resolved Batch.before) (omap resolved Batch.after))
    as [Horder Hnine]; try reflexivity.
  split; [|exact Hnine].
  rewrite omap_app. exact Horder.
Defined.

(** C5: a session created for one credential, then a call with
    another credential, then three more with that one *)
Lemma session_recreated_exactly_on_change_witness :
  let first := {| cookies := Str "SID=one"; client := Null |} in
  let second := {| cookies := Str "SID=two"; client := Null |} in
  let w0 := (initializeYouTube Demo.connected first Demo.startup).2 in
  let w1 := (initializeYouTube Demo.connected second w0).2 in
  trace w1 = [Create (initOptionsFor first); SignOut 0; Create (initOptionsFor second)] /\
  initializeTimes Demo.connected second 3 w1 = (replicate 3 (Ok (Some 2%nat)), w1) /\
  initializeTimes Demo.connected first 3 w0 = (replicate 3 (Ok (Some 0%nat)), w0).
Proof.
  intros first second w0 w1.
  destruct (session_recreated_exactly_on_change Demo.connected second w0)
    as (_ & _ & Hchange & _).
  destruct (session_recreated_exactly_on_change Demo.connected first w0)
    as (_ & _ & _ & Hsame).
  destruct (Hchange 0%nat) as (Htrace & _ & _ & Hreuse); try reflexivity.
  split; [exact Htrace|]. split; [exact (Hreuse 3%nat)|].
  apply Hsame; reflexivity.
Defined.

(** C8: two calls of [stream] for the same track, answered with two
    different URLs *)
Lemma stream_never_cached_witness :
  let this := Demo.extractor Null in
  let track := Seed.track (Str "Rick Astley") in
  let first := YtDlpExtractor.stream Streaming.env this track Demo.startup in
  let second := YtDlpExtractor.stream Streaming.env this track first.2 in
  first.1 = Ok "https://cdn.example/audio?n=0" /\
  second.1 = Ok "https://cdn.example/audio?n=1" /\
  length (execs (trace second.2)) = 2%nat.
Proof.
  intros this track first second.
  destruct (stream_never_cached Streaming.env this track Demo.startup)
    as (_ & Htwo & Hfirst & Hsecond).
  - reflexivity.
  - exists "ELF". reflexivity.
  - discriminate.
  - split; [exact Hfirst|]. split; [exact Hsecond|].
    fold first second in Htwo. rewrite Htwo. reflexivity.
Defined.

(** C1 on the URL of a playlist the backend does not know *)
Lemma handle_catches_what_handleDirectUrl_propagates_witness :
  let this := Demo.extractor Null in
  let url := "https://www.youtube.com/playlist?list=PL123" in
  (YtDlpExtractor.handleDirectUrl Demo.connected this url Demo.context Demo.startup).1
    = Throw "Playlist not found. Please check the playlist ID." /\
  (YtDlpExtractor.handle Demo.connected this url Demo.context Demo.startup).1
    = Ok (createResponse None []).
Proof.
  intros this url.
  destruct (handle_catches_what_handleDirectUrl_propagates Demo.connected this url
              Demo.context Demo.startup) as (_ & Hcatch & Hplaylist & _).
  pose (failed := getYouTubePlaylist Demo.connected "PL123"
                    (YtDlpExtractor.youtubeiOptions this) Demo.startup).
  assert (Hdirect :
            YtDlpExtractor.handleDirectUrl Demo.connected this url Demo.context Demo.startup
            = (Throw "Playlist not found. Please check the playlist ID.", failed.2)).
  { apply (Hplaylist "PL123"); reflexivity. }
  split; [exact (f_equal fst Hdirect)|].
  exact (f_equal fst (Hcatch _ _ eq_refl Hdirect)).
Defined.

(** * Further properties of the code *)

(** ** The external extractor *)

Lemma existsSync_missing (path : string) (w : World) :
  files w !! path = None -> existsSync path w = (Ok false, w).
Proof.
  intros H. unfold existsSync. rewrite bool_decide_eq_false_2; [reflexivity|].
  rewrite H. by inversion 1.
Qed.

(** X1: a streaming URL that [getStreamingUrl], [stream] or [bridge]
    returns is never empty and begins with http, whatever the process
    printed. *)
Theorem streaming_url_begins_with_http
    (E : Env) (this : YtDlpExtractor.t) (w : World) (s : string) :
  (forall url ytdlpPath quality cookies,
     (getStreamingUrl E url ytdlpPath quality cookies w).1 = Ok s ->
     s <> EmptyString /\ JsString.startsWith "http" s = true) /\
  (forall info,
     (YtDlpExtractor.stream E this info w).1 = Ok s ->
     s <> EmptyString /\ JsString.startsWith "http" s = true) /\
  (forall track source,
     (YtDlpExtractor.bridge E this track source w).1 = Ok (Some s) ->
     s <> EmptyString /\ JsString.startsWith "http" s = true).
Proof.
  assert (Hcheck : forall t,
            String.eqb t EmptyString || negb (JsString.startsWith "http" t) = false ->
            t <> EmptyString /\ JsString.startsWith "http" t = true).
  { intros t H. apply orb_false_iff in H as [H1 H2].
    apply String.eqb_neq in H1. apply negb_false_iff in H2. auto. }
  assert (Hstream : forall info,
            (YtDlpExtractor.stream E this info w).1 = Ok s ->
            s <> EmptyString /\ JsString.startsWith "http" s = true).
  { intros info. unfold YtDlpExtractor.stream, Eff.try_catch, Eff.bind.
    destruct (negb (Js.truthy _)); [discriminate|].
    destruct (getStreamingUrl E _ _ _ _ w) as [[t|e] w1]; [|discriminate].
    destruct (String.eqb t EmptyString || negb (JsString.startsWith "http" t)) eqn:Ht;
      [discriminate|].
    intros [= <-]. by apply Hcheck. }
  split; [|split; [exact Hstream|]].
  - intros url ytdlpPath quality cookies H.
    destruct (files w !! ytdlpPath) eqn:Hbin.
    + rewrite getStreamingUrl_run in H by eauto. cbn [fst] in H.
      apply Hcheck. by eapply streamResult_Ok.
    + unfold getStreamingUrl, Eff.try_catch, Eff.bind in H.
      rewrite existsSync_missing in H by assumption. discriminate H.
  - intros track source. unfold YtDlpExtractor.bridge, Eff.try_catch, Eff.bind.
    destruct (negb (Js.strict_eq source _)); [|discriminate].
    pose proof (Hstream track) as Ht.
    destruct (YtDlpExtractor.stream E this track w) as [[t|e] w1]; [|discriminate].
    intros [= <-]. by apply Ht.
Qed.

Lemma streaming_url_begins_with_http_witness :
  JsString.startsWith "http" "https://cdn.example/audio?n=0" = true.
Proof.
  destruct (streaming_url_begins_with_http Streaming.env (Demo.extractor Null)
              Demo.startup "https://cdn.example/audio?n=0") as (_ & Hstream & _).
  apply (Hstream (Seed.track (Str "Rick Astley"))). reflexivity.
Defined.

(** X2: without the yt-dlp binary on disk nothing is started and
    nothing is written: the three operations that need it and
    [activate] throw the same error, [canExtract] answers [false], and
    the world is as before. *)
Theorem missing_binary_starts_nothing
    (E : Env) (this : YtDlpExtractor.t) (ytdlpPath : string) (w : World) :
  files w !! ytdlpPath = None ->
  let missing := "yt-dlp binary not found at: " +:+ ytdlpPath in
  (forall url quality cookies,
     getStreamingUrl E url ytdlpPath quality cookies w = (Throw missing, w)) /\
  (forall videoId cookies,
     getYouTubeMetadataWithYtDlp E videoId ytdlpPath cookies w = (Throw missing, w)) /\
  (forall url, getBasicInfo E url ytdlpPath w = (Throw missing, w)) /\
  (forall url, canExtract E url ytdlpPath w = (Ok false, w)) /\
  (YtDlpExtractor.ytdlpPath this = ytdlpPath ->
   YtDlpExtractor.activate this w = (Throw missing, w)).
Proof.
  intros Hbin missing. repeat split.
  - intros. unfold getStreamingUrl, Eff.try_catch, Eff.bind.
    by rewrite existsSync_missing.
  - intros. unfold getYouTubeMetadataWithYtDlp, Eff.try_catch, Eff.bind.
    by rewrite existsSync_missing.
  - intros. unfold getBasicInfo, Eff.try_catch, Eff.bind.
    by rewrite existsSync_missing.
  - intros. unfold canExtract, Eff.try_catch, Eff.bind.
    by rewrite existsSync_missing.
  - intros <-. unfold YtDlpExtractor.activate, Eff.bind.
    by rewrite existsSync_missing.
Qed.

Lemma missing_binary_starts_nothing_witness :
  getBasicInfo Demo.connected "https://vimeo.com/1" "/opt/yt-dlp" Demo.startup
  = (Throw "yt-dlp binary not found at: /opt/yt-dlp", Demo.startup).
Proof.
  destruct (missing_binary_starts_nothing Demo.connected (Demo.extractor Null)
              "/opt/yt-dlp" Demo.startup) as (_ & _ & Hbasic & _).
  - reflexivity.
  - apply Hbasic.
Defined.

(** ** Track values *)

Lemma or_truthy (a d : jsv) : Js.truthy d = true -> Js.truthy (Js.or a d) = true.
Proof. intros Hd. unfold Js.or. destruct (Js.truthy a) eqn:Ha; assumption. Qed.

Lemma or_Null (a : jsv) : Js.truthy (Js.or a Null) = true \/ Js.or a Null = Null.
Proof. unfold Js.or. destruct (Js.truthy a) eqn:Ha; auto. Qed.

Lemma videoTrack_Ok (video : jsv) (t : TrackInfo) :
  videoTrack video = Ok t ->
  Member.nullish video = false /\ wellFormed t /\ t_id t = Member.lookup "id" video.
Proof.
  unfold videoTrack, Member.get. destruct (Member.nullish video); [discriminate|].
  cbn [Pure.bind]. intros [= <-]. split; [reflexivity|]. split; [|reflexivity].
  split; [|reflexivity]. cbn [t_title t_author t_duration t_thumbnail].
  repeat split; try (apply or_truthy; reflexivity). apply or_Null.
Qed.

Lemma map_x_Forall2 {A B} (f : A -> outcome B) (xs : list A) (ys : list B) :
  map_x f xs = Ok ys -> Forall2 (fun x y => f x = Ok y) xs ys.
Proof.
  revert ys. induction xs as [|x xs IH]; intros ys H.
  - injection H as <-. constructor.
  - cbn [map_x] in H. destruct (f x) as [y|e] eqn:Hy; [|discriminate H].
    cbn [Pure.bind] in H. destruct (map_x f xs) as [ys'|e]; [|discriminate H].
    cbn [Pure.bind] in H. injection H as <-. constructor; auto.
Qed.

Lemma map_x_videoTrack_wellFormed (videos : list jsv) (ts : list TrackInfo) :
  map_x videoTrack videos = Ok ts ->
  length ts = length videos /\ Forall wellFormed ts.
Proof.
  intros H. apply map_x_Forall2 in H.
  split; [symmetry; by eapply Forall2_length|].
  induction H as [|v t videos ts Hv _ IH]; constructor; [|exact IH].
  apply videoTrack_Ok in Hv. tauto.
Qed.

(** X3: every track value the builders of the utilities return has a
    title, an author and a duration that are not falsy, and a
    thumbnail that is a value or [null]: what the backend leaves out is
    replaced by a sentinel. *)
Theorem builders_fill_in_sentinels (v info source : jsv) (videoId : string) (views0 : jsv) :
  (forall t, videoTrack v = Ok t -> wellFormed t) /\
  (forall t, entryTrack v = Ok (Some t) -> wellFormed t /\ Js.truthy (t_id t) = true) /\
  wellFormed (infoTrack videoId info views0) /\
  (forall o, createTrackObject info source = Ok o ->
     filled (o_title o) (o_author o) (o_duration o) (o_thumbnail o)).
Proof.
  split; [intros t H; apply videoTrack_Ok in H; tauto|].
  split.
  { intros t. unfold entryTrack, Member.get.
    destruct (Member.nullish v); [discriminate|]. cbn [Pure.bind Pure.try_catch].
    destruct (Js.truthy (Js.or _ _)) eqn:Hid; cbn [negb]; [|discriminate].
    intros [= <-]. split; [|exact Hid]. split; [|reflexivity].
    cbn [t_title t_author t_duration t_thumbnail].
    repeat split; try (apply or_truthy; reflexivity). apply or_Null. }
  split.
  { split; [|reflexivity]. cbn [infoTrack t_title t_author t_duration t_thumbnail].
    repeat split; try (apply or_truthy; reflexivity). apply or_Null. }
  intros o. unfold createTrackObject, Member.get.
  destruct (Member.nullish info); [discriminate|]. cbn [Pure.bind].
  intros [= <-]. cbn [o_title o_author o_duration o_thumbnail].
  repeat split; try (apply or_truthy; reflexivity). apply or_Null.
Qed.

Lemma builders_fill_in_sentinels_witness :
  wellFormed
    {| t_id := Undef; t_title := Str "Unknown Title"; t_duration := Str "Unknown";
       t_thumbnail := Null; t_url := Str "https://www.youtube.com/watch?v=undefined";
       t_author := Str "Unknown Artist"; t_views := Str "0"; t_description := Undef |}.
Proof.
  destruct (builders_fill_in_sentinels (Obj 0 []) Null Null "x" Null) as (Hvideo & _).
  apply Hvideo. reflexivity.
Defined.

(** ** Search *)

Lemma searchYouTube_shape (E : Env) (query : string) (limit : nat)
    (options : yt_options) (w : World) :
  exists l w',
    searchYouTube E query limit options w = (Ok l, w') /\
    (l = [] \/ exists items, map_x videoTrack (take limit items) = Ok l).
Proof.
  unfold searchYouTube, Eff.try_catch, Eff.bind at 1.
  destruct (initializeYouTube E options w) as [[[session|]|e] w1];
    [|eexists _, _; split; [reflexivity|left; reflexivity]..].
  unfold Eff.bind, Eff.emit, race, Eff.lift, Eff.ret, Eff.throw, Member.get.
  destruct (yt_search E _ session query) as [[results|e]|];
    [|eexists _, _; split; [reflexivity|left; reflexivity]..].
  destruct (Member.nullish results);
    [eexists _, _; split; [reflexivity|left; reflexivity]|].
  destruct (negb (Js.truthy _) || Js.strict_eq _ _);
    [eexists _, _; split; [reflexivity|left; reflexivity]|].
  destruct (Member.lookup "videos" results) as [| | | | | |r ps|r items| |]; cbn [as_array];
    try (eexists _, _; split; [reflexivity|left; reflexivity]).
  destruct (map_x videoTrack (take limit items)) as [l|e] eqn:Hl.
  - eexists _, _. split; [reflexivity|]. right. eauto.
  - eexists _, _. split; [reflexivity|left; reflexivity].
Qed.

(** X4: [searchYouTube] never throws and returns at most [limit]
    tracks, each with its sentinels and with the watch URL of its id. *)
Theorem searchYouTube_at_most_limit (E : Env) (query : string) (limit : nat)
    (options : yt_options) (w : World) :
  exists l w',
    searchYouTube E query limit options w = (Ok l, w') /\
    (length l <= limit)%nat /\
    Forall wellFormed l.
Proof.
  destruct (searchYouTube_shape E query limit options w)
    as (l & w' & Hrun & [->|(items & Hl)]).
  - exists [], w'. split; [exact Hrun|]. split; [cbn; lia|constructor].
  - exists l, w'. split; [exact Hrun|].
    apply map_x_videoTrack_wellFormed in Hl as [Hlen Hwf].
    split; [|exact Hwf]. rewrite Hlen, length_take. lia.
Qed.

Lemma map_x_videoTrack_null (videos : list jsv) :
  Exists (fun v => Member.nullish v = true) videos ->
  exists e, map_x videoTrack videos = Throw e.
Proof.
  induction 1 as [v videos Hv|v videos _ [e IH]].
  - cbn [map_x]. unfold videoTrack at 1, Member.get. rewrite Hv. cbn. eauto.
  - cbn [map_x]. destruct (videoTrack v); cbn [Pure.bind]; [|eauto].
    rewrite IH. cbn. eauto.
Qed.

(** X5: the results of a search are taken all or none: when one of the
    first [limit] videos the backend lists is [null] or [undefined],
    [searchYouTube] returns no track at all (an entry of a playlist in
    that state is only left out, see C6). *)
Theorem searchYouTube_all_or_nothing (E : Env) (query : string) (limit : nat)
    (options : yt_options) (w w1 : World) (session : nat) (results : jsv)
    (r : nat) (items : list jsv) :
  initializeYouTube E options w = (Ok (Some session), w1) ->
  yt_search E (length (trace w1)) session query = Settled (Resolved results) ->
  Member.lookup "videos" results = Arr r items ->
  Exists (fun v => Member.nullish v = true) (take limit items) ->
  searchYouTube E query limit options w = (Ok [], add_event (Search session query) w1).
Proof.
  intros Hinit Hsearch Hvideos Hnull.
  assert (Hres : Member.nullish results = false).
  { destruct results; try discriminate Hvideos; reflexivity. }
  destruct (map_x_videoTrack_null _ Hnull) as [e He].
  assert (Hitems : items <> []).
  { intros ->. rewrite take_nil in Hnull. inversion Hnull. }
  unfold searchYouTube, Eff.try_catch, Eff.bind at 1. rewrite Hinit.
  unfold Eff.bind, Eff.emit, race, Eff.lift, Eff.ret, Eff.throw, Member.get.
  rewrite Hsearch, Hres, Hvideos. cbn [Js.truthy negb orb Member.lookup].
  cbn [String.eqb Ascii.eqb Bool.eqb Js.strict_eq as_array].
  destruct items as [|v items]; [contradiction|].
  change (Z.of_nat (length (v :: items)) =? 0) with false. cbv iota.
  rewrite He. reflexivity.
Qed.

Lemma searchYouTube_all_or_nothing_witness :
  (searchYouTube Listing.env "song" 5 {| cookies := Null; client := Null |} Demo.startup).1
  = Ok [].
Proof.
  rewrite (searchYouTube_all_or_nothing Listing.env "song" 5
             {| cookies := Null; client := Null |} Demo.startup
             (initializeYouTube Listing.env {| cookies := Null; client := Null |}
                Demo.startup).2
             0 Listing.results 2 [Backend.compactVideo 0; Null]).
  - reflexivity.
  - reflexivity.
  - reflexivity.
  - reflexivity.
  - apply Exists_cons_tl, Exists_cons_hd. reflexivity.
Defined.

(** ** Related tracks, continued *)

Lemma filter_x_playable (feed playable : list jsv) :
  filter_x isCompactVideo feed = Ok playable ->
  Forall (fun v => Js.truthy (Member.lookup "id" v) = true) playable.
Proof.
  revert playable. induction feed as [|v feed IH]; intros playable H.
  - injection H as <-. constructor.
  - cbn [filter_x] in H. unfold isCompactVideo at 1, Member.get in H.
    destruct (Member.nullish v) eqn:Hv; [discriminate H|].
    cbn [Pure.bind] in H.
    destruct (filter_x isCompactVideo feed) as [ys|e]; [|discriminate H].
    cbn [Pure.bind] in H. injection H as <-.
    specialize (IH ys eq_refl).
    destruct (Js.strict_eq _ _ && Js.truthy (Member.lookup "id" v) && _) eqn:Hkeep;
      [|assumption].
    constructor; [|assumption].
    apply andb_true_iff in Hkeep as [Hkeep _]. apply andb_true_iff in Hkeep. tauto.
Qed.

Lemma getRelatedTracks_shape (E : Env) (videoId : string) (options : yt_options)
    (limit : nat) (w : World) :
  exists l w',
    getRelatedTracks E videoId options limit w = (Ok l, w') /\
    (l = [] \/
     exists feed playable,
       filter_x isCompactVideo feed = Ok playable /\
       map_x videoTrack (take limit playable) = Ok l).
Proof.
  unfold getRelatedTracks, Eff.try_catch, Eff.bind at 1.
  destruct (initializeYouTube E options w) as [[[session|]|e] w1];
    [|eexists _, _; split; [reflexivity|left; reflexivity]..].
  unfold Eff.bind, Eff.emit, await, Eff.lift, Eff.ret, Eff.throw.
  destruct (yt_getInfo E _ session videoId) as [info|e];
    [|eexists _, _; split; [reflexivity|left; reflexivity]].
  destruct (negb (Js.truthy info) || negb (Js.truthy _));
    [eexists _, _; split; [reflexivity|left; reflexivity]|].
  destruct (Member.opt "watch_next_feed" info) as [| | | | | |r ps|r feed| |];
    cbn [as_array Pure.bind];
    try (eexists _, _; split; [reflexivity|left; reflexivity]).
  destruct (filter_x isCompactVideo feed) as [playable|e] eqn:Hf; cbn [Pure.bind];
    [|eexists _, _; split; [reflexivity|left; reflexivity]].
  destruct (map_x videoTrack (take limit playable)) as [l|e] eqn:Hl.
  - eexists _, _. split; [reflexivity|]. right. eauto.
  - eexists _, _. split; [reflexivity|left; reflexivity].
Qed.

(** X6: [getRelatedTracks] of the utilities never throws and returns
    at most [limit] tracks; each has a truthy id, the watch URL of that
    id, and its sentinels. *)
Theorem related_tracks_at_most_limit (E : Env) (videoId : string)
    (options : yt_options) (limit : nat) (w : World) :
  exists l w',
    getRelatedTracks E videoId options limit w = (Ok l, w') /\
    (length l <= limit)%nat /\
    Forall (fun t => wellFormed t /\ Js.truthy (t_id t) = true) l.
Proof.
  destruct (getRelatedTracks_shape E videoId options limit w)
    as (l & w' & Hrun & [->|(feed & playable & Hf & Hl)]).
  - exists [], w'. split; [exact Hrun|]. split; [cbn; lia|constructor].
  - exists l, w'. split; [exact Hrun|].
    pose proof (map_x_videoTrack_wellFormed _ _ Hl) as [Hlen _].
    split; [rewrite Hlen, length_take; lia|].
    apply filter_x_playable in Hf. apply (Forall_take _ limit) in Hf.
    apply map_x_Forall2 in Hl.
    remember (take limit playable) as vs eqn:Hvs. clear Hvs Hlen Hrun.
    induction Hl as [|v t vs ts Hv _ IH]; [constructor|].
    inversion Hf as [|? ? Hid Hf']; subst.
    constructor; [|by apply IH].
    apply videoTrack_Ok in Hv as (_ & Hwf & Ht). split; [exact Hwf|]. by rewrite Ht.
Qed.

Lemma related_response (track : Track.t) (history : list Track.t) (l : list TrackInfo) :
  let kept :=
    List.filter
      (fun trackData =>
         negb (existsb (YtDlpExtractor.sameValueZero (t_url trackData))
                 (map Track.url history))
         && negb (Js.strict_eq (t_url trackData) (Track.url track))) l in
  let found :=
    map (fun trackData =>
           YtDlpExtractor.newTrack trackData
             [("relatedTo", Track.url track); ("autoplay", Bool true)]
             (Track.requestedBy track) "autoplay" None)
        (take 5 kept) in
  (length found <= 5)%nat /\ Forall (fresh track history) found.
Proof.
  intros kept found. subst found. split.
  - rewrite length_map, length_take. lia.
  - apply Forall_map, Forall_take. subst kept.
    apply Forall_forall. intros t Ht. apply list_elem_of_In, List.filter_In in Ht as [_ Ht].
    apply andb_true_iff in Ht as [H1 H2].
    apply negb_true_iff in H1, H2. repeat split; assumption.
Qed.

(** X7: [getRelatedTracks] of the extractor never throws; it returns
    no playlist and at most five tracks, none of which has the URL of
    a track of the history or of the seed track, all marked as
    autoplay. *)
Theorem related_tracks_are_fresh
    (E : Env) (this : YtDlpExtractor.t) (track : Track.t) (history : list Track.t)
    (w : World) :
  exists r w',
    YtDlpExtractor.getRelatedTracks E this track history w = (Ok r, w') /\
    playlist r = None /\
    (length (tracks r) <= 5)%nat /\
    Forall (fresh track history) (tracks r).
Proof.
  assert (Hempty : forall w' : World, exists (r : ExtractorInfo) (w'' : World),
            (Ok (createResponse None []), w') = (Ok r, w'') /\
            playlist r = None /\ (length (tracks r) <= 5)%nat /\
            Forall (fresh track history) (tracks r)).
  { intros w'. eexists _, _. split; [reflexivity|]. cbn. repeat split; [lia|constructor]. }
  assert (Hfinish : forall (l : list TrackInfo) (w' : World),
            exists (r : ExtractorInfo) (w'' : World),
            (let* relatedTracks := Eff.ret l in
             let historyUrls := map Track.url history in
             let filteredTracks :=
               List.filter
                 (fun trackData =>
                    negb (existsb (YtDlpExtractor.sameValueZero (t_url trackData)) historyUrls)
                    && negb (Js.strict_eq (t_url trackData) (Track.url track)))
                 relatedTracks in
             if (length filteredTracks =? 0)%nat then Eff.ret (createResponse None [])
             else
               let tracks :=
                 map (fun trackData =>
                        YtDlpExtractor.newTrack trackData
                          [("relatedTo", Track.url track); ("autoplay", Bool true)]
                          (Track.requestedBy track) "autoplay" None)
                     (take 5 filteredTracks) in
               Eff.ret (createResponse None tracks)) w' = (Ok r, w'') /\
            playlist r = None /\ (length (tracks r) <= 5)%nat /\
            Forall (fresh track history) (tracks r)).
  { intros l w'. unfold Eff.bind, Eff.ret. cbv zeta.
    destruct (length _ =? 0)%nat; [apply Hempty|].
    eexists _, _. split; [reflexivity|]. split; [reflexivity|].
    apply related_response. }
  unfold YtDlpExtractor.getRelatedTracks, Eff.try_catch.
  destruct (isYouTubeUrl (Track.url track)); cbn [negb]; [|apply Hempty].
  unfold Eff.bind at 1, Eff.lift at 1.
  destruct (extractYouTubeId (Track.url track)) as [[videoId|]|e];
    [|apply Hempty|apply Hempty].
  unfold Eff.bind at 1.
  destruct (getRelatedTracks_total E videoId (YtDlpExtractor.youtubeiOptions this) 10 w)
    as (l & w1 & Hl).
  rewrite Hl.
  unfold Eff.bind at 1.
  destruct l as [|t l]; cbn [length Nat.eqb].
  - destruct (Js.truthy _ && negb _).
    + destruct (searchYouTube_total E
                  (Js.to_string (Track.author track) +:+ " music") 5
                  (YtDlpExtractor.youtubeiOptions this) w1) as (l2 & w2 & Hl2).
      rewrite Hl2.
      destruct (Hfinish l2 w2) as (r & w'' & Hr & Hprops).
      unfold Eff.bind at 1, Eff.ret at 1 in Hr.
      destruct (_ w2) as [[r'|e'] w3] eqn:Hrun in Hr |- *.
      all: try (rewrite Hrun).
      all: eauto.
    + destruct (Hfinish [] w1) as (r & w'' & Hr & Hprops).
      unfold Eff.bind at 1, Eff.ret at 1 in Hr. unfold Eff.ret at 1.
      destruct (_ w1) as [[r'|e'] w3] eqn:Hrun in Hr |- *; eauto.
  - destruct (Hfinish (t :: l) w1) as (r & w'' & Hr & Hprops).
    unfold Eff.bind at 1, Eff.ret at 1 in Hr. unfold Eff.ret at 1.
    destruct (_ w1) as [[r'|e'] w3] eqn:Hrun in Hr |- *; eauto.
Qed.

(** ** Handling a query, continued *)

(** X8: [handleSearchQuery] never throws and returns no playlist and
    at most one track, which is marked as the result of a search and
    records the query it answers; with the search disabled it returns
    the empty response and leaves the world as it is (no session, no
    request). *)
Theorem handleSearchQuery_at_most_one
    (E : Env) (this : YtDlpExtractor.t) (query : string) (context : Context) (w : World) :
  (exists r w',
     YtDlpExtractor.handleSearchQuery E this query context w = (Ok r, w') /\
     playlist r = None /\
     (length (tracks r) <= 1)%nat /\
     Forall (fun t => Track.queryType t = "youtubeSearch" /\
                      Js.assoc "originalQuery" (Track.rawExtra t) = Str query)
            (tracks r)) /\
  (YtDlpExtractor.enableYouTubeSearch this = false ->
   YtDlpExtractor.handleSearchQuery E this query context w
   = (Ok (createResponse None []), w)).
Proof.
  split.
  - unfold YtDlpExtractor.handleSearchQuery, Eff.try_catch.
    destruct (negb (YtDlpExtractor.enableYouTubeSearch this)).
    { eexists _, _. split; [reflexivity|]. cbn. repeat split; [lia|constructor]. }
    unfold Eff.bind.
    destruct (searchYouTube_total E query 1 (YtDlpExtractor.youtubeiOptions this) w)
      as (l & w1 & Hl).
    rewrite Hl. destruct l as [|result l]; unfold Eff.ret.
    + eexists _, _. split; [reflexivity|]. cbn. repeat split; [lia|constructor].
    + eexists _, _. split; [reflexivity|]. cbn. repeat split; [lia|].
      constructor; [|constructor]. repeat split.
  - intros Hoff. unfold YtDlpExtractor.handleSearchQuery, Eff.try_catch.
    rewrite Hoff. reflexivity.
Qed.

Lemma handleSearchQuery_at_most_one_witness :
  YtDlpExtractor.handleSearchQuery Listing.env
    {| YtDlpExtractor.ytdlpPath := Demo.binary;
       YtDlpExtractor.enableYouTubeSearch := false;
       YtDlpExtractor.enableDirectUrls := true;
       YtDlpExtractor.streamQuality := "bestaudio";
       YtDlpExtractor.youtubeiOptions := {| cookies := Null; client := Null |} |}
    "song" Demo.context Demo.startup
  = (Ok (createResponse None []), Demo.startup).
Proof.
  apply handleSearchQuery_at_most_one. reflexivity.
Defined.

(** X9: a URL whose scheme is file, ftp or mailto is never handed to
    a backend by [handle]: [handleDirectUrl] refuses it as an invalid
    URL, [handle] answers with the empty response, and the world is as
    before. *)
Theorem unsupported_scheme_is_not_handled
    (E : Env) (this : YtDlpExtractor.t) (query : string) (context : Context)
    (w : World) (u : URL) :
  query <> EmptyString ->
  new_URL E query = Some u ->
  scheme u = "file" \/ scheme u = "ftp" \/ scheme u = "mailto" ->
  YtDlpExtractor.handleDirectUrl E this query context w
    = (Throw "Invalid URL format", w) /\
  YtDlpExtractor.handle E this query context w = (Ok (createResponse None []), w).
Proof.
  intros Hq Hu Hscheme.
  assert (Hvalid : validateUrl E (Str query) = Ok false).
  { destruct (validateUrl_total E (Str query)) as [[|] Hb]; [|exact Hb].
    apply validateUrl_true in Hb as (s & u' & [= <-] & _ & Hu' & Hok).
    rewrite Hu in Hu'. injection Hu' as <-. contradiction. }
  assert (Hdirect : YtDlpExtractor.handleDirectUrl E this query context w
                    = (Throw "Invalid URL format", w)).
  { unfold YtDlpExtractor.handleDirectUrl, Eff.try_catch, Eff.bind, Eff.lift.
    rewrite Hvalid. reflexivity. }
  split; [exact Hdirect|].
  unfold YtDlpExtractor.handle, Eff.try_catch.
  unfold isValidUrl, construct_URL. cbn [Js.to_string]. rewrite Hu, Hdirect.
  reflexivity.
Qed.

Lemma unsupported_scheme_is_not_handled_witness :
  YtDlpExtractor.handle Demo.connected (Demo.extractor Null) "file:///etc/passwd"
    Demo.context Demo.startup
  = (Ok (createResponse None []), Demo.startup).
Proof.
  apply (unsupported_scheme_is_not_handled Demo.connected (Demo.extractor Null)
           "file:///etc/passwd" Demo.context Demo.startup {| scheme := "file" |}).
  - discriminate.
  - reflexivity.
  - left. reflexivity.
Defined.

Lemma canExtract_run (E : Env) (url ytdlpPath : string) (w : World) :
  is_Some (files w !! ytdlpPath) ->
  canExtract E url ytdlpPath w
  = (Ok (exited (execAsync E (length (trace w)) (probeCommand url ytdlpPath))),
     add_event (Exec (probeCommand url ytdlpPath)) w).
Proof.
  intros Hbin. unfold canExtract, Eff.try_catch, Eff.bind.
  rewrite existsSync_found by assumption. cbn [negb].
  unfold run, Eff.bind, Eff.emit. fold (probeCommand url ytdlpPath).
  fold (add_event (Exec (probeCommand url ytdlpPath)) w).
  destruct (execAsync E _ _); reflexivity.
Qed.

(** X10: [validate] never throws.  A text that is not a URL is
    accepted exactly when the search is enabled, a URL is refused when
    direct URLs are disabled, and a URL of the recognized site is
    accepted when both are enabled, all without starting a process.  Any
    other URL, of whatever scheme, is probed once with yt-dlp and
    accepted exactly when the probe exits. *)
Theorem validate_policy
    (E : Env) (this : YtDlpExtractor.t) (query : string) (type : jsv) (w : World) :
  let run := YtDlpExtractor.validate E this query type w in
  (exists b w', run = (Ok b, w')) /\
  (isValidUrl E (Str query) = false ->
   run = (Ok (YtDlpExtractor.enableYouTubeSearch this), w)) /\
  (isValidUrl E (Str query) = true ->
   YtDlpExtractor.enableDirectUrls this = false ->
   run = (Ok false, w)) /\
  (isValidUrl E (Str query) = true ->
   YtDlpExtractor.enableDirectUrls this = true ->
   isYouTubeUrl (Str query) && YtDlpExtractor.enableYouTubeSearch this = true ->
   run = (Ok true, w)) /\
  (isValidUrl E (Str query) = true ->
   YtDlpExtractor.enableDirectUrls this = true ->
   isYouTubeUrl (Str query) && YtDlpExtractor.enableYouTubeSearch this = false ->
   is_Some (files w !! YtDlpExtractor.ytdlpPath this) ->
   let probe := probeCommand query (YtDlpExtractor.ytdlpPath this) in
   run = (Ok (exited (execAsync E (length (trace w)) probe)), add_event (Exec probe) w)).
Proof.
  intros run. subst run.
  split; [apply try_catch_ret_total|].
  unfold YtDlpExtractor.validate, Eff.try_catch.
  repeat split.
  - intros ->. destruct (YtDlpExtractor.enableYouTubeSearch this); reflexivity.
  - intros -> ->. reflexivity.
  - intros -> -> ->. reflexivity.
  - intros -> -> -> Hbin. cbn [negb]. rewrite canExtract_run by assumption.
    reflexivity.
Qed.

Lemma validate_policy_witness :
  YtDlpExtractor.validate Streaming.env (Demo.extractor Null) "file:///etc/passwd" Undef
    Demo.startup
  = (Ok true, add_event (Exec (probeCommand "file:///etc/passwd" Demo.binary)) Demo.startup).
Proof.
  destruct (validate_policy Streaming.env (Demo.extractor Null) "file:///etc/passwd" Undef
              Demo.startup) as (_ & _ & _ & _ & Hprobe).
  rewrite Hprobe; try reflexivity.
  exists "ELF". reflexivity.
Defined.

Lemma getYouTubeMetadata_total (E : Env) (videoId : string) (options : yt_options)
    (w : World) :
  exists o w', getYouTubeMetadata E videoId options w = (Ok o, w').
Proof. apply try_catch_ret_total. Qed.

(** X11: for the URL of a single video of the recognized site,
    [handleDirectUrl] asks yt-dlp first.  When yt-dlp gives a track the
    metadata backend is not asked, and a response that is returned
    carries that track and no playlist.  When yt-dlp fails, its error
    is dropped and the backend is asked instead: a response that is
    returned carries the track of the backend, and without one the call
    throws that no metadata could be had. *)
Theorem single_video_falls_back
    (E : Env) (this : YtDlpExtractor.t) (url : string) (context : Context)
    (w : World) (videoId : string) :
  validateUrl E (Str url) = Ok true ->
  isYouTubeUrl (Str url) = true ->
  isYouTubePlaylistUrl (Str url) = false ->
  extractYouTubeId (Str url) = Ok (Some videoId) ->
  let ytdlp :=
    getYouTubeMetadataWithYtDlp E videoId (YtDlpExtractor.ytdlpPath this)
      (YtDlpExtractor.cookiesOrNull this) w in
  let result := YtDlpExtractor.handleDirectUrl E this url context w in
  let carries (info : TrackInfo) :=
    forall r, result.1 = Ok r -> playlist r = None /\ map Track.raw (tracks r) = [info] in
  (forall info, ytdlp.1 = Ok info -> result.2 = ytdlp.2 /\ carries info) /\
  (forall e, ytdlp.1 = Throw e ->
     let backend :=
       getYouTubeMetadata E videoId (YtDlpExtractor.youtubeiOptions this) ytdlp.2 in
     result.2 = backend.2 /\
     (forall info, backend.1 = Ok (Some info) -> carries info) /\
     ((forall info, backend.1 <> Ok (Some info)) ->
      result.1 = Throw "Could not get YouTube metadata")).
Proof.
  intros Hvalid Hyt Hpl Hid ytdlp result carries.
  assert (Hrun :
            result =
              match ytdlp with
              | (Ok info, w1) =>
                  (Ok (createResponse None
                         [YtDlpExtractor.newTrack info [] (requestedBy context)
                            "arbitrary" None]), w1)
              | (Throw _, w1) =>
                  match getYouTubeMetadata E videoId
                          (YtDlpExtractor.youtubeiOptions this) w1 with
                  | (Ok (Some info), w2) =>
                      (Ok (createResponse None
                             [YtDlpExtractor.newTrack info [] (requestedBy context)
                                "arbitrary" None]), w2)
                  | (_, w2) => (Throw "Could not get YouTube metadata", w2)
                  end
              end).
  { subst result.
    unfold YtDlpExtractor.handleDirectUrl, Eff.try_catch at 1, Eff.bind at 1, Eff.lift at 1.
    rewrite Hvalid. cbn [negb]. rewrite Hyt, Hpl.
    unfold Eff.bind at 1, Eff.lift at 1. rewrite Hid.
    unfold Eff.bind at 1, Eff.try_catch at 1, Eff.bind at 1.
    fold ytdlp. destruct ytdlp as [[info|e] w1].
    - reflexivity.
    - destruct (getYouTubeMetadata_total E videoId
                  (YtDlpExtractor.youtubeiOptions this) w1) as (o & w2 & Ho).
      rewrite Ho. destruct o; reflexivity. }
  subst carries. rewrite Hrun. clear Hrun.
  destruct ytdlp as [[info|e] w1]; cbn [fst snd].
  - split; [|discriminate]. intros ? [= <-]. split; [reflexivity|].
    intros r [= <-]. split; reflexivity.
  - split; [discriminate|]. intros _ _.
    destruct (getYouTubeMetadata_total E videoId
                (YtDlpExtractor.youtubeiOptions this) w1) as (o & w2 & Ho).
    rewrite Ho. cbn [fst snd]. destruct o as [info|]; cbn [fst snd].
    + split; [reflexivity|]. split.
      * intros ? [= <-] r [= <-]. split; reflexivity.
      * intros Hnone. destruct (Hnone info eq_refl).
    + split; [reflexivity|]. split; [discriminate|]. reflexivity.
Qed.

Lemma single_video_falls_back_witness :
  (YtDlpExtractor.handleDirectUrl Demo.connected (Demo.extractor Null)
     "https://www.youtube.com/watch?v=dQw4w9WgXcQ" Demo.context Demo.startup).1
  = Throw "Could not get YouTube metadata".
Proof.
  destruct (single_video_falls_back Demo.connected (Demo.extractor Null)
              "https://www.youtube.com/watch?v=dQw4w9WgXcQ" Demo.context Demo.startup
              "dQw4w9WgXcQ") as (_ & Hfail); [reflexivity..|].
  destruct (Hfail "Command failed") as (_ & _ & Hnone); [reflexivity|].
  apply Hnone. intros info. vm_compute. discriminate.
Defined.

(** ** Playlists, continued *)

(** X12: the errors of an ordinary playlist.  With a session at hand,
    a request that is still pending when the timer fires is reported
    as timed out, an answer that is no object as not found, and an
    answer with neither [videos] nor [items] as private; without a
    session the error says that the service is not available. *)
Theorem playlist_errors
    (E : Env) (playlistId : string) (options : yt_options) (w w1 : World) :
  JsString.startsWith "RD" playlistId = false ->
  (initializeYouTube E options w = (Ok None, w1) ->
   getYouTubePlaylist E playlistId options w
   = (Throw "YouTube service not available", w1)) /\
  (forall session answer,
     initializeYouTube E options w = (Ok (Some session), w1) ->
     yt_getPlaylist E (length (trace w1)) session playlistId = answer ->
     let after := add_event (GetPlaylist session playlistId) w1 in
     (answer = Pending ->
      getYouTubePlaylist E playlistId options w
      = (Throw "Playlist request timed out. Please try again.", after)) /\
     (forall playlist,
        answer = Settled (Resolved playlist) -> Js.truthy playlist = false ->
        getYouTubePlaylist E playlistId options w
        = (Throw "Playlist not found. Please check the playlist ID.", after)) /\
     (forall playlist,
        answer = Settled (Resolved playlist) -> Js.truthy playlist = true ->
        Js.truthy (Member.lookup "videos" playlist) = false ->
        Js.truthy (Member.lookup "items" playlist) = false ->
        getYouTubePlaylist E playlistId options w
        = (Throw "This playlist is private or requires authentication. Please check your YouTube cookies.",
           after))).
Proof.
  intros Hrd. split.
  - intros Hinit. unfold getYouTubePlaylist, Eff.try_catch. rewrite Hrd.
    unfold Eff.bind. rewrite Hinit. reflexivity.
  - intros session answer Hinit Hanswer after.
    split; [|split].
    + intros ->.
      unfold getYouTubePlaylist, Eff.try_catch. rewrite Hrd.
      unfold Eff.bind at 1. rewrite Hinit.
      unfold Eff.bind, Eff.emit, race. rewrite Hanswer. reflexivity.
    + intros playlist -> Hfalsy.
      unfold getYouTubePlaylist, Eff.try_catch. rewrite Hrd.
      unfold Eff.bind at 1. rewrite Hinit.
      unfold Eff.bind, Eff.emit, race. rewrite Hanswer. unfold Eff.ret.
      rewrite Hfalsy. reflexivity.
    + intros playlist -> Htruthy Hv Hi.
      unfold getYouTubePlaylist, Eff.try_catch. rewrite Hrd.
      unfold Eff.bind at 1. rewrite Hinit.
      unfold Eff.bind, Eff.emit, race. rewrite Hanswer. unfold Eff.ret.
      rewrite Htruthy, Hv, Hi. reflexivity.
Qed.

Lemma playlist_errors_witness :
  (getYouTubePlaylist Slow.env "PL123" {| cookies := Null; client := Null |}
     Demo.startup).1
  = Throw "Playlist request timed out. Please try again.".
Proof.
  destruct (playlist_errors Slow.env "PL123" {| cookies := Null; client := Null |}
              Demo.startup
              (initializeYouTube Slow.env {| cookies := Null; client := Null |}
                 Demo.startup).2) as [_ Hsession]; [reflexivity|].
  destruct (Hsession 0%nat Pending) as (Hpending & _); [reflexivity..|].
  rewrite Hpending; reflexivity.
Defined.

(** X13: an ordinary playlist may list its entries under [videos] or
    under [items]; [videos] is taken when it is there, [items]
    otherwise, and in both cases the tracks are the entries that
    resolve, in order. *)
Theorem playlist_entries_either_shape
    (E : Env) (playlistId : string) (options : yt_options)
    (w w1 : World) (session : nat) (playlist : jsv) (r : nat) (entries : list jsv) :
  JsString.startsWith "RD" playlistId = false ->
  initializeYouTube E options w = (Ok (Some session), w1) ->
  yt_getPlaylist E (length (trace w1)) session playlistId = Settled (Resolved playlist) ->
  Member.lookup "videos" playlist = Arr r entries \/
  (Js.truthy (Member.lookup "videos" playlist) = false /\
   Member.lookup "items" playlist = Arr r entries) ->
  getYouTubePlaylist E playlistId options w =
    (Ok (playlistHeader playlistId playlist (omap resolved entries)),
     add_event (GetPlaylist session playlistId) w1).
Proof.
  intros Hrd Hinit Hget [Hvideos|[Hvideos Hitems]].
  - by eapply getYouTubePlaylist_entries.
  - assert (Htruthy : Js.truthy playlist = true).
    { destruct playlist; try discriminate Hitems; reflexivity. }
    unfold getYouTubePlaylist, Eff.try_catch. rewrite Hrd.
    unfold Eff.bind at 1. rewrite Hinit.
    unfold Eff.bind, Eff.emit, race. rewrite Hget. unfold Eff.ret at 1.
    rewrite Htruthy. unfold Js.or. rewrite !Hvideos, !Hitems.
    cbn [negb Js.truthy andb Member.lookup].
    cbn [String.eqb Ascii.eqb Bool.eqb Js.strict_eq].
    destruct entries as [|v entries].
    + reflexivity.
    + change (Z.of_nat (length (v :: entries)) =? 0) with false. cbv iota.
      unfold Eff.ret. rewrite batches_fuel by (unfold batchSize; lia).
      reflexivity.
Qed.

Lemma playlist_entries_either_shape_witness :
  length (p_tracks
            match (getYouTubePlaylist Items.env "PL123" {| cookies := Null; client := Null |}
                     Demo.startup).1 with
            | Ok p => p
            | Throw _ => playlistHeader "PL123" Null []
            end) = 9%nat.
Proof.
  rewrite (playlist_entries_either_shape Items.env "PL123"
             {| cookies := Null; client := Null |} Demo.startup
             (initializeYouTube Items.env {| cookies := Null; client := Null |}
                Demo.startup).2
             0 Items.playlist 3 Batch.videos); try reflexivity.
  right. split; reflexivity.
Defined.

(** X14: the two shapes of a playlist entry give the same track: an
    entry with nested title, author and duration and its id under [id],
    and an entry with flat title and duration, the author under
    [channel] and its id under [video_id]. *)
Theorem entry_shapes_agree (r r' : nat) (id title author duration : string) :
  id <> EmptyString -> title <> EmptyString ->
  author <> EmptyString -> duration <> EmptyString ->
  let track :=
    {| t_id := Str id; t_title := Str title; t_duration := Str duration;
       t_thumbnail := Null;
       t_url := Str ("https://www.youtube.com/watch?v=" +:+ id);
       t_author := Str author; t_views := Str "0"; t_description := Undef |} in
  entryTrack (nestedEntry r id title author duration) = Ok (Some track) /\
  entryTrack (flatEntry r' id title author duration) = Ok (Some track).
Proof.
  intros Hid Htitle Hauthor Hduration track. subst track.
  destruct id as [|a1 id]; [contradiction|].
  destruct title as [|a2 title]; [contradiction|].
  destruct author as [|a3 author]; [contradiction|].
  destruct duration as [|a4 duration]; [contradiction|].
  split; reflexivity.
Qed.

Lemma entry_shapes_agree_witness :
  entryTrack (nestedEntry 0 "dQw4w9WgXcQ" "Song" "Artist" "3:33")
  = entryTrack (flatEntry 9 "dQw4w9WgXcQ" "Song" "Artist" "3:33").
Proof.
  destruct (entry_shapes_agree 0 9 "dQw4w9WgXcQ" "Song" "Artist" "3:33")
    as [Hnested Hflat]; [discriminate..|].
  rewrite Hnested, Hflat. reflexivity.
Defined.

(** ** Mix playlists, continued *)

(** X15: the Mix of a seed video that the backend returns is the seed
    followed by its first 19 playable recommendations, or by all of
    them when there are fewer; without a feed of recommendations it is
    the seed alone.  It never has more than 20 tracks. *)
Theorem mix_is_seed_and_recommendations
    (E : Env) (seed : string) (options : yt_options)
    (w w1 : World) (session : nat) (seedVideo : jsv) (playable : list jsv) :
  String.length seed = 11%nat ->
  initializeYouTube E options w = (Ok (Some session), w1) ->
  yt_getInfo E (length (trace w1)) session seed = Resolved seedVideo ->
  Js.truthy seedVideo = true ->
  (Js.truthy (Member.lookup "watch_next_feed" seedVideo) = false /\ playable = []) \/
  (exists r feed,
     Member.lookup "watch_next_feed" seedVideo = Arr r feed /\
     filter_x isCompactVideo feed = Ok playable) ->
  exists p related,
    getYouTubePlaylist E ("RD" +:+ seed) options w
      = (Ok p, add_event (GetInfo session seed) w1) /\
    p_tracks p = infoTrack seed seedVideo (Str "0") :: related /\
    map_x videoTrack (take 19 playable) = Ok related /\
    length (p_tracks p) = (1 + Nat.min 19 (length playable))%nat /\
    (length (p_tracks p) <= 20)%nat.
Proof.
  intros Hlen Hinit Hinfo Htruthy Hfeed.
  assert (Hrel : exists related,
            map_x videoTrack (take 19 playable) = Ok related /\
            length related = Nat.min 19 (length playable)).
  { destruct (map_x_videoTrack (take 19 playable)) as (related & Hrel & Hrl).
    - apply Forall_take. destruct Hfeed as [[_ ->]|(r & feed & _ & Hf)]; [constructor|].
      by apply filter_x_nonnull with feed.
    - exists related. split; [exact Hrel|]. by rewrite Hrl, length_take. }
  destruct Hrel as (related & Hrel & Hrl).
  unfold getYouTubePlaylist, Eff.try_catch at 1.
  change (JsString.startsWith "RD" ("RD" +:+ seed)) with true. cbv iota.
  change (String.length ("RD" +:+ seed)) with (S (S (String.length seed))).
  change (JsString.substring_from 2 ("RD" +:+ seed)) with seed.
  rewrite Hlen. cbn [Nat.ltb Nat.leb]. cbv beta iota.
  rewrite Hlen. cbn [Nat.eqb negb]. cbv iota.
  unfold Eff.bind at 1. rewrite Hinit.
  unfold mixPlaylist, Eff.try_catch, Eff.bind, Eff.emit, await, Eff.lift.
  cbn [trace]. rewrite Hinfo. unfold Eff.ret at 1. rewrite Htruthy. cbn [negb].
  destruct Hfeed as [[Hnone ->]|(r & feed & Hfeed & Hfilter)].
  - rewrite Hnone. unfold Eff.ret. injection Hrel as <-.
    eexists _, []. split; [reflexivity|]. cbn in *. repeat split; lia.
  - rewrite Hfeed. cbn [Js.truthy as_array Pure.bind]. rewrite Hfilter.
    cbn [Pure.bind]. rewrite Hrel. unfold Eff.ret.
    eexists _, related. split; [reflexivity|]. cbn [p_tracks length].
    repeat split; try assumption; lia.
Qed.

Lemma mix_is_seed_and_recommendations_witness :
  exists p,
    (getYouTubePlaylist Backend.env "RDdQw4w9WgXcQ" {| cookies := Null; client := Null |}
       Demo.startup).1 = Ok p /\
    length (p_tracks p) = 20%nat.
Proof.
  destruct (mix_is_seed_and_recommendations Backend.env "dQw4w9WgXcQ"
              {| cookies := Null; client := Null |} Demo.startup
              (initializeYouTube Backend.env {| cookies := Null; client := Null |}
                 Demo.startup).2
              0 (Backend.seedVideo 25) (map Backend.compactVideo (seq 0 25)))
    as (p & related & Hrun & _ & _ & Hlen & _); [reflexivity..| |].
  - right. exists 6%nat, (map Backend.compactVideo (seq 0 25)). split; reflexivity.
  - exists p. split; [exact (f_equal fst Hrun)|exact Hlen].
Defined.

(** X16: an identifier that begins with RD and is not followed by
    exactly 11 characters is refused as a malformed Mix identifier
    before a session is created or a request is made; the message is
    not rewritten on the way, and [handleYouTubePlaylist] throws it for
    every URL that carries such an identifier. *)
Theorem malformed_mix_id_is_refused_at_once
    (E : Env) (this : YtDlpExtractor.t) (playlistId : string) (options : yt_options)
    (w : World) :
  JsString.startsWith "RD" playlistId = true ->
  String.length (JsString.substring_from 2 playlistId) <> 11%nat ->
  getYouTubePlaylist E playlistId options w
  = (Throw "Invalid YouTube Mix playlist ID format", w) /\
  (forall (url : string) (context : Context),
     extractYouTubePlaylistId (Str url) = Ok (Some playlistId) ->
     YtDlpExtractor.handleYouTubePlaylist E this url context w
     = (Throw "Invalid YouTube Mix playlist ID format", w)).
Proof.
  intros Hrd Hlen. split; [by apply mix_invalid_id|].
  intros url context Hid.
  unfold YtDlpExtractor.handleYouTubePlaylist, Eff.try_catch, Eff.bind, Eff.lift.
  rewrite Hid, mix_invalid_id by assumption. reflexivity.
Qed.

Lemma malformed_mix_id_is_refused_at_once_witness :
  YtDlpExtractor.handleYouTubePlaylist Backend.env (Demo.extractor Null)
    "https://www.youtube.com/watch?v=dQw4w9WgXcQ&list=RDshort" Demo.context Demo.startup
  = (Throw "Invalid YouTube Mix playlist ID format", Demo.startup).
Proof.
  destruct (malformed_mix_id_is_refused_at_once Backend.env (Demo.extractor Null)
              "RDshort" {| cookies := Null; client := Null |} Demo.startup) as [_ H].
  - reflexivity.
  - cbn. lia.
  - apply H. reflexivity.
Defined.

(** ** The session, continued *)

(** X17: a re-initialisation that fails costs the session there was.
    When the credential has changed and the creation is refused, the
    old session has been signed out, no session is left, the
    credential of the last successful creation is kept, and every
    later call, whatever its credential, creates again. *)
Theorem failed_reinitialisation_drops_the_session
    (E : Env) (options : yt_options) (w : World) (s : nat) :
  innertube w = Some s ->
  Js.strict_eq (cookies options) (lastCookies w) = false ->
  Innertube_create E (S (length (trace w))) (initOptionsFor options) = false ->
  let after := (initializeYouTube E options w).2 in
  (initializeYouTube E options w).1 = Ok None /\
  innertube after = None /\
  lastCookies after = lastCookies w /\
  trace after = trace w ++ [SignOut s; Create (initOptionsFor options)] /\
  forall later : yt_options, needsReinit later after = true.
Proof.
  intros Hs Hne Hrefused after. subst after.
  assert (H : needsReinit options w = true) by (apply needsReinit_iff; auto).
  rewrite (initializeYouTube_reinit E options w H), Hs.
  rewrite length_app, Nat.add_comm. cbn [length Nat.add].
  rewrite Hrefused. cbn [fst snd innertube lastCookies trace].
  rewrite <- app_assoc. repeat split.
Qed.

Lemma failed_reinitialisation_drops_the_session_witness :
  let first := {| cookies := Str "SID=good"; client := Null |} in
  let second := {| cookies := Str "SID=bad"; client := Null |} in
  let w0 := (initializeYouTube Picky.env first Demo.startup).2 in
  innertube w0 = Some 0%nat /\
  innertube (initializeYouTube Picky.env second w0).2 = None.
Proof.
  intros first second w0. split; [reflexivity|].
  destruct (failed_reinitialisation_drops_the_session Picky.env second w0 0)
    as (_ & Hnone & _); [reflexivity..|].
  exact Hnone.
Defined.

(** ** The URL classifiers *)

Lemma length_append (s t : string) :
  String.length (s +:+ t) = (String.length s + String.length t)%nat.
Proof. induction s as [|a s IH]; [reflexivity|]. rewrite append_cons. cbn. by rewrite IH. Qed.

Lemma take_append (pre rest : string) :
  JsString.take (String.length (pre +:+ rest) - String.length rest) (pre +:+ rest) = pre.
Proof.
  rewrite length_append.
  replace (String.length pre + String.length rest - String.length rest)%nat
    with (String.length pre) by lia.
  induction pre as [|a pre IH]; [destruct rest; reflexivity|].
  rewrite append_cons. cbn. by rewrite IH.
Qed.

Lemma test_anchored_capture (prefix group : regex) (s : string) :
  test_anchored (Seq prefix group) s = true <->
  is_Some (first_capture group (Regex.run prefix s)).
Proof.
  unfold test_anchored. cbn [Regex.run].
  induction (Regex.run prefix s) as [|rem rems IH]; cbn [flat_map first_capture].
  - split; [discriminate|]. intros [? H]. discriminate H.
  - destruct (Regex.run group rem) as [|rest l]; [exact IH|].
    cbn. split; eauto.
Qed.

Lemma test_capture (prefix group : regex) (s : string) :
  test (Seq prefix group) s = true <-> is_Some (capture prefix group s).
Proof.
  induction s as [|a s IH]; cbn [test capture].
  - rewrite orb_false_r, test_anchored_capture.
    destruct (first_capture _ _); split; intros [? H]; try discriminate H; eauto.
  - rewrite orb_true_iff, test_anchored_capture, IH.
    destruct (first_capture _ _); [split; eauto|].
    split; [intros [[? H]|H]; [discriminate H|exact H]|auto].
Qed.

(** X18: a text is a playlist URL exactly when it is a URL of the
    recognized site from which [extractYouTubePlaylistId] extracts an
    identifier: the two functions read the same pattern, and the test
    and the extraction agree on it. *)
Theorem playlist_url_has_an_id (s : string) :
  isYouTubePlaylistUrl (Str s) = true <->
  isYouTubeUrl (Str s) = true /\
  exists id, extractYouTubePlaylistId (Str s) = Ok (Some id).
Proof.
  unfold isYouTubePlaylistUrl, extractYouTubePlaylistId, matchOn.
  cbn [Js.to_string]. rewrite andb_true_iff, test_capture.
  split; intros [Hyt Hid]; (split; [exact Hyt|]).
  - destruct Hid as [id Hid]. exists id. by rewrite Hid.
  - destruct Hid as [id [= Hid]]. eauto.
Qed.

Lemma rep_class (c : ascii -> bool) (n : nat) :
  forall (s rest : string) (l : list string),
    rep (Regex.run (Class c)) n s = rest :: l ->
    l = [] /\
    exists pre, s = pre +:+ rest /\ String.length pre = n /\ string_forall c pre = true.
Proof.
  induction n as [|n IH]; intros s rest l H; cbn [rep] in H.
  - injection H as <- <-. split; [reflexivity|]. exists EmptyString. repeat split.
  - destruct s as [|a s]; cbn [Regex.run flat_map] in H; [discriminate H|].
    destruct (c a) eqn:Ha; cbn [flat_map] in H; [|discriminate H].
    rewrite app_nil_r in H. apply IH in H as (-> & pre & -> & Hlen & Hall).
    split; [reflexivity|]. exists (String a pre).
    rewrite append_cons. cbn. rewrite Ha, Hall, Hlen. repeat split.
Qed.

Lemma first_capture_videoGroup (rems : list string) (id : string) :
  first_capture videoGroup rems = Some id ->
  String.length id = 11%nat /\ string_forall videoIdChar id = true.
Proof.
  induction rems as [|rem rems IH]; cbn [first_capture]; [discriminate|].
  destruct (Regex.run videoGroup rem) as [|rest l] eqn:Hrun; [exact IH|].
  intros [= <-]. unfold videoGroup in Hrun. cbn [Regex.run] in Hrun.
  apply rep_class in Hrun as (_ & pre & -> & Hlen & Hall).
  rewrite take_append. split; assumption.
Qed.

(** X19: an identifier that [extractYouTubeId] returns has exactly 11
    characters, none of which is a double quote, [&], [?], [/] or white
    space. *)
Theorem video_id_has_eleven_characters (url : jsv) (id : string) :
  extractYouTubeId url = Ok (Some id) ->
  String.length id = 11%nat /\ string_forall videoIdChar id = true.
Proof.
  unfold extractYouTubeId, matchOn.
  destruct url as [| | | | |s| | | |]; try discriminate. intros [= H].
  induction s as [|a s IH]; cbn [capture] in H.
  - destruct (first_capture videoGroup _) as [c|] eqn:Hc; [|discriminate H].
    injection H as <-. by eapply first_capture_videoGroup.
  - destruct (first_capture videoGroup _) as [c|] eqn:Hc; [|auto].
    injection H as <-. by eapply first_capture_videoGroup.
Qed.

Lemma video_id_has_eleven_characters_witness :
  String.length "dQw4w9WgXcQ" = 11%nat /\ string_forall videoIdChar "dQw4w9WgXcQ" = true.
Proof.
  apply (video_id_has_eleven_characters
           (Str "https://music.youtube.com/watch?v=dQw4w9WgXcQ&feature=share")).
  reflexivity.
Defined.

Lemma string_forall_app (c : ascii -> bool) (s t : string) :
  string_forall c (s +:+ t) = string_forall c s && string_forall c t.
Proof.
  induction s as [|a s IH]; [reflexivity|].
  rewrite append_cons. cbn. rewrite IH. by rewrite andb_assoc.
Qed.

Lemma star_class (c : ascii -> bool) (fuel : nat) :
  forall s rest : string,
    In rest (star (Regex.run (Class c)) fuel s) ->
    exists pre, s = pre +:+ rest /\ string_forall c pre = true.
Proof.
  induction fuel as [|fuel IH]; intros s rest H; cbn [star] in H.
  - destruct H as [<-|[]]. exists EmptyString. split; reflexivity.
  - apply in_app_iff in H as [H|[<-|[]]]; [|exists EmptyString; split; reflexivity].
    apply in_flat_map in H as (s' & Hs' & H).
    destruct s as [|a s]; cbn [Regex.run] in Hs'; [destruct Hs'|].
    destruct (c a) eqn:Ha; [|destruct Hs'].
    destruct Hs' as [<-|[]].
    destruct (String.length s <? String.length (String a s))%nat; [|destruct H].
    apply IH in H as (pre & -> & Hall).
    exists (String a pre). rewrite append_cons. cbn. by rewrite Ha, Hall.
Qed.

Lemma plus_class (c : ascii -> bool) (s rest : string) :
  In rest (Regex.run (Plus (Class c)) s) ->
  exists pre, s = pre +:+ rest /\ pre <> EmptyString /\ string_forall c pre = true.
Proof.
  unfold Plus. cbn [Regex.run]. intros H.
  apply in_flat_map in H as (s' & Hs' & H).
  destruct s as [|a s]; [destruct Hs'|].
  destruct (c a) eqn:Ha; [|destruct Hs'].
  destruct Hs' as [<-|[]].
  apply star_class in H as (pre & -> & Hall).
  exists (String a pre). rewrite append_cons. cbn. rewrite Ha, Hall.
  repeat split. discriminate.
Qed.

Lemma first_capture_playlistGroup (rems : list string) (id : string) :
  first_capture playlistGroup rems = Some id ->
  id <> EmptyString /\ string_forall playlistIdChar id = true.
Proof.
  induction rems as [|rem rems IH]; cbn [first_capture]; [discriminate|].
  destruct (Regex.run playlistGroup rem) as [|rest l] eqn:Hrun; [exact IH|].
  intros [= <-].
  assert (Hin : In rest (Regex.run playlistGroup rem)) by (rewrite Hrun; apply in_eq).
  apply plus_class in Hin as (pre & -> & Hne & Hall).
  rewrite take_append. split; assumption.
Qed.

(** X20: an identifier that [extractYouTubePlaylistId] returns is not
    empty and is made of letters, digits, [_] and [-] only. *)
Theorem playlist_id_is_well_formed (url : jsv) (id : string) :
  extractYouTubePlaylistId url = Ok (Some id) ->
  id <> EmptyString /\ string_forall playlistIdChar id = true.
Proof.
  unfold extractYouTubePlaylistId, matchOn.
  destruct url as [| | | | |s| | | |]; try discriminate. intros [= H].
  induction s as [|a s IH]; cbn [capture] in H.
  - destruct (first_capture playlistGroup _) as [c|] eqn:Hc; [|discriminate H].
    injection H as <-. by eapply first_capture_playlistGroup.
  - destruct (first_capture playlistGroup _) as [c|] eqn:Hc; [|auto].
    injection H as <-. by eapply first_capture_playlistGroup.
Qed.

Lemma playlist_id_is_well_formed_witness :
  "PL_a-1" <> EmptyString /\ string_forall playlistIdChar "PL_a-1" = true.
Proof.
  apply (playlist_id_is_well_formed
           (Str "https://www.youtube.com/playlist?list=PL_a-1&index=2")).
  reflexivity.
Defined.

Lemma strip_extend (l s rem t : string) :
  strip l s = Some rem -> strip l (s +:+ t) = Some (rem +:+ t).
Proof.
  revert s. induction l as [|a l IH]; intros s H.
  - injection H as <-. reflexivity.
  - destruct s as [|b s]; [discriminate H|]. rewrite append_cons. cbn [strip] in *.
    destruct (Ascii.eqb a b); [auto|discriminate H].
Qed.

Lemma run_extend (r : regex) :
  iteration_free r = true ->
  forall s rem t : string, In rem (Regex.run r s) -> In (rem +:+ t) (Regex.run r (s +:+ t)).
Proof.
  induction r as [c|l|r1 IH1 r2 IH2|r1 IH1 r2 IH2|r1 IH1|r1 _|n r1 _];
    cbn [iteration_free]; intros Hfree s rem t H; try discriminate Hfree.
  - cbn [Regex.run] in *. destruct s as [|a s]; [destruct H|].
    rewrite append_cons. destruct (c a); [|destruct H].
    destruct H as [<-|[]]. left. reflexivity.
  - cbn [Regex.run] in *. destruct (strip l s) as [rem'|] eqn:Hs; [|destruct H].
    destruct H as [<-|[]]. rewrite (strip_extend _ _ _ t Hs). left. reflexivity.
  - apply andb_true_iff in Hfree as [H1 H2]. cbn [Regex.run] in *.
    apply in_flat_map in H as (mid & Hmid & H). apply in_flat_map.
    exists (mid +:+ t). split; [by apply IH1|by apply IH2].
  - apply andb_true_iff in Hfree as [H1 H2]. cbn [Regex.run] in *.
    apply in_app_iff in H as [H|H]; apply in_app_iff; [left; by apply IH1|right; by apply IH2].
  - cbn [Regex.run] in *.
    apply in_app_iff in H as [H|[<-|[]]]; apply in_app_iff;
      [left; by apply IH1|right; left; reflexivity].
Qed.

Lemma toLowerCase_app (s t : string) :
  JsString.toLowerCase (s +:+ t) = JsString.toLowerCase s +:+ JsString.toLowerCase t.
Proof.
  induction s as [|a s IH]; [reflexivity|]. rewrite append_cons. cbn. by rewrite IH.
Qed.

(** X21: [isYouTubeUrl] reads the beginning of its argument only:
    whatever is appended to a text it accepts is accepted too, so that
    the host name is not delimited (a host that merely begins with
    youtube.com passes). *)
Theorem isYouTubeUrl_reads_a_prefix (s t : string) :
  isYouTubeUrl (Str s) = true -> isYouTubeUrl (Str (s +:+ t)) = true.
Proof.
  unfold isYouTubeUrl, test_anchored. cbn [Js.to_string].
  rewrite toLowerCase_app.
  destruct (Regex.run youtubeRegex (JsString.toLowerCase s)) as [|rem l] eqn:Hrun;
    [discriminate|].
  intros _.
  assert (Hin : In (rem +:+ JsString.toLowerCase t)
                  (Regex.run youtubeRegex
                     (JsString.toLowerCase s +:+ JsString.toLowerCase t))).
  { apply run_extend; [reflexivity|]. rewrite Hrun. apply in_eq. }
  remember (Regex.run youtubeRegex
              (JsString.toLowerCase s +:+ JsString.toLowerCase t)) as found.
  destruct found; [destruct Hin|reflexivity].
Qed.

Lemma isYouTubeUrl_reads_a_prefix_witness :
  isYouTubeUrl (Str "https://youtube.com.example.net/watch") = true.
Proof.
  apply (isYouTubeUrl_reads_a_prefix "https://youtube.com" ".example.net/watch").
  reflexivity.
Defined.

Lemma run_videoPrefix (s : string) :
  Regex.run videoPrefix s =
    flat_map (fun s1 => Regex.run pathBranch s1 ++ Regex.run embedBranch s1 ++ Regex.run queryBranch s1)
      (option_list (strip "youtube.com/" s))
    ++ option_list (strip "youtu.be/" s).
Proof. reflexivity. Qed.

Lemma run_at_host (X : string) :
  Regex.run videoPrefix ("youtube.com/" +:+ X) =
    Regex.run pathBranch X ++ Regex.run embedBranch X ++ Regex.run queryBranch X.
Proof.
  rewrite run_videoPrefix.
  change (strip "youtube.com/" ("youtube.com/" +:+ X)) with (Some X).
  change (strip "youtu.be/" ("youtube.com/" +:+ X)) with (@None string).
  change (option_list (Some X)) with [X].
  change (option_list (@None string)) with (@nil string).
  cbn [flat_map]. by rewrite !app_nil_r.
Qed.

Lemma run_at_short (X : string) : Regex.run videoPrefix ("youtu.be/" +:+ X) = [X].
Proof. reflexivity. Qed.

Lemma run_elsewhere (a : ascii) (s : string) :
  Ascii.eqb "y" a = false -> Regex.run videoPrefix (String a s) = [].
Proof. intros H. rewrite run_videoPrefix. cbn [strip]. rewrite H. reflexivity. Qed.


Lemma embed_embed (X : string) : Regex.run embedBranch ("embed/" +:+ X) = [X].
Proof. reflexivity. Qed.
Lemma embed_watch (X : string) : Regex.run embedBranch ("watch?v=" +:+ X) = [].
Proof. reflexivity. Qed.

Lemma slashes_app (s t : string) : slashes (s +:+ t) = (slashes s + slashes t)%nat.
Proof.
  induction s as [|a s IH]; [reflexivity|]. rewrite append_cons. cbn. rewrite IH. lia.
Qed.

Lemma strip_Some (l s rem : string) : strip l s = Some rem -> s = l +:+ rem.
Proof.
  revert s. induction l as [|a l IH]; intros s H.
  - by injection H as <-.
  - destruct s as [|b s]; [discriminate H|]. cbn [strip] in H.
    destruct (Ascii.eqb_spec a b) as [<-|]; [|discriminate H].
    rewrite append_cons. f_equal. auto.
Qed.

Lemma run_Lit (l s x : string) : In x (Regex.run (Lit l) s) -> s = l +:+ x.
Proof.
  cbn [Regex.run]. destruct (strip l s) as [rem|] eqn:H; [|intros []].
  intros [<-|[]]. by apply strip_Some.
Qed.

Lemma pathBranch_two_slashes (s x : string) :
  In x (Regex.run pathBranch s) -> (2 <= slashes s)%nat.
Proof.
  unfold pathBranch. intros H.
  change (Regex.run (Seq ?a ?b) s) with (flat_map (Regex.run b) (Regex.run a s)) in H.
  apply in_flat_map in H as (r1 & H1 & H).
  apply plus_class in H1 as (pre1 & -> & _ & _).
  change (In x (flat_map (Regex.run (Seq (Plus (Class dot)) (Lit "/")))
                  (Regex.run (Lit "/") r1))) in H.
  apply in_flat_map in H as (r2 & H2 & H).
  apply run_Lit in H2 as ->.
  change (In x (flat_map (Regex.run (Lit "/")) (Regex.run (Plus (Class dot)) r2))) in H.
  apply in_flat_map in H as (r3 & H3 & H).
  apply plus_class in H3 as (pre3 & -> & _ & _).
  apply run_Lit in H as ->.
  rewrite !slashes_app. cbn. lia.
Qed.

Lemma queryBranch_sound (s x : string) :
  In x (Regex.run queryBranch s) ->
  exists pre q, s = pre +:+ String q ("v=" +:+ x) /\ one_of "?&" q = true.
Proof.
  unfold queryBranch. intros H.
  change (In x (flat_map (Regex.run (Seq (Class (one_of "?&")) (Lit "v=")))
                  (star (Regex.run (Class dot)) (String.length s) s))) in H.
  apply in_flat_map in H as (r1 & H1 & H).
  apply star_class in H1 as (pre & -> & _).
  change (In x (flat_map (Regex.run (Lit "v=")) (Regex.run (Class (one_of "?&")) r1))) in H.
  apply in_flat_map in H as (r2 & H2 & H).
  destruct r1 as [|q r1]; [destruct H2|]. cbn [Regex.run] in H2.
  destruct (one_of "?&" q) eqn:Hq; [|destruct H2].
  destruct H2 as [<-|[]]. apply run_Lit in H as ->.
  exists pre, q. split; [reflexivity|exact Hq].
Qed.

Lemma star_class_complete (c : ascii -> bool) (pre : string) :
  forall (fuel : nat) (rest : string),
    string_forall c pre = true -> (String.length pre <= fuel)%nat ->
    In rest (star (Regex.run (Class c)) fuel (pre +:+ rest)).
Proof.
  induction pre as [|a pre IH]; intros fuel rest Hall Hfuel.
  - change (EmptyString +:+ rest) with rest.
    destruct fuel; cbn [star]; [left; reflexivity|].
    apply in_app_iff. right. left. reflexivity.
  - cbn [string_forall] in Hall. apply andb_true_iff in Hall as [Ha Hall].
    destruct fuel as [|fuel]; [cbn in Hfuel; lia|].
    rewrite append_cons. cbn [star Regex.run]. rewrite Ha. cbn [flat_map].
    apply in_app_iff. left. rewrite app_nil_r.
    destruct (Nat.ltb_spec (String.length (pre +:+ rest))
                (String.length (String a (pre +:+ rest)))) as [_|Hge];
      [|cbn in Hge; lia].
    apply IH; [exact Hall|cbn in Hfuel; lia].
Qed.

Lemma queryBranch_complete (pre x : string) (q : ascii) :
  string_forall dot pre = true -> one_of "?&" q = true ->
  In x (Regex.run queryBranch (pre +:+ String q ("v=" +:+ x))).
Proof.
  intros Hpre Hq. unfold queryBranch.
  change (In x (flat_map (Regex.run (Seq (Class (one_of "?&")) (Lit "v=")))
                  (star (Regex.run (Class dot))
                     (String.length (pre +:+ String q ("v=" +:+ x)))
                     (pre +:+ String q ("v=" +:+ x))))).
  apply in_flat_map. exists (String q ("v=" +:+ x)). split.
  - apply star_class_complete; [exact Hpre|]. rewrite length_append. lia.
  - change (In x (flat_map (Regex.run (Lit "v="))
                    (Regex.run (Class (one_of "?&")) (String q ("v=" +:+ x))))).
    cbn [Regex.run]. rewrite Hq. cbn [flat_map].
    change (strip "v=" ("v=" +:+ x)) with (Some x). left. reflexivity.
Qed.

Lemma startsWith_app (p s : string) : JsString.startsWith p (p +:+ s) = true.
Proof.
  induction p as [|a p IH]; [reflexivity|]. rewrite append_cons. cbn.
  by rewrite Ascii.eqb_refl.
Qed.

Lemma includes_middle (p a b : string) : JsString.includes p (a +:+ (p +:+ b)) = true.
Proof.
  induction a as [|c a IH].
  - change (EmptyString +:+ (p +:+ b)) with (p +:+ b).
    destruct (p +:+ b) eqn:E; cbn [JsString.includes]; rewrite <- E, startsWith_app;
      reflexivity.
  - rewrite append_cons. cbn [JsString.includes]. rewrite IH. apply orb_true_r.
Qed.

Lemma one_of_query (q : ascii) : one_of "?&" q = true -> q = "?"%char \/ q = "&"%char.
Proof.
  unfold one_of. cbn.
  destruct (Ascii.eqb_spec q "?") as [->|_]; [auto|].
  destruct (Ascii.eqb_spec q "&") as [->|_]; [auto|]. discriminate.
Qed.

Lemma queryBranch_watch (X x : string) :
  JsString.includes "?v=" X = false -> JsString.includes "&v=" X = false ->
  In x (Regex.run queryBranch ("watch?v=" +:+ X)) -> x = X.
Proof.
  intros H1 H2 H. apply queryBranch_sound in H as (pre & q & Heq & Hq).
  rewrite !append_cons in Heq.
  change (EmptyString +:+ X) with X in Heq. change (EmptyString +:+ x) with x in Heq.
  do 8 (destruct pre as [|? pre];
        [change (String ?a ?l = EmptyString +:+ ?r) with (String a l = r) in Heq;
         injection Heq as <- Heq;
         first [by vm_compute in Hq | by injection Heq as <-]
        |rewrite append_cons in Heq; injection Heq as <- Heq]).
  exfalso. apply one_of_query in Hq as [->| ->].
  - pose proof (includes_middle "?v=" pre x) as Hin.
    change ("?v=" +:+ x) with (String "?" (String "v" (String "=" x))) in Hin.
    rewrite <- Heq in Hin. congruence.
  - pose proof (includes_middle "&v=" pre x) as Hin.
    change ("&v=" +:+ x) with (String "&" (String "v" (String "=" x))) in Hin.
    rewrite <- Heq in Hin. congruence.
Qed.

Lemma rep_class_complete (c : ascii -> bool) (pre : string) :
  forall rest : string,
    string_forall c pre = true ->
    rep (Regex.run (Class c)) (String.length pre) (pre +:+ rest) = [rest].
Proof.
  induction pre as [|a pre IH]; intros rest Hall; [reflexivity|].
  cbn [string_forall] in Hall. apply andb_true_iff in Hall as [Ha Hall].
  rewrite append_cons. cbn [String.length rep Regex.run]. rewrite Ha.
  cbn [flat_map]. rewrite app_nil_r. by apply IH.
Qed.

Lemma videoGroup_on_id (id tail : string) :
  String.length id = 11%nat -> string_forall videoIdChar id = true ->
  Regex.run videoGroup (id +:+ tail) = [tail].
Proof.
  intros Hlen Hall. rewrite <- (rep_class_complete videoIdChar id tail Hall).
  rewrite Hlen. reflexivity.
Qed.

Lemma capture_here (p g : regex) (s c : string) :
  first_capture g (Regex.run p s) = Some c -> capture p g s = Some c.
Proof. intros H. destruct s; cbn [capture]; by rewrite H. Qed.

Lemma capture_skip (p g : regex) (a : ascii) (s : string) :
  Regex.run p (String a s) = [] -> capture p g (String a s) = capture p g s.
Proof. intros H. cbn [capture]. by rewrite H. Qed.

Lemma slashes_none (s : string) : JsString.includes "/" s = false -> slashes s = 0%nat.
Proof.
  induction s as [|a s IH]; [reflexivity|]. cbn [JsString.includes JsString.startsWith slashes].
  intros H. apply orb_false_iff in H as [Ha Hs]. rewrite (IH Hs).
  destruct (Ascii.eqb_spec a "/") as [->|_]; [discriminate Ha|reflexivity].
Qed.

Lemma slashes_id (id : string) : string_forall videoIdChar id = true -> slashes id = 0%nat.
Proof.
  induction id as [|a id IH]; [reflexivity|]. cbn [string_forall slashes].
  intros H. apply andb_true_iff in H as [Ha Hid]. rewrite (IH Hid).
  destruct (Ascii.eqb_spec a "/") as [->|_]; [discriminate Ha|reflexivity].
Qed.

Lemma includes_past_id (q : ascii) (p id tail : string) :
  q = "?"%char \/ q = "&"%char ->
  string_forall videoIdChar id = true ->
  JsString.includes (String q p) tail = false ->
  JsString.includes (String q p) (id +:+ tail) = false.
Proof.
  intros Hq Hid Htail. induction id as [|a id IH]; [exact Htail|].
  cbn [string_forall] in Hid. apply andb_true_iff in Hid as [Ha Hid].
  rewrite append_cons. cbn [JsString.includes JsString.startsWith].
  rewrite (IH Hid), orb_false_r.
  destruct (Ascii.eqb_spec q a) as [<-|_]; [|reflexivity].
  destruct Hq as [-> | ->]; discriminate Ha.
Qed.

Lemma capture_past (pre s : string) :
  JsString.includes "y" pre = false ->
  capture videoPrefix videoGroup (pre +:+ s) = capture videoPrefix videoGroup s.
Proof.
  induction pre as [|a pre IH]; [reflexivity|].
  cbn [JsString.includes JsString.startsWith]. intros H.
  apply orb_false_iff in H as [Ha Hpre]. rewrite append_cons.
  rewrite capture_skip; [by apply IH|]. apply run_elsewhere.
  by destruct (Ascii.eqb "y" a).
Qed.

Lemma first_capture_id (id tail : string) (l : list string) :
  String.length id = 11%nat -> string_forall videoIdChar id = true ->
  first_capture videoGroup ((id +:+ tail) :: l) = Some id.
Proof.
  intros Hlen Hall. cbn [first_capture]. rewrite (videoGroup_on_id _ _ Hlen Hall).
  by rewrite take_append.
Qed.

Lemma no_member {A : Type} (l : list A) : (forall x, ~ In x l) -> l = [].
Proof. destruct l as [|a l]; [reflexivity|]. intros H. destruct (H a (in_eq a l)). Qed.

Lemma watch_at_host (id tail : string) :
  String.length id = 11%nat -> string_forall videoIdChar id = true ->
  JsString.includes "/" tail = false ->
  JsString.includes "?v=" tail = false -> JsString.includes "&v=" tail = false ->
  capture videoPrefix videoGroup ("youtube.com/watch?v=" +:+ id +:+ tail) = Some id.
Proof.
  intros Hlen Hall Hslash Hq Ha. apply capture_here.
  change ("youtube.com/watch?v=" +:+ id +:+ tail)
    with ("youtube.com/" +:+ ("watch?v=" +:+ (id +:+ tail))).
  rewrite run_at_host.
  rewrite (no_member (Regex.run pathBranch _)); cycle 1.
  { intros x Hx. apply pathBranch_two_slashes in Hx.
    rewrite !slashes_app, (slashes_id _ Hall), (slashes_none _ Hslash) in Hx.
    cbn in Hx. lia. }
  rewrite embed_watch. cbn [app].
  pose proof (queryBranch_complete "watch" (id +:+ tail) "?" eq_refl eq_refl) as Hin.
  change ("watch" +:+ String "?" ("v=" +:+ id +:+ tail))
    with ("watch?v=" +:+ (id +:+ tail)) in Hin.
  assert (Hsame : forall x, In x (Regex.run queryBranch ("watch?v=" +:+ (id +:+ tail))) ->
                            x = id +:+ tail).
  { intros x. apply queryBranch_watch; apply includes_past_id; auto. }
  destruct (Regex.run queryBranch ("watch?v=" +:+ (id +:+ tail))) as [|x l];
    [destruct Hin|].
  rewrite (Hsame x (in_eq x l)). by apply first_capture_id.
Qed.

Lemma embed_at_host (id tail : string) :
  String.length id = 11%nat -> string_forall videoIdChar id = true ->
  JsString.includes "/" tail = false ->
  capture videoPrefix videoGroup ("youtube.com/embed/" +:+ id +:+ tail) = Some id.
Proof.
  intros Hlen Hall Hslash. apply capture_here.
  change ("youtube.com/embed/" +:+ id +:+ tail)
    with ("youtube.com/" +:+ ("embed/" +:+ (id +:+ tail))).
  rewrite run_at_host.
  rewrite (no_member (Regex.run pathBranch _)); cycle 1.
  { intros x Hx. apply pathBranch_two_slashes in Hx.
    rewrite !slashes_app, (slashes_id _ Hall), (slashes_none _ Hslash) in Hx.
    cbn in Hx. lia. }
  rewrite embed_embed. cbn [app]. by apply first_capture_id.
Qed.

(** X22: the usual forms of a video address give its identifier.  For
    eleven characters [id] that the pattern accepts, [extractYouTubeId]
    returns [id] from a [watch?v=] address and from an [embed/] address
    of [youtube.com], when what follows the identifier has no [/] and no
    further [v] parameter, and from a [youtu.be/] address whatever
    follows; what stands before the host name must not let the pattern
    start earlier (it has no letter y). *)
Theorem usual_forms_give_the_id (pre id tail : string) :
  String.length id = 11%nat -> string_forall videoIdChar id = true ->
  JsString.includes "y" pre = false ->
  JsString.includes "/" tail = false ->
  JsString.includes "?v=" tail = false -> JsString.includes "&v=" tail = false ->
  extractYouTubeId (Str (pre +:+ "youtube.com/watch?v=" +:+ id +:+ tail)) = Ok (Some id) /\
  extractYouTubeId (Str (pre +:+ "youtube.com/embed/" +:+ id +:+ tail)) = Ok (Some id) /\
  (forall rest : string,
     extractYouTubeId (Str (pre +:+ "youtu.be/" +:+ id +:+ rest)) = Ok (Some id)).
Proof.
  intros Hlen Hall Hpre Hslash Hq Ha.
  unfold extractYouTubeId, matchOn. repeat split; [| |intros rest]; f_equal;
    rewrite capture_past by exact Hpre.
  - by apply watch_at_host.
  - by apply embed_at_host.
  - apply capture_here.
    change ("youtu.be/" +:+ id +:+ rest) with ("youtu.be/" +:+ (id +:+ rest)).
    rewrite run_at_short. by apply first_capture_id.
Qed.

Lemma usual_forms_give_the_id_witness :
  extractYouTubeId (Str "https://m.youtube.com/watch?v=dQw4w9WgXcQ&t=42s")
    = Ok (Some "dQw4w9WgXcQ") /\
  extractYouTubeId (Str "https://m.youtube.com/embed/dQw4w9WgXcQ&t=42s")
    = Ok (Some "dQw4w9WgXcQ") /\
  (forall rest : string,
     extractYouTubeId (Str ("https://m." +:+ "youtu.be/" +:+ "dQw4w9WgXcQ" +:+ rest))
       = Ok (Some "dQw4w9WgXcQ")).
Proof.
  apply (usual_forms_give_the_id "https://m." "dQw4w9WgXcQ" "&t=42s"); reflexivity.
Defined.

Lemma append_assoc (s t u : string) : (s +:+ t) +:+ u = s +:+ (t +:+ u).
Proof. induction s as [|a s IH]; [reflexivity|]. rewrite !append_cons. by rewrite IH. Qed.

Lemma append_nil_r (s : string) : s +:+ EmptyString = s.
Proof. induction s as [|a s IH]; [reflexivity|]. rewrite append_cons. by rewrite IH. Qed.

Lemma rev_app_eq (s t : string) : String.rev_app s t = String.rev s +:+ t.
Proof.
  unfold String.rev. revert t. induction s as [|a s IH]; intros t; [reflexivity|].
  cbn [String.rev_app]. rewrite (IH (String a t)), (IH (String a EmptyString)).
  by rewrite append_assoc.
Qed.

Lemma rev_cons (a : ascii) (s : string) :
  String.rev (String a s) = String.rev s +:+ String a EmptyString.
Proof. unfold String.rev at 1. cbn [String.rev_app]. apply rev_app_eq. Qed.

Lemma rev_append (s t : string) : String.rev (s +:+ t) = String.rev t +:+ String.rev s.
Proof.
  induction s as [|a s IH].
  - change (EmptyString +:+ t) with t. change (String.rev EmptyString) with EmptyString.
    by rewrite append_nil_r.
  - rewrite append_cons, !rev_cons, IH. apply append_assoc.
Qed.

Lemma rev_involutive (s : string) : String.rev (String.rev s) = s.
Proof.
  induction s as [|a s IH]; [reflexivity|].
  rewrite rev_cons, rev_append, IH. reflexivity.
Qed.

Lemma length_rev (s : string) : String.length (String.rev s) = String.length s.
Proof.
  induction s as [|a s IH]; [reflexivity|].
  rewrite rev_cons, length_append, IH. cbn. lia.
Qed.

Lemma includes_char_cons (c a : ascii) (s : string) :
  JsString.includes (String c EmptyString) (String a s)
  = Ascii.eqb c a || JsString.includes (String c EmptyString) s.
Proof. cbn [JsString.includes JsString.startsWith]. by destruct (Ascii.eqb c a), s. Qed.

Lemma includes_char_app (c : ascii) (s t : string) :
  JsString.includes (String c EmptyString) (s +:+ t)
  = JsString.includes (String c EmptyString) s || JsString.includes (String c EmptyString) t.
Proof.
  induction s as [|a s IH].
  - change (EmptyString +:+ t) with t. reflexivity.
  - rewrite append_cons, !includes_char_cons, IH. by rewrite orb_assoc.
Qed.

Lemma split_go_app (sep : ascii) (a : string) :
  forall cur s : string,
    JsString.includes (String sep EmptyString) a = false ->
    JsString.split_go sep cur (a +:+ s) = JsString.split_go sep (String.rev_app a cur) s.
Proof.
  induction a as [|x a IH]; intros cur s Hno; [reflexivity|].
  rewrite includes_char_cons in Hno. apply orb_false_iff in Hno as [Hx Hno].
  rewrite append_cons. cbn [JsString.split_go String.rev_app].
  rewrite Ascii.eqb_sym, Hx. by apply IH.
Qed.

Lemma split_first (sep : ascii) (a s : string) :
  JsString.includes (String sep EmptyString) a = false ->
  JsString.split sep (a +:+ String sep s) = a :: JsString.split sep s.
Proof.
  intros Hno. unfold JsString.split. rewrite split_go_app by exact Hno.
  cbn [JsString.split_go]. rewrite Ascii.eqb_refl.
  change (String.rev_app a EmptyString) with (String.rev a). by rewrite rev_involutive.
Qed.

Lemma split_whole (sep : ascii) (a : string) :
  JsString.includes (String sep EmptyString) a = false -> JsString.split sep a = [a].
Proof.
  intros Hno. unfold JsString.split. rewrite <- (append_nil_r a) at 1.
  rewrite split_go_app by exact Hno. cbn [JsString.split_go].
  change (String.rev_app a EmptyString) with (String.rev a). by rewrite rev_involutive.
Qed.

Lemma split_go_cons (sep : ascii) (s : string) :
  forall cur : string, exists p ps, JsString.split_go sep cur s = p :: ps.
Proof.
  induction s as [|a s IH]; intros cur; cbn [JsString.split_go]; [eauto|].
  destruct (Ascii.eqb a sep); eauto.
Qed.

Lemma join_cons (sep p q : string) (ps : list string) :
  JsString.join sep (p :: q :: ps) = p +:+ sep +:+ JsString.join sep (q :: ps).
Proof. reflexivity. Qed.

Lemma join_split_go (sep : ascii) (s : string) :
  forall cur : string,
    JsString.join (String sep EmptyString) (JsString.split_go sep cur s)
    = String.rev cur +:+ s.
Proof.
  induction s as [|a s IH]; intros cur; cbn [JsString.split_go].
  - cbn [JsString.join]. by rewrite append_nil_r.
  - destruct (Ascii.eqb_spec a sep) as [->|_].
    + specialize (IH EmptyString).
      destruct (split_go_cons sep s EmptyString) as (p & ps & Hs).
      rewrite Hs in *. rewrite join_cons, IH. reflexivity.
    + rewrite IH, rev_cons, append_assoc. reflexivity.
Qed.

Lemma join_split (sep : ascii) (s : string) :
  JsString.join (String sep EmptyString) (JsString.split sep s) = s.
Proof. unfold JsString.split. by rewrite join_split_go. Qed.

Lemma length_trimStart (s : string) :
  (String.length (JsString.trimStart s) <= String.length s)%nat.
Proof.
  induction s as [|a s IH]; [reflexivity|]. cbn [JsString.trimStart].
  destruct (JsString.is_white a); cbn [String.length]; lia.
Qed.

Lemma trimStart_head (s : string) :
  String.length (JsString.trimStart s) = String.length s -> s <> EmptyString ->
  exists a s', s = String a s' /\ JsString.is_white a = false.
Proof.
  destruct s as [|a s]; [done|]. intros Hlen _. exists a, s. split; [reflexivity|].
  cbn [JsString.trimStart] in Hlen. destruct (JsString.is_white a); [|reflexivity].
  pose proof (length_trimStart s). cbn [String.length] in Hlen. lia.
Qed.

Lemma trimStart_app (s t : string) :
  String.length (JsString.trimStart s) = String.length s -> s <> EmptyString ->
  JsString.trimStart (s +:+ t) = s +:+ t.
Proof.
  intros Hlen Hne. destruct (trimStart_head s Hlen Hne) as (a & s' & -> & Ha).
  rewrite append_cons. cbn [JsString.trimStart]. by rewrite Ha.
Qed.

Lemma trim_fixed (s : string) :
  JsString.trim s = s ->
  String.length (JsString.trimStart s) = String.length s /\
  String.length (JsString.trimStart (String.rev s)) = String.length (String.rev s).
Proof.
  intros H. unfold JsString.trim in H.
  pose proof (f_equal String.length H) as Hlen. rewrite length_rev in Hlen.
  pose proof (length_trimStart (String.rev (JsString.trimStart s))) as H1.
  rewrite length_rev in H1. pose proof (length_trimStart s) as H2.
  assert (Hs : String.length (JsString.trimStart s) = String.length s) by lia.
  split; [exact Hs|].
  assert (Hfix : JsString.trimStart s = s).
  { destruct s as [|a s']; [reflexivity|].
    destruct (trimStart_head _ Hs) as (a' & s'' & Heq & Ha); [done|].
    injection Heq as <- <-. cbn [JsString.trimStart]. by rewrite Ha. }
  rewrite Hfix in Hlen. rewrite length_rev. exact Hlen.
Qed.

Lemma trim_pair (n v : string) :
  JsString.trim n = n -> JsString.trim v = v -> n <> EmptyString -> v <> EmptyString ->
  JsString.trim (n +:+ "=" +:+ v) = n +:+ "=" +:+ v.
Proof.
  intros Hn Hv Hne Hve. apply trim_fixed in Hn as [Hn _]. apply trim_fixed in Hv as [_ Hv].
  unfold JsString.trim. rewrite trimStart_app by assumption.
  rewrite rev_append, rev_append, append_assoc.
  rewrite trimStart_app; [|exact Hv|].
  - rewrite <- append_assoc, <- !rev_append. apply rev_involutive.
  - intros E. apply (f_equal String.length) in E. rewrite length_rev in E.
    destruct v; [done|discriminate E].
Qed.

Lemma trim_pad (pad s : string) :
  string_forall JsString.is_white pad = true -> JsString.trim (pad +:+ s) = JsString.trim s.
Proof.
  intros Hpad. unfold JsString.trim. f_equal. f_equal. f_equal.
  induction pad as [|a pad IH]; [reflexivity|].
  cbn [string_forall] in Hpad. apply andb_true_iff in Hpad as [Ha Hpad].
  rewrite append_cons. cbn [JsString.trimStart]. rewrite Ha. by apply IH.
Qed.

Lemma white_has_no_semicolon (pad : string) :
  string_forall JsString.is_white pad = true -> JsString.includes ";" pad = false.
Proof.
  induction pad as [|a pad IH]; [reflexivity|]. cbn [string_forall]. intros H.
  apply andb_true_iff in H as [Ha Hpad]. rewrite includes_char_cons, (IH Hpad), orb_false_r.
  destruct (Ascii.eqb_spec ";" a) as [<-|_]; [discriminate Ha|reflexivity].
Qed.

Lemma split_join (pad : string) (ps : list string) :
  JsString.includes ";" pad = false ->
  Forall (fun p => JsString.includes ";" p = false) ps ->
  forall pre p : string,
    JsString.includes ";" pre = false -> JsString.includes ";" p = false ->
    JsString.split ";" (pre +:+ JsString.join (String ";" pad) (p :: ps))
    = (pre +:+ p) :: map (String.append pad) ps.
Proof.
  intros Hpad Hps. induction Hps as [|q ps Hq Hps IH]; intros pre p Hpre Hp.
  - cbn [JsString.join map]. apply split_whole. by rewrite includes_char_app, Hpre, Hp.
  - rewrite join_cons, append_cons, <- append_assoc.
    rewrite split_first by (by rewrite includes_char_app, Hpre, Hp).
    rewrite (IH pad q Hpad Hq). reflexivity.
Qed.

Lemma fold_left_lines (f : string -> string) (l : list string) :
  forall init : string,
    fold_left (fun acc c => acc +:+ f c) l init
    = init +:+ fold_right (fun c acc => f c +:+ acc) EmptyString l.
Proof.
  induction l as [|c l IH]; intros init; cbn [fold_left fold_right].
  - by rewrite append_nil_r.
  - rewrite IH. apply append_assoc.
Qed.

Lemma plainCookie_spec (c : string * string) :
  plainCookie c = true ->
  c.1 <> EmptyString /\ c.2 <> EmptyString /\
  JsString.trim c.1 = c.1 /\ JsString.trim c.2 = c.2 /\
  JsString.includes "=" c.1 = false /\
  JsString.includes ";" c.1 = false /\ JsString.includes ";" c.2 = false.
Proof.
  unfold plainCookie. rewrite !andb_true_iff, !negb_true_iff, !String.eqb_neq, !String.eqb_eq.
  tauto.
Qed.

Lemma netscapeLine_pair (c : string * string) :
  plainCookie c = true -> netscapeLine (cookiePair c) = cookieLine c.1 c.2.
Proof.
  intros H. apply plainCookie_spec in H as (Hn & Hv & Htn & Htv & Heq & _ & _).
  destruct c as [n v]. cbn [fst snd] in *. unfold netscapeLine, cookiePair. cbn [fst snd].
  change (n +:+ "=" +:+ v) with (n +:+ String "=" v).
  rewrite (includes_middle "=" n v : JsString.includes "=" (n +:+ String "=" v) = true).
  rewrite split_first by exact Heq.
  rewrite join_split, Htn, Htv.
  apply String.eqb_neq in Hn, Hv. rewrite Hn, Hv.
  destruct n as [|a n]; [discriminate Hn|]. reflexivity.
Qed.

(** X23: a cookie header becomes a jar with one line per cookie, in
    the order of the header.  For plain pairs separated by [;] and any
    white space, [convertToNetscapeFormat] returns the two header lines,
    an empty line, and for each pair the tab-separated line of the
    domain [.youtube.com], with the name and the whole value: a value
    that contains [=] is kept as it is, and the secure column is [TRUE]
    exactly for a name that contains [Secure]. *)
Theorem cookie_header_becomes_a_jar (pad : string) (cs : list (string * string)) :
  string_forall JsString.is_white pad = true ->
  forallb plainCookie cs = true ->
  convertToNetscapeFormat (Str (JsString.join (String ";" pad) (map cookiePair cs)))
  = Str (netscapeHeader +:+ cookieLines cs).
Proof.
  intros Hpad Hcs. unfold convertToNetscapeFormat. f_equal.
  rewrite fold_left_lines. fold netscapeHeader. f_equal.
  destruct cs as [|c cs]; [reflexivity|].
  cbn [forallb] in Hcs. apply andb_true_iff in Hcs as [Hc Hcs].
  assert (Hsemi : forall c, plainCookie c = true -> JsString.includes ";" (cookiePair c) = false).
  { intros c' H'. apply plainCookie_spec in H' as (_ & _ & _ & _ & _ & H1 & H2).
    unfold cookiePair. change (c'.1 +:+ "=" +:+ c'.2) with (c'.1 +:+ String "=" c'.2).
    rewrite includes_char_app, includes_char_cons, H1, H2. reflexivity. }
  assert (Htrim : forall c, plainCookie c = true -> JsString.trim (cookiePair c) = cookiePair c).
  { intros c' H'. apply plainCookie_spec in H' as (H1 & H2 & H3 & H4 & _).
    by apply trim_pair. }
  cbn [map].
  change (JsString.join (String ";" pad) (cookiePair c :: map cookiePair cs))
    with (EmptyString +:+ JsString.join (String ";" pad) (cookiePair c :: map cookiePair cs)).
  rewrite split_join; [|by apply white_has_no_semicolon| |reflexivity|by apply Hsemi].
  2:{ apply List.Forall_forall. intros p Hp. apply in_map_iff in Hp as (c' & <- & Hc').
      apply Hsemi. rewrite forallb_forall in Hcs. by apply Hcs. }
  change (EmptyString +:+ cookiePair c) with (cookiePair c).
  cbn [map fold_right cookieLines]. rewrite (Htrim c Hc), (netscapeLine_pair c Hc). f_equal.
  clear c Hc. induction cs as [|c cs IH]; [reflexivity|].
  cbn [forallb] in Hcs. apply andb_true_iff in Hcs as [Hc Hcs].
  cbn [map fold_right cookieLines].
  rewrite (trim_pad pad _ Hpad), (Htrim c Hc), (netscapeLine_pair c Hc). f_equal.
  by apply IH.
Qed.

Lemma cookie_header_becomes_a_jar_witness :
  convertToNetscapeFormat (Str "SID=abc=def; __Secure-3PSID=xyz")
  = Str (netscapeHeader
         +:+ cookieLine "SID" "abc=def" +:+ cookieLine "__Secure-3PSID" "xyz").
Proof.
  rewrite <- (append_nil_r (cookieLine "__Secure-3PSID" "xyz")).
  apply (cookie_header_becomes_a_jar " " [("SID", "abc=def"); ("__Secure-3PSID", "xyz")]);
    reflexivity.
Defined.

Lemma coherent_empty : coherent (createResponse None []).
Proof. split; [cbn; lia|constructor]. Qed.

Lemma coherent_single (trackData : TrackInfo) (extra : list (string * jsv))
    (requestedBy : jsv) (queryType : string) :
  coherent
    (createResponse None
       [YtDlpExtractor.newTrack trackData extra requestedBy queryType None]).
Proof. split; [cbn; lia|]. constructor; [|constructor]. repeat split. Qed.

Lemma handleYouTubePlaylist_coherent
    (E : Env) (this : YtDlpExtractor.t) (url : string) (context : Context)
    (w w' : World) (r : ExtractorInfo) :
  YtDlpExtractor.handleYouTubePlaylist E this url context w = (Ok r, w') ->
  coherent r.
Proof.
  unfold YtDlpExtractor.handleYouTubePlaylist, Eff.try_catch, Eff.bind, Eff.lift, Eff.throw.
  destruct (extractYouTubePlaylistId (Str url)) as [[playlistId|]|e]; try discriminate.
  destruct (getYouTubePlaylist E playlistId (YtDlpExtractor.youtubeiOptions this) w)
    as [[playlistInfo|e] w1]; try discriminate.
  destruct (Nat.eqb_spec (length (p_tracks playlistInfo)) 0) as [|Hlen]; [discriminate|].
  unfold Eff.ret. intros H. injection H as <- <-.
  unfold coherent. cbn [playlist tracks createResponse Playlist.tracks Playlist.id].
  split; [reflexivity|]. split.
  - intros Hnil. apply (f_equal (@length Track.t)) in Hnil.
    rewrite List.length_map in Hnil. contradiction.
  - apply List.Forall_forall. intros t Ht. apply in_map_iff in Ht as (d & <- & _).
    repeat split.
Qed.

Lemma handleDirectUrl_coherent
    (E : Env) (this : YtDlpExtractor.t) (url : string) (context : Context)
    (w w' : World) (r : ExtractorInfo) :
  YtDlpExtractor.handleDirectUrl E this url context w = (Ok r, w') ->
  coherent r.
Proof.
  unfold YtDlpExtractor.handleDirectUrl, Eff.try_catch at 1, Eff.bind at 1, Eff.lift at 1,
    Eff.throw.
  destruct (validateUrl E (Str url)) as [valid|e]; [|discriminate].
  destruct valid; cbn [negb]; [|discriminate].
  destruct (isYouTubeUrl (Str url)).
  - destruct (isYouTubePlaylistUrl (Str url)).
    + destruct (YtDlpExtractor.handleYouTubePlaylist E this url context w)
        as [[r1|e] w1] eqn:Hp; [|discriminate].
      intros H. injection H as <- <-. by eapply handleYouTubePlaylist_coherent.
    + unfold Eff.bind, Eff.lift, Eff.try_catch, Eff.ret.
      destruct (extractYouTubeId (Str url)) as [[videoId|]|e]; try discriminate.
      destruct (getYouTubeMetadataWithYtDlp E videoId (YtDlpExtractor.ytdlpPath this)
                  (YtDlpExtractor.cookiesOrNull this) w) as [[info|e] w1].
      * intros H. injection H as <- <-. apply coherent_single.
      * destruct (getYouTubeMetadata E videoId (YtDlpExtractor.youtubeiOptions this) w1)
          as [[[info|]|e'] w2]; try discriminate.
        intros H. injection H as <- <-. apply coherent_single.
  - unfold Eff.bind, Eff.ret.
    destruct (getBasicInfo E url (YtDlpExtractor.ytdlpPath this) w) as [[info|e] w1];
      [|discriminate].
    intros H. injection H as <- <-. apply coherent_single.
Qed.

Lemma handleSearchQuery_coherent
    (E : Env) (this : YtDlpExtractor.t) (query : string) (context : Context)
    (w w' : World) (r : ExtractorInfo) :
  YtDlpExtractor.handleSearchQuery E this query context w = (Ok r, w') ->
  coherent r.
Proof.
  unfold YtDlpExtractor.handleSearchQuery, Eff.try_catch, Eff.bind, Eff.throw, Eff.ret.
  destruct (negb (YtDlpExtractor.enableYouTubeSearch this)).
  { intros H. injection H as <- <-. apply coherent_empty. }
  destruct (searchYouTube E query 1 (YtDlpExtractor.youtubeiOptions this) w)
    as [[[|result l]|e] w1]; intros H; injection H as <- <-;
    first [apply coherent_empty | apply coherent_single].
Qed.

(** X24: [handle] always answers, and its answer is coherent: through
    [handleDirectUrl], [handleYouTubePlaylist] and [handleSearchQuery],
    whatever the query, the options and the backends, the response is
    either without a playlist and with at most one track, or a playlist
    together with all of its tracks, at least one, each marked with the
    identifier of that playlist; every track names this extractor as its
    source. *)
Theorem handle_response_is_coherent
    (E : Env) (this : YtDlpExtractor.t) (query : string) (context : Context) (w : World) :
  exists r w',
    YtDlpExtractor.handle E this query context w = (Ok r, w') /\ coherent r.
Proof.
  unfold YtDlpExtractor.handle, Eff.try_catch at 1, Eff.ret.
  destruct (isValidUrl E (Str query)).
  - destruct (YtDlpExtractor.handleDirectUrl E this query context w) as [[r|e] w1] eqn:H.
    + exists r, w1. split; [reflexivity|]. by eapply handleDirectUrl_coherent.
    + exists (createResponse None []), w1. split; [reflexivity|apply coherent_empty].
  - destruct (YtDlpExtractor.handleSearchQuery E this query context w) as [[r|e] w1] eqn:H.
    + exists r, w1. split; [reflexivity|]. by eapply handleSearchQuery_coherent.
    + exists (createResponse None []), w1. split; [reflexivity|apply coherent_empty].
Qed.

Lemma usable_is_truthy (c : string) :
  usableCookieString (Str c) = true -> negb (String.eqb c EmptyString) = true.
Proof. cbn. intros H. apply andb_true_iff in H. tauto. Qed.

Lemma metadata_jar (E : Env) (videoId ytdlpPath c : string) (w : World) :
  is_Some (files w !! ytdlpPath) ->
  negb (String.eqb c EmptyString) = true ->
  let jar := inDirname E "temp_cookies_metadata.txt" in
  let command := metadataCommand E videoId ytdlpPath (Str c) in
  let answer := execAsync E (length (trace w)) command in
  exists r,
    getYouTubeMetadataWithYtDlp E videoId ytdlpPath (Str c) w
    = (r, {| files :=
               (if exited answer then delete jar else id)
                 (<[jar := Js.to_string (convertToNetscapeFormat (Str c))]> (files w));
             innertube := innertube w; lastCookies := lastCookies w;
             trace := trace w ++ [Exec command] |}).
Proof.
  intros Hbin Hc jar command answer. subst answer command jar.
  unfold getYouTubeMetadataWithYtDlp, Eff.try_catch at 1, Eff.bind at 1.
  rewrite existsSync_found by assumption. cbn [negb].
  unfold metadataCommand.
  cbn [convertToNetscapeFormat writeData Js.to_string Js.truthy]. rewrite Hc.
  cbv beta iota zeta delta
    [Eff.bind Eff.try_catch writeFileSync Eff.ret run Eff.emit Eff.throw fst snd].
  cbn [trace files innertube lastCookies].
  destruct (execAsync E _ _) as [stdout stderr|e]; [|eexists; reflexivity].
  rewrite cleanup_run. cbn [trace files innertube lastCookies fst snd Js.truthy exited].
  rewrite Hc.
  destruct (negb (String.eqb stderr EmptyString) && String.eqb stdout EmptyString);
    [eexists; reflexivity|].
  unfold parse. destruct (JSON_parse E stdout) as [info|]; [|eexists; reflexivity].
  unfold Eff.lift, Eff.ret.
  destruct (Member.get "title" info); cbn [Pure.bind]; [|eexists; reflexivity].
  destruct (displayDuration _); eexists; reflexivity.
Qed.

(** X25: the life of the cookie jar.  With the binary in place and a
    usable cookie string, [getStreamingUrl] and
    [getYouTubeMetadataWithYtDlp] each start exactly one process, whose
    command names the jar; afterwards the jar is deleted if the process
    exited, whatever it printed and whether or not the call then
    throws, it is left on disk with the converted cookies if the process
    failed, and every other file is as before. *)
Theorem cookie_jar_lifecycle
    (E : Env) (url : jsv) (videoId ytdlpPath quality c : string) (w : World) :
  is_Some (files w !! ytdlpPath) ->
  usableCookieString (Str c) = true ->
  let content := Js.to_string (convertToNetscapeFormat (Str c)) in
  let streamC := streamCommand E url ytdlpPath quality (Str c) in
  let metadataC := metadataCommand E videoId ytdlpPath (Str c) in
  jarLifecycle (inDirname E "temp_cookies.txt") content streamC
    (execAsync E (length (trace w)) streamC) w
    (getStreamingUrl E url ytdlpPath quality (Str c) w).2 /\
  jarLifecycle (inDirname E "temp_cookies_metadata.txt") content metadataC
    (execAsync E (length (trace w)) metadataC) w
    (getYouTubeMetadataWithYtDlp E videoId ytdlpPath (Str c) w).2.
Proof.
  intros Hbin Hc content streamC metadataC. pose proof (usable_is_truthy c Hc) as Ht.
  split.
  - subst streamC. rewrite getStreamingUrl_run by assumption.
    unfold jarLifecycle. cbn [snd trace files]. split; [reflexivity|].
    unfold filesAfterStream. rewrite Hc. cbn [Js.truthy]. rewrite Ht.
    destruct (execAsync E _ _) as [stdout stderr|e]; cbn [exited]; split.
    + apply lookup_delete_eq.
    + intros path Hp. rewrite lookup_delete_ne, lookup_insert_ne by done. reflexivity.
    + apply lookup_insert_eq.
    + intros path Hp. by rewrite lookup_insert_ne.
  - destruct (metadata_jar E videoId ytdlpPath c w Hbin Ht) as [r Hrun].
    rewrite Hrun. unfold jarLifecycle. cbn [snd trace files]. split; [reflexivity|].
    fold metadataC.
    destruct (execAsync E _ metadataC) as [stdout stderr|e]; cbn [exited]; split.
    + apply lookup_delete_eq.
    + intros path Hp. rewrite lookup_delete_ne, lookup_insert_ne by done. reflexivity.
    + apply lookup_insert_eq.
    + intros path Hp. unfold id. by rewrite lookup_insert_ne.
Qed.

Lemma cookie_jar_lifecycle_witness :
  files (getStreamingUrl Streaming.env (Str "https://www.youtube.com/watch?v=dQw4w9WgXcQ")
           Demo.binary "bestaudio" (Str "SID=abc") Demo.startup).2
    !! "/app/temp_cookies.txt" = None /\
  files (getYouTubeMetadataWithYtDlp Demo.failing "dQw4w9WgXcQ" Demo.binary (Str "SID=abc")
           Demo.startup).2
    !! Demo.binary = Some "ELF".
Proof.
  split.
  - destruct (cookie_jar_lifecycle Streaming.env
                (Str "https://www.youtube.com/watch?v=dQw4w9WgXcQ") "dQw4w9WgXcQ"
                Demo.binary "bestaudio" "SID=abc" Demo.startup)
      as [(_ & Hjar & _) _]; [by eexists|reflexivity|exact Hjar].
  - destruct (cookie_jar_lifecycle Demo.failing
                (Str "https://www.youtube.com/watch?v=dQw4w9WgXcQ") "dQw4w9WgXcQ"
                Demo.binary "bestaudio" "SID=abc" Demo.startup)
      as [_ (_ & _ & Hrest)]; [by eexists|reflexivity|].
    rewrite Hrest; [reflexivity|discriminate].
Defined.
